(** * TrustMed web API: disclosure authorization, field cipher and audit trail

    A shallow embedding of the parts of the TrustMed back end that the
    specification talks about:

    - the field cipher of [middleware/encryption.middleware.js]
      ([encrypt], [decrypt], [isLikelyEncrypted]);
    - the audit logger of [services/audit.service.js] ([logAudit]);
    - the insurance-allocation and data-request models and the controller
      handlers that drive them ([updateAllocationStatus],
      [updateConnectionStatus], [requestMedicalRecords], [createDataRequest],
      [updateDataRequestStatus], [approveDataRequest], [rejectDataRequest],
      [getApprovedRecords]);
    - the list query of the record model ([getAllRecords]);
    - the middleware in front of the handlers ([authenticate], [checkRole]
      and the gates the routers mount) and behind them ([AppError],
      [handleDatabaseError], [errorHandler]);
    - the read handlers [getDataRequestById] of the insurance and the
      admin controller and [getInsuranceAllocationById].

    Handlers are [async] functions: they are written here in a small free
    monad [prog] whose nodes are the awaited calls ([pool.query], the mail
    service), console output and [throw]; [try ... catch] is a combinator on
    program trees.  Programs are run against a world (database tables,
    console, outbox), either alone or interleaved at their [await] points. *)

From Stdlib Require Import List String Ascii ZArith NArith Bool Lia Arith PeanoNat DecimalString.
From Stdlib.Strings Require Import Byte.
Import ListNotations.
Open Scope string_scope.
Open Scope list_scope.
Open Scope Z_scope.

Set Implicit Arguments.

(** ** JavaScript errors and completions *)

(** The error values the handlers throw or receive.  [AppError] is the
    class of [utils/error.utils.js] (message and HTTP status code);
    [Error] is the plain constructor used by the models; [TypeError] arises
    from property access on [null]/[undefined]; [DbError] is a rejection of
    [pool.query] carrying the MySQL error code; [CryptoError] is thrown by
    Node's [crypto] module; [MailError] by the mail service. *)
Inductive js_error : Type :=
| AppError (message : string) (statusCode : Z)
| Error (message : string)
| TypeError (message : string)
| DbError (code : string)
| CryptoError (message : string)
| MailError (message : string).

(** The settlement of an awaited promise. *)
Inductive outcome (A : Type) : Type :=
| Resolved (a : A)
| Rejected (e : js_error).
Arguments Rejected {A} e.

(** How the evaluation of a function body ends. *)
Inductive completion (A : Type) : Type :=
| Normal (a : A)
| Abrupt (e : js_error).
Arguments Abrupt {A} e.

Inductive console_level : Type := LogLevel | WarnLevel | ErrorLevel.

(** ** Programs

    [Vis e k] awaits the external call [e] and continues with its reply;
    [Console l m k] is [console.log]/[console.warn]/[console.error];
    [Throw] is a [throw] statement (or a rejected [await]). *)
Inductive prog (E : Type -> Type) (A : Type) : Type :=
| Ret (a : A)
| Throw (e : js_error)
| Console (lvl : console_level) (msg : string) (k : prog E A)
| Vis (X : Type) (e : E X) (k : X -> prog E A).
Arguments Ret {E A} a.
Arguments Throw {E A} e.
Arguments Console {E A} lvl msg k.
Arguments Vis {E A X} e k.

Fixpoint bind {E A B} (p : prog E A) (f : A -> prog E B) : prog E B :=
  match p with
  | Ret a => f a
  | Throw e => Throw e
  | Console l m k => Console l m (bind k f)
  | Vis e k => Vis e (fun x => bind (k x) f)
  end.

(** [try { p } catch (error) { h error }] *)
Fixpoint try_catch {E A} (p : prog E A) (h : js_error -> prog E A) : prog E A :=
  match p with
  | Ret a => Ret a
  | Throw e => h e
  | Console l m k => Console l m (try_catch k h)
  | Vis e k => Vis e (fun x => try_catch (k x) h)
  end.

Declare Scope prog_scope.
Delimit Scope prog_scope with prog.
Notation "x <- c1 ;; c2" := (bind c1 (fun x => c2))
  (at level 100, c1 at next level, right associativity) : prog_scope.
Notation "c1 ;;; c2" := (bind c1 (fun _ => c2))
  (at level 100, right associativity) : prog_scope.
Open Scope prog_scope.

(** [await e] for a call whose promise may reject: rejection is rethrown. *)
Definition await {E A} (e : E (outcome A)) : prog E A :=
  Vis e (fun o => match o with Resolved a => Ret a | Rejected err => Throw err end).

Definition console_log {E} (msg : string) : prog E unit := Console LogLevel msg (Ret tt).
Definition console_warn {E} (msg : string) : prog E unit := Console WarnLevel msg (Ret tt).
Definition console_error {E} (msg : string) : prog E unit := Console ErrorLevel msg (Ret tt).

(** [for (const x of xs) { body x }] with an [await] in the body. *)
Fixpoint for_of {E A} (xs : list A) (body : A -> prog E unit) : prog E unit :=
  match xs with
  | [] => Ret tt
  | x :: rest => body x ;;; for_of rest body
  end.

(** [returns p]: the program awaits nothing and ends by returning a value
    (it may write to the console on the way). *)
Fixpoint returns {E A} (p : prog E A) : Prop :=
  match p with
  | Ret _ => True
  | Console _ _ k => returns k
  | Throw _ | Vis _ _ => False
  end.

(** ** Buffers and the hex encoding

    A [Buffer] is a list of bytes.  A JavaScript string is represented by
    the bytes of its UTF-8 encoding, which is the form in which
    [cipher.update(text, 'utf8', ...)] reads it and in which
    [decipher.update(..., 'utf8')] writes it; the characters the regular
    expressions of this module look at are ASCII and occupy one byte each. *)
Definition Buffer := list byte.

Definition Buffer_from_utf8 (s : string) : Buffer := list_byte_of_string s.
Definition toString_utf8 (b : Buffer) : string := string_of_list_byte b.

Definition hex_digit (n : N) : ascii :=
  match n with
  | 0 => "0" | 1 => "1" | 2 => "2" | 3 => "3" | 4 => "4" | 5 => "5" | 6 => "6" | 7 => "7"
  | 8 => "8" | 9 => "9" | 10 => "a" | 11 => "b" | 12 => "c" | 13 => "d" | 14 => "e"
  | _ => "f"
  end%N%char.

(** [buf.toString('hex')]: two lowercase digits per byte. *)
Fixpoint toString_hex (b : Buffer) : string :=
  match b with
  | [] => EmptyString
  | x :: rest =>
      String (hex_digit (Byte.to_N x / 16)) (String (hex_digit (Byte.to_N x mod 16)) (toString_hex rest))
  end.

(** The value of a hexadecimal digit, of either case. *)
Definition hex_value (c : ascii) : option N :=
  let n := N_of_ascii c in
  if ((48 <=? n) && (n <=? 57))%N then Some (n - 48)%N
  else if ((97 <=? n) && (n <=? 102))%N then Some (n - 87)%N
  else if ((65 <=? n) && (n <=? 70))%N then Some (n - 55)%N
  else None.

Definition byte_of_nibbles (h l : N) : byte :=
  match Byte.of_N (16 * h + l) with Some b => b | None => x00 end.

(** [Buffer.from(s, 'hex')]: pairs of digits are decoded until the first
    pair that is not hexadecimal; a trailing single digit is dropped. *)
Fixpoint Buffer_from_hex (s : string) : Buffer :=
  match s with
  | String c1 (String c2 rest) =>
      match hex_value c1, hex_value c2 with
      | Some h, Some l => byte_of_nibbles h l :: Buffer_from_hex rest
      | _, _ => []
      end
  | _ => []
  end.

(** ** Regular expressions of the cipher module *)

(** The character class [[0-9a-f]] under the [i] flag. *)
Definition is_hex_char (c : ascii) : bool :=
  match hex_value c with Some _ => true | None => false end.

Fixpoint all_chars (f : ascii -> bool) (s : string) : bool :=
  match s with
  | EmptyString => true
  | String c rest => f c && all_chars f rest
  end.

(** [/^[0-9a-f]+$/i.test(s)] *)
Definition test_hex_plus (s : string) : bool :=
  (1 <=? String.length s)%nat && all_chars is_hex_char s.

(** [/^[0-9a-f]{32,}$/i.test(s)] *)
Definition test_hex_32 (s : string) : bool :=
  (32 <=? String.length s)%nat && all_chars is_hex_char s.

(** [!text] for a string: only the empty string is falsy. *)
Definition falsy (s : string) : bool :=
  match s with EmptyString => true | _ => false end.

(** ** AES-256-CBC as Node's [crypto] module runs it

    [crypto.createCipheriv('aes-256-cbc', key, iv)] is the CBC mode of
    operation over 16-byte blocks with PKCS#7 padding (Node's default
    [autoPadding]).  The mode and the padding are written out; the AES block
    permutation itself is a parameter of the development. *)

Definition byte_xor (a b : byte) : byte :=
  let '(a0, (a1, (a2, (a3, (a4, (a5, (a6, a7))))))) := Byte.to_bits a in
  let '(b0, (b1, (b2, (b3, (b4, (b5, (b6, b7))))))) := Byte.to_bits b in
  Byte.of_bits (xorb a0 b0, (xorb a1 b1, (xorb a2 b2, (xorb a3 b3,
               (xorb a4 b4, (xorb a5 b5, (xorb a6 b6, xorb a7 b7))))))).

Definition xor_bytes (a b : Buffer) : Buffer :=
  map (fun p => byte_xor (fst p) (snd p)) (combine a b).

Definition byte_of_nat (n : nat) : byte :=
  match Byte.of_N (N.of_nat n) with Some b => b | None => x00 end.

Definition byte_to_nat (b : byte) : nat := N.to_nat (Byte.to_N b).

(** PKCS#7: between 1 and 16 bytes are appended, each holding their number. *)
Definition pkcs7_pad (m : Buffer) : Buffer :=
  let n := (16 - (List.length m) mod 16)%nat in
  m ++ repeat (byte_of_nat n) n.

(** Removal checks the last byte [n] (1..16) and that the last [n] bytes all
    equal it, as OpenSSL's [EVP_DecryptFinal_ex] does. *)
Definition pkcs7_unpad (m : Buffer) : option Buffer :=
  match rev m with
  | [] => None
  | b :: _ =>
      let n := byte_to_nat b in
      if ((1 <=? n) && (n <=? 16) && (n <=? List.length m))%nat
         && forallb (Byte.eqb b) (skipn (List.length m - n) m)
      then Some (firstn (List.length m - n) m)
      else None
  end.

(** The input cut into 16-byte blocks ([fuel] bounds the number of blocks). *)
Fixpoint blocks_upto (fuel : nat) (l : Buffer) : list Buffer :=
  match fuel with
  | O => []
  | S f =>
      match l with
      | [] => []
      | _ => firstn 16 l :: blocks_upto f (skipn 16 l)
      end
  end.

Definition blocks (l : Buffer) : list Buffer := blocks_upto (List.length l) l.

Section AesCbc.
(** The AES-256 block permutation and its inverse, [key -> block -> block]. *)
Variable aes_encrypt_block aes_decrypt_block : Buffer -> Buffer -> Buffer.

Fixpoint cbc_encrypt_blocks (key prev : Buffer) (bs : list Buffer) : Buffer :=
  match bs with
  | [] => []
  | b :: rest =>
      let c := aes_encrypt_block key (xor_bytes b prev) in
      c ++ cbc_encrypt_blocks key c rest
  end.

Fixpoint cbc_decrypt_blocks (key prev : Buffer) (cs : list Buffer) : Buffer :=
  match cs with
  | [] => []
  | c :: rest =>
      xor_bytes (aes_decrypt_block key c) prev ++ cbc_decrypt_blocks key c rest
  end.

(** [cipher.update(m) + cipher.final()] *)
Definition cbc_encrypt (key iv m : Buffer) : Buffer :=
  cbc_encrypt_blocks key iv (blocks (pkcs7_pad m)).

(** [decipher.update(c) + decipher.final()]; [None] when [final] throws
    (wrong final block length, or bad padding). *)
Definition cbc_decrypt (key iv c : Buffer) : option Buffer :=
  if ((List.length c =? 0) || negb (List.length c mod 16 =? 0))%nat then None
  else pkcs7_unpad (cbc_decrypt_blocks key iv (blocks c)).

(** ** The field cipher ([middleware/encryption.middleware.js]) *)

Variable E : Type -> Type.

(** [process.env.ENCRYPTION_DISABLED === 'true'] and the module-level
    buffers [key] and [iv]. *)
Variable ENCRYPTION_DISABLED : bool.
Variable key iv : Buffer.

(** [crypto.createCipheriv] and [crypto.createDecipheriv] throw on a key
    that is not 32 bytes or an IV that is not 16 bytes long. *)
Definition createCipheriv (k i : Buffer) : prog E (Buffer * Buffer) :=
  if negb (List.length k =? 32)%nat then Throw (CryptoError "Invalid key length")
  else if negb (List.length i =? 16)%nat then Throw (CryptoError "Invalid initialization vector")
  else Ret (k, i).

Definition createDecipheriv := createCipheriv.

(** [decipher.update(encryptedText, 'hex', 'utf8')] validates the string
    against its encoding before anything is deciphered: a hexadecimal
    string with an odd number of digits is refused with a [TypeError].
    Otherwise the decipher takes the decoded bytes. *)
Definition decipher_update (d : Buffer * Buffer) (encryptedText : string) : prog E Buffer :=
  if Nat.odd (String.length encryptedText)
  then Throw (TypeError "The argument 'encoding' is invalid for data of length")
  else Ret (Buffer_from_hex encryptedText).

(** [decrypted += decipher.final('utf8')]: the text of the bytes taken by
    [update]; [final] throws when the padding cannot be removed. *)
Definition decipher_final (d : Buffer * Buffer) (c : Buffer) : prog E string :=
  match cbc_decrypt (fst d) (snd d) c with
  | Some m => Ret (toString_utf8 m)
  | None => Throw (CryptoError "bad decrypt")
  end.

Definition encrypt (text : string) : prog E string :=
  if falsy text || ENCRYPTION_DISABLED then Ret text
  else
    try_catch
      (cipher <- createCipheriv key iv ;;
       let encrypted :=
         toString_hex (cbc_encrypt (fst cipher) (snd cipher) (Buffer_from_utf8 text)) in
       Ret encrypted)
      (fun error => console_error "Encryption error:" ;;; Ret text).

Definition decrypt (encryptedText : string) : prog E string :=
  if falsy encryptedText || ENCRYPTION_DISABLED then Ret encryptedText
  else
    try_catch
      (if negb (test_hex_plus encryptedText) then Ret encryptedText
       else
         decipher <- createDecipheriv key iv ;;
         taken <- decipher_update decipher encryptedText ;;
         try_catch
           (decipher_final decipher taken)
           (fun finalError =>
              console_error "Error in final decryption step:" ;;;
              Ret "[Encrypted content]"))
      (fun error => console_error "Decryption error:" ;;; Ret "[Encrypted content]").

Definition isLikelyEncrypted (text : string) : bool :=
  if falsy text then false else test_hex_32 text.

(** The read pattern of the record model ([getAllRecords]): the stored
    value goes through [decrypt] only when it is likely ciphertext. *)
Definition readSensitive (stored : string) : prog E string :=
  if negb (falsy stored) && isLikelyEncrypted stored then
    try_catch (decrypt stored)
      (fun error =>
         console_error "Error decrypting field in getAllRecords:" ;;;
         Ret "[Encrypted content]")
  else Ret stored.
End AesCbc.

(** The fallback configuration of the module:
    [ENCRYPTION_KEY.padEnd(32).slice(0, 32)] and
    [ENCRYPTION_IV.padEnd(16).slice(0, 16)]. *)
Definition padEnd (n : nat) (s : string) : string :=
  (s ++ string_of_list_ascii (repeat " "%char (n - String.length s)))%string.

Definition default_key : Buffer :=
  Buffer_from_utf8 (substring 0 32 (padEnd 32 "your_fallback_32_character_key_here_")).

Definition default_iv : Buffer :=
  Buffer_from_utf8 (substring 0 16 (padEnd 16 "your_16_char_iv_")).

(** A stand-in for the block permutation, used where a concrete instance of
    the cipher is evaluated: the block is combined with the second half of
    the key. *)
Definition xor_block (k b : Buffer) : Buffer := xor_bytes b (skipn 16 k).

(** ** The relational store

    The tables are lists of rows, in insertion order.  Rows carry the
    columns the modelled statements read or write; the status columns hold
    the small integers the code stores (0 pending, 1 approved,
    2 rejected).  The tables are those the statements of the code name:
    [record_requests], which [requestMedicalRecords] writes, is not
    declared in [scripts/dbshema.sql]. *)

Inductive ident : Type := IdNum (n : Z) | IdStr (s : string).

Record allocation : Type := mkAllocation
  { ia_id : Z; ia_company_id : string; ia_patient_id : string;
    ia_status : Z; ia_notes : option string }.

Record data_request : Type := mkDataRequest
  { dr_request_id : string; dr_company_id : string; dr_patient_id : string;
    dr_purpose : string;
    dr_date_range_start : option string; dr_date_range_end : option string;
    dr_status : Z; dr_request_date : Z; dr_created_by : string;
    dr_request_details : string;
    dr_response_notes : option string; dr_response_date : option Z }.

Record record_request : Type := mkRecordRequest
  { rr_id : Z; rr_company_id : string; rr_patient_id : string;
    rr_request_details : string; rr_status : string; rr_created_at : Z }.

(** [approved_records] of [scripts/dbshema.sql]: one grant per disclosed
    record, with its expiry and its access quota. *)
Record approved_record : Type := mkApprovedRecord
  { ar_id : Z; ar_request_id : string; ar_record_id : string;
    ar_approved_by : string; ar_access_granted_until : option Z;
    ar_access_count : Z; ar_max_access_count : Z }.

Record medical_record : Type := mkMedicalRecord
  { rec_record_id : string; rec_patient_id : string; rec_doc_id : string;
    rec_description : option string; rec_created_at : Z }.

Record patient : Type := mkPatient
  { pt_patient_id : string; pt_name : string; pt_email : string }.

Record insurance_company : Type := mkCompany
  { ic_company_id : string; ic_company_name : string; ic_email : string }.

Record staff_member : Type := mkStaff
  { st_staff_id : string; st_first_name : string; st_last_name : string;
    st_email : string; st_role : string }.

Record audit_log : Type := mkAuditLog
  { al_id : Z; al_user_id : string; al_action : string;
    al_resource_type : string; al_resource_id : ident; al_details : string;
    al_created_at : Z }.

Record database : Type := mkDatabase
  { insurance_allocations : list allocation;
    data_requests : list data_request;
    record_requests : list record_request;
    approved_records : list approved_record;
    records : list medical_record;
    patients : list patient;
    insurance_companies : list insurance_company;
    staff : list staff_member;
    audit_logs : list audit_log }.

(** What [pool.query] resolves to for an [INSERT] or an [UPDATE]. *)
Record ResultSetHeader : Type := mkHeader { insertId : Z; affectedRows : Z }.

(** A row of the approved-records query: the record with the joined patient
    and doctor names. *)
Record record_joined : Type := mkRecordJoined
  { rj_record : medical_record; rj_patient_name : string; rj_doctor_name : string }.

(** ** Awaited calls

    One constructor per SQL statement of the modelled functions, with the
    statement's placeholders as arguments; [TransportSendMail] is
    [transporter.sendMail] and [DateNow] is [Date.now()]. *)
Inductive call : Type -> Type :=
(* SELECT * FROM insurance_allocations WHERE id = ? AND company_id = ? *)
| SelectAllocationByIdCompany (id : Z) (company_id : string) : call (outcome (list allocation))
(* SELECT * FROM insurance_allocations WHERE id = ? *)
| SelectAllocationById (id : Z) : call (outcome (list allocation))
(* SELECT a.id ..., p.name, ic.company_name FROM insurance_allocations a
   INNER JOIN patients p ... INNER JOIN insurance_companies ic ... WHERE a.id = ? *)
| SelectAllocationJoined (id : Z) : call (outcome (list (allocation * string * string)))
(* SELECT * FROM insurance_allocations WHERE patient_id = ? AND company_id = ? AND status = 1 *)
| SelectApprovedAllocation (patient_id company_id : string) : call (outcome (list allocation))
(* SELECT * FROM insurance_allocations WHERE patient_id = ? OR company_id = ? *)
| SelectAllocationsOfPatientOrCompany (patient_id company_id : string) : call (outcome (list allocation))
(* UPDATE insurance_allocations SET status = ?, notes = ? WHERE id = ? *)
| UpdateAllocation (status : Z) (notes : option string) (id : Z) : call (outcome ResultSetHeader)
(* INSERT INTO data_requests (...) VALUES (?, ?, ?, ?, ?, ?, '0', NOW(), ?, ?) *)
| InsertDataRequest (request_id company_id patient_id purpose : string)
    (date_range_start date_range_end : option string) (created_by request_details : string)
  : call (outcome ResultSetHeader)
(* SELECT dr..., p.name, ic.company_name FROM data_requests dr
   INNER JOIN patients p ... INNER JOIN insurance_companies ic ... WHERE dr.request_id = ? *)
| SelectDataRequestJoined (request_id : string) : call (outcome (list (data_request * string * string)))
(* UPDATE data_requests SET status = ?, response_notes = ?, response_date = NOW()
   WHERE request_id = ? *)
| UpdateDataRequest (status : Z) (notes : option string) (request_id : string) : call (outcome ResultSetHeader)
(* SELECT * FROM data_requests WHERE request_id = ? AND company_id = ? AND status = 1 *)
| SelectApprovedRequest (request_id company_id : string) : call (outcome (list data_request))
(* INSERT INTO record_requests (company_id, patient_id, request_details, status, created_at)
   VALUES (?, ?, ?, 'pending', NOW()) *)
| InsertRecordRequest (company_id patient_id request_details : string) : call (outcome ResultSetHeader)
(* SELECT r.*, p.name, CONCAT(s.first_name, ' ', s.last_name), ... FROM records r
   JOIN patients p ... JOIN staff s ... LEFT JOIN ...
   WHERE r.patient_id = ? AND r.record_id IN
     (SELECT record_id FROM approved_records WHERE request_id = ?) *)
| SelectApprovedRecords (patient_id request_id : string) : call (outcome (list record_joined))
(* SELECT r.record_id, ..., p.name, CONCAT(s.first_name, ' ', s.last_name), ... FROM records r
   JOIN patients p ... JOIN staff s ... [WHERE r.patient_id = ?]
   ORDER BY r.created_at DESC LIMIT ? OFFSET ? *)
| SelectRecords (patientId : option string) (limit offset : nat) : call (outcome (list record_joined))
(* SELECT company_name FROM insurance_companies WHERE company_id = ? *)
| SelectCompanyName (company_id : string) : call (outcome (list string))
(* SELECT * FROM insurance_companies WHERE company_id = ? *)
| SelectCompanyById (company_id : string) : call (outcome (list insurance_company))
(* SELECT p.name, p.email FROM patients p JOIN insurance_allocations ia
   ON p.patient_id = ia.patient_id WHERE ia.id = ? *)
| SelectPatientOfAllocation (id : Z) : call (outcome (list (string * string)))
(* SELECT name FROM patients WHERE patient_id = ? *)
| SelectPatientName (patient_id : string) : call (outcome (list string))
(* SELECT email, first_name, last_name FROM staff WHERE role = "admin" *)
| SelectAdmins : call (outcome (list staff_member))
(* INSERT INTO audit_logs (user_id, action, resource_type, resource_id, details, created_at)
   VALUES (?, ?, ?, ?, ?, NOW()) *)
| InsertAuditLog (user_id action resource_type : string) (resource_id : ident) (details : string)
  : call (outcome ResultSetHeader)
| TransportSendMail (to subject : string) : call (outcome unit)
| DateNow : call Z.

Definition js := prog call.

(** ** The world a handler runs in *)

Record world : Type := mkWorld
  { db : database;
    console : list (console_level * string);
    outbox : list (string * string);
    clock : Z }.

Definition with_db (w : world) (d : database) : world :=
  mkWorld d (console w) (outbox w) (clock w).

Definition with_console (w : world) (l : console_level) (m : string) : world :=
  mkWorld (db w) (console w ++ [(l, m)]) (outbox w) (clock w).

Definition with_mail (w : world) (to subject : string) : world :=
  mkWorld (db w) (console w) (outbox w ++ [(to, subject)]) (clock w).

Definition set_insurance_allocations (d : database) (t : list allocation) : database :=
  mkDatabase t (data_requests d) (record_requests d) (approved_records d) (records d)
             (patients d) (insurance_companies d) (staff d) (audit_logs d).

Definition set_data_requests (d : database) (t : list data_request) : database :=
  mkDatabase (insurance_allocations d) t (record_requests d) (approved_records d) (records d)
             (patients d) (insurance_companies d) (staff d) (audit_logs d).

Definition set_record_requests (d : database) (t : list record_request) : database :=
  mkDatabase (insurance_allocations d) (data_requests d) t (approved_records d) (records d)
             (patients d) (insurance_companies d) (staff d) (audit_logs d).

Definition set_audit_logs (d : database) (t : list audit_log) : database :=
  mkDatabase (insurance_allocations d) (data_requests d) (record_requests d) (approved_records d)
             (records d) (patients d) (insurance_companies d) (staff d) t.

(** The next [AUTO_INCREMENT] value of a table. *)
Definition next_id {A} (id : A -> Z) (t : list A) : Z :=
  1 + fold_right (fun r m => Z.max (id r) m) 0 t.

Definition count {A} (f : A -> bool) (t : list A) : Z := Z.of_nat (List.length (filter f t)).

(** ** The reference behaviour of the store and the mail transport

    [mysql mail_ok] answers every awaited call on the tables of the world,
    statement by statement.  [data_requests] enforces its primary key and
    its two foreign keys as declared in [scripts/dbshema.sql]; every other
    statement resolves.  Delivery of a mail to a recipient succeeds when
    [mail_ok] says so. *)
Section Reference.
Variable mail_ok : string -> bool.

Definition select_allocation_joined (d : database) (id : Z) : list (allocation * string * string) :=
  flat_map (fun a =>
    flat_map (fun p =>
      map (fun c => (a, pt_name p, ic_company_name c))
          (filter (fun c => String.eqb (ic_company_id c) (ia_company_id a)) (insurance_companies d)))
      (filter (fun p => String.eqb (pt_patient_id p) (ia_patient_id a)) (patients d)))
    (filter (fun a => ia_id a =? id) (insurance_allocations d)).

Definition select_data_request_joined (d : database) (request_id : string)
  : list (data_request * string * string) :=
  flat_map (fun r =>
    flat_map (fun p =>
      map (fun c => (r, pt_name p, ic_company_name c))
          (filter (fun c => String.eqb (ic_company_id c) (dr_company_id r)) (insurance_companies d)))
      (filter (fun p => String.eqb (pt_patient_id p) (dr_patient_id r)) (patients d)))
    (filter (fun r => String.eqb (dr_request_id r) request_id) (data_requests d)).

(** [ORDER BY r.created_at DESC]: insertion into a list kept in
    descending order of creation time. *)
Fixpoint insert_desc (r : medical_record) (l : list medical_record) : list medical_record :=
  match l with
  | [] => [r]
  | x :: rest =>
      if rec_created_at x <? rec_created_at r then r :: l else x :: insert_desc r rest
  end.

Definition order_by_created_desc (l : list medical_record) : list medical_record :=
  fold_right insert_desc [] l.

Definition join_record (d : database) (r : medical_record) : list record_joined :=
  flat_map (fun p =>
    map (fun s => mkRecordJoined r (pt_name p) (st_first_name s ++ " " ++ st_last_name s)%string)
        (filter (fun s => String.eqb (st_staff_id s) (rec_doc_id r)) (staff d)))
    (filter (fun p => String.eqb (pt_patient_id p) (rec_patient_id r)) (patients d)).

Definition select_records (d : database) (patientId : option string) (limit offset : nat)
  : list record_joined :=
  firstn limit (skipn offset
    (flat_map (join_record d)
       (order_by_created_desc
          (filter (fun r => match patientId with
                            | Some p => String.eqb (rec_patient_id r) p
                            | None => true
                            end)
                  (records d))))).

(** The [LEFT JOIN]s of the statement (lab tests, prescriptions,
    medicines) add columns and neither drop nor repeat rows; their
    columns are left out of [record_joined]. *)
Definition select_approved_records (d : database) (patient_id request_id : string)
  : list record_joined :=
  flat_map (join_record d)
    (filter (fun r =>
               String.eqb (rec_patient_id r) patient_id
               && existsb (fun g => String.eqb (ar_request_id g) request_id
                                    && String.eqb (ar_record_id g) (rec_record_id r))
                          (approved_records d))
            (records d)).

Definition select_patient_of_allocation (d : database) (id : Z) : list (string * string) :=
  flat_map (fun p =>
    map (fun _ => (pt_name p, pt_email p))
        (filter (fun a => String.eqb (pt_patient_id p) (ia_patient_id a) && (ia_id a =? id))
                (insurance_allocations d)))
    (patients d).

Definition update_allocation (status : Z) (notes : option string) (id : Z) (a : allocation)
  : allocation :=
  if ia_id a =? id
  then mkAllocation (ia_id a) (ia_company_id a) (ia_patient_id a) status notes
  else a.

Definition update_data_request (status : Z) (notes : option string) (now : Z)
           (request_id : string) (r : data_request) : data_request :=
  if String.eqb (dr_request_id r) request_id
  then mkDataRequest (dr_request_id r) (dr_company_id r) (dr_patient_id r) (dr_purpose r)
                     (dr_date_range_start r) (dr_date_range_end r) status (dr_request_date r)
                     (dr_created_by r) (dr_request_details r) notes (Some now)
  else r.

Definition mysql (X : Type) (c : call X) (w : world) : X * world :=
  let d := db w in
  match c in call X return X * world with
  | SelectAllocationByIdCompany id company_id =>
      (Resolved (filter (fun a => (ia_id a =? id) && String.eqb (ia_company_id a) company_id)
                        (insurance_allocations d)), w)
  | SelectAllocationById id =>
      (Resolved (filter (fun a => ia_id a =? id) (insurance_allocations d)), w)
  | SelectAllocationJoined id =>
      (Resolved (select_allocation_joined d id), w)
  | SelectApprovedAllocation patient_id company_id =>
      (Resolved (filter (fun a => String.eqb (ia_patient_id a) patient_id
                                  && String.eqb (ia_company_id a) company_id
                                  && (ia_status a =? 1))
                        (insurance_allocations d)), w)
  | SelectAllocationsOfPatientOrCompany patient_id company_id =>
      (Resolved (filter (fun a => String.eqb (ia_patient_id a) patient_id
                                  || String.eqb (ia_company_id a) company_id)
                        (insurance_allocations d)), w)
  | UpdateAllocation status notes id =>
      (Resolved (mkHeader 0 (count (fun a => ia_id a =? id) (insurance_allocations d))),
       with_db w (set_insurance_allocations d
                    (map (update_allocation status notes id) (insurance_allocations d))))
  | InsertDataRequest request_id company_id patient_id purpose ds de created_by details =>
      if existsb (fun r => String.eqb (dr_request_id r) request_id) (data_requests d)
      then (Rejected (DbError "ER_DUP_ENTRY"), w)
      else if negb (existsb (fun c => String.eqb (ic_company_id c) company_id) (insurance_companies d))
              || negb (existsb (fun p => String.eqb (pt_patient_id p) patient_id) (patients d))
      then (Rejected (DbError "ER_NO_REFERENCED_ROW_2"), w)
      else
        (Resolved (mkHeader 0 1),
         with_db w (set_data_requests d
                      (data_requests d ++
                       [mkDataRequest request_id company_id patient_id purpose ds de 0 (clock w)
                                      created_by details None None])))
  | SelectDataRequestJoined request_id =>
      (Resolved (select_data_request_joined d request_id), w)
  | UpdateDataRequest status notes request_id =>
      (Resolved (mkHeader 0 (count (fun r => String.eqb (dr_request_id r) request_id)
                                   (data_requests d))),
       with_db w (set_data_requests d
                    (map (update_data_request status notes (clock w) request_id)
                         (data_requests d))))
  | SelectApprovedRequest request_id company_id =>
      (Resolved (filter (fun r => String.eqb (dr_request_id r) request_id
                                  && String.eqb (dr_company_id r) company_id
                                  && (dr_status r =? 1))
                        (data_requests d)), w)
  | InsertRecordRequest company_id patient_id details =>
      let id := next_id rr_id (record_requests d) in
      (Resolved (mkHeader id 1),
       with_db w (set_record_requests d
                    (record_requests d ++
                     [mkRecordRequest id company_id patient_id details "pending" (clock w)])))
  | SelectApprovedRecords patient_id request_id =>
      (Resolved (select_approved_records d patient_id request_id), w)
  | SelectRecords patientId limit offset =>
      (Resolved (select_records d patientId limit offset), w)
  | SelectCompanyName company_id =>
      (Resolved (map ic_company_name
                     (filter (fun c => String.eqb (ic_company_id c) company_id)
                             (insurance_companies d))), w)
  | SelectCompanyById company_id =>
      (Resolved (filter (fun c => String.eqb (ic_company_id c) company_id)
                        (insurance_companies d)), w)
  | SelectPatientOfAllocation id =>
      (Resolved (select_patient_of_allocation d id), w)
  | SelectPatientName patient_id =>
      (Resolved (map pt_name
                     (filter (fun p => String.eqb (pt_patient_id p) patient_id) (patients d))), w)
  | SelectAdmins =>
      (Resolved (filter (fun s => String.eqb (st_role s) "admin") (staff d)), w)
  | InsertAuditLog user_id action resource_type resource_id details =>
      let id := next_id al_id (audit_logs d) in
      (Resolved (mkHeader id 1),
       with_db w (set_audit_logs d
                    (audit_logs d ++
                     [mkAuditLog id user_id action resource_type resource_id details (clock w)])))
  | TransportSendMail to subject =>
      if mail_ok to then (Resolved tt, with_mail w to subject)
      else (Rejected (MailError "sendMail failed"), w)
  | DateNow => (clock w, w)
  end.
End Reference.

(** ** Running programs *)

Definition handler : Type := forall X : Type, call X -> world -> X * world.

(** A program run to completion: awaited calls are answered by [h]. *)
Fixpoint run {A} (h : handler) (p : js A) (w : world) : completion A * world :=
  match p with
  | Ret a => (Normal a, w)
  | Throw e => (Abrupt e, w)
  | Console l m k => run h k (with_console w l m)
  | Vis c k => let (x, w') := h _ c w in run h (k x) w'
  end.

(** One scheduling slot: the program runs up to and including its next
    awaited call, which the store answers atomically. *)
Fixpoint step {A} (h : handler) (p : js A) (w : world) : js A * world :=
  match p with
  | Ret _ | Throw _ => (p, w)
  | Console l m k => step h k (with_console w l m)
  | Vis c k => let (x, w') := h _ c w in (k x, w')
  end.

(** Two requests served concurrently: the schedule says which of the two
    takes each slot; when it ends, both run to completion in turn. *)
Fixpoint interleave {A} (h : handler) (schedule : list bool) (p q : js A) (w : world)
  : completion A * completion A * world :=
  match schedule with
  | [] =>
      let (r1, w1) := run h p w in
      let (r2, w2) := run h q w1 in
      (r1, r2, w2)
  | true :: rest => let (p', w') := step h p w in interleave h rest p' q w'
  | false :: rest => let (q', w') := step h q w in interleave h rest p q' w'
  end.

(** [n] calls of the same request one after the other, with their results. *)
Fixpoint repeat_run {A} (h : handler) (n : nat) (p : js A) (w : world)
  : list (completion A) * world :=
  match n with
  | O => ([], w)
  | S m =>
      let (r, w1) := run h p w in
      let (rs, w2) := repeat_run h m p w1 in
      (r :: rs, w2)
  end.

(** ** Small pieces of JavaScript *)

Inductive http_response (A : Type) : Type :=
| Json (status : Z) (data : A)      (* res.status(status).json(data) *)
| Next (err : js_error).            (* next(err) *)
Arguments Next {A} err.

(** [req.user] *)
Record user : Type := mkUser { user_id : string; user_name : string }.

(** [x || null] for an optional string: absent and empty both give [null]. *)
Definition or_null (x : option string) : option string :=
  match x with
  | Some s => if falsy s then None else Some s
  | None => None
  end.

Definition truthy (x : option string) : bool :=
  match or_null x with Some _ => true | None => false end.

Definition or_else (x : option string) (d : string) : string :=
  match or_null x with Some s => s | None => d end.

Definition lower_char (c : ascii) : ascii :=
  let n := N_of_ascii c in
  if ((65 <=? n) && (n <=? 90))%N then ascii_of_N (n + 32) else c.

Fixpoint toLowerCase (s : string) : string :=
  match s with
  | EmptyString => EmptyString
  | String c rest => String (lower_char c) (toLowerCase rest)
  end.

(** [n.toString()] and [s.slice(-k)] *)
Definition toString (n : Z) : string := NilZero.string_of_int (Z.to_int n).

Definition slice_last (k : nat) (s : string) : string :=
  substring (String.length s - k) k s.

(** [JSON.stringify] of a flat object with string values. *)
Definition dquote : string := String (ascii_of_nat 34) EmptyString.

Definition JSON_member (kv : string * string) : string :=
  (dquote ++ fst kv ++ dquote ++ ":" ++ dquote ++ snd kv ++ dquote)%string.

Fixpoint JSON_members (o : list (string * string)) : string :=
  match o with
  | [] => EmptyString
  | [kv] => JSON_member kv
  | kv :: rest => (JSON_member kv ++ "," ++ JSON_members rest)%string
  end.

Definition JSON_stringify (o : list (string * string)) : string :=
  ("{" ++ JSON_members o ++ "}")%string.

(** ** [services/audit.service.js] *)
Module AuditService.
Definition logAudit (userId action resourceType : string) (resourceId : ident)
           (details : list (string * string)) : js (option Z) :=
  try_catch
    (result <- await (InsertAuditLog userId action resourceType resourceId
                                     (JSON_stringify details)) ;;
     Ret (Some (insertId result)))
    (fun error => console_error "Audit logging error:" ;;; Ret None).
End AuditService.

(** ** [services/email.service.js] *)
Module EmailService.
Definition sendEmail (to subject : string) : js unit :=
  try_catch
    (await (TransportSendMail to subject) ;;;
     console_log "Email sent:" ;;;
     Ret tt)
    (fun error => console_error "Error sending email:" ;;; Throw error).

Definition sendNewRequestEmail (hospitalEmail : string) : js unit :=
  sendEmail hospitalEmail "New Medical Record Request".

Definition capitalize (s : string) : string :=
  match s with
  | EmptyString => EmptyString
  | String c rest =>
      let n := N_of_ascii c in
      String (if ((97 <=? n) && (n <=? 122))%N then ascii_of_N (n - 32) else c) rest
  end.

Definition sendDataRequestStatusUpdateEmail (insuranceEmail status : string) : js unit :=
  sendEmail insuranceEmail ("Medical Record Request " ++ capitalize status)%string.

Definition sendConnectionStatusUpdateEmail (adminEmail status : string) : js unit :=
  try_catch
    (sendEmail adminEmail
       (if String.eqb status "approved" then "Insurance Connection Approved"
        else "Insurance Connection Rejected"))
    (fun error => console_error "Email sending failed:" ;;; Throw error).

(** Resolves to [false] instead of rejecting. *)
Definition sendDataRequestNotificationEmail (email : string) : js bool :=
  try_catch
    (sendEmail email "New Data Access Request" ;;; Ret true)
    (fun error => console_error "Email sending failed:" ;;; Ret false).
End EmailService.

(** ** [models/insurance.model.js] *)
Module InsuranceModel.
(** The decryption of the company's sensitive columns, which are not
    among the modelled ones, is left out. *)
Definition getInsuranceById (id : string) : js (option insurance_company) :=
  rows <- await (SelectCompanyById id) ;;
  match rows with
  | [] => Ret None
  | insurance :: _ => Ret (Some insurance)
  end.
End InsuranceModel.

(** ** [models/insuranceAllocation.model.js] *)
Module InsuranceAllocationModel.
Definition formatStatus (status : Z) : string :=
  match status with
  | 0 => "pending"
  | 1 => "approved"
  | 2 => "rejected"
  | _ => "unknown"
  end.

Definition parseStatus (status : string) : Z :=
  let s := toLowerCase status in
  if String.eqb s "pending" then 0
  else if String.eqb s "approved" then 1
  else if String.eqb s "rejected" then 2
  else 0.

(** The joined row with its status formatted. *)
Record allocation_view : Type := mkAllocationView
  { av_allocation : allocation; av_patient_name : string;
    av_company_name : string; av_status : string }.

Definition getAllocationById (id : Z) : js (option allocation_view) :=
  rows <- await (SelectAllocationJoined id) ;;
  match rows with
  | [] => Ret None
  | (a, patient_name, company_name) :: _ =>
      Ret (Some (mkAllocationView a patient_name company_name (formatStatus (ia_status a))))
  end.

Definition updateAllocationStatus (id : Z) (status : Z) (notes : option string)
  : js (option allocation_view) :=
  (* Get current allocation data *)
  rows <- await (SelectAllocationById id) ;;
  match rows with
  | [] => Throw (Error "Insurance allocation not found")
  | row0 :: _ =>
      (* Update the status *)
      await (UpdateAllocation status
               (if truthy notes then notes else ia_notes row0) id) ;;;
      (* Get the updated allocation *)
      getAllocationById id
  end.
End InsuranceAllocationModel.

(** ** [models/dataRequest.model.js] *)
Module DataRequestModel.
Definition formatStatus (status : Z) : string :=
  match status with
  | 0 => "pending"
  | 1 => "approved"
  | 2 => "rejected"
  | _ => "unknown"
  end.

Definition parseStatus (status : string) : Z :=
  let s := toLowerCase status in
  if String.eqb s "pending" then 0
  else if String.eqb s "approved" then 1
  else if String.eqb s "rejected" then 2
  else 0.

Record request_view : Type := mkRequestView
  { rv_request : data_request; rv_patient_name : string;
    rv_company_name : string; rv_status : string }.

Record requestData : Type := mkRequestData
  { rd_company_id : string; rd_patient_id : string; rd_purpose : string;
    rd_date_range_start : option string; rd_date_range_end : option string;
    rd_created_by : string; rd_request_details : list (string * string) }.

Definition getDataRequestById (id : string) : js (option request_view) :=
  rows <- await (SelectDataRequestJoined id) ;;
  match rows with
  | [] => Ret None
  | (r, patient_name, company_name) :: _ =>
      Ret (Some (mkRequestView r patient_name company_name (formatStatus (dr_status r))))
  end.

Definition createDataRequest (d : requestData) : js (option request_view) :=
  (* Generate request ID *)
  now <- Vis DateNow Ret ;;
  let request_id := ("REQ" ++ slice_last 6 (toString now))%string in
  (* Insert the new request *)
  await (InsertDataRequest request_id (rd_company_id d) (rd_patient_id d) (rd_purpose d)
           (or_null (rd_date_range_start d)) (or_null (rd_date_range_end d))
           (rd_created_by d) (JSON_stringify (rd_request_details d))) ;;;
  (* Get the created request *)
  getDataRequestById request_id.

Definition updateDataRequestStatus (id : string) (status : Z) (notes : option string)
  : js (option request_view) :=
  (* Get current request data *)
  request <- getDataRequestById id ;;
  match request with
  | None => Throw (Error "Data request not found")
  | Some request =>
      (* Update the status *)
      await (UpdateDataRequest status (or_null notes) id) ;;;
      (* Get the updated request *)
      updatedRequest <- getDataRequestById id ;;
      (* Send email notification *)
      try_catch
        (company <- InsuranceModel.getInsuranceById (dr_company_id (rv_request request)) ;;
         let statusText := formatStatus status in
         match company with
         | Some c => EmailService.sendDataRequestStatusUpdateEmail (ic_email c) statusText
         | None => Ret tt
         end)
        (fun emailError => console_error "Failed to send status update email:") ;;;
      Ret updatedRequest
  end.
End DataRequestModel.

(** ** [controllers/insurance.controller.js] *)
Module InsuranceController.
Import AuditService.

Definition updateConnectionStatus (allocationId : Z) (status : string) (notes : option string)
           (u : user) : js (http_response string) :=
  try_catch
    (let insuranceId := user_id u in
     (* Check if the allocation exists and belongs to this insurance company *)
     allocation <- await (SelectAllocationByIdCompany allocationId insuranceId) ;;
     match allocation with
     | [] => Ret (Next (AppError "Connection request not found" 404))
     | _ :: _ =>
         (* Convert status string to numeric value for database *)
         let statusValue := if String.eqb status "approved" then 1 else 2 in
         (* Update the status *)
         await (UpdateAllocation statusValue (or_null notes) allocationId) ;;;
         (* Log the action *)
         logAudit (user_id u) "update" "insurance_allocation" (IdNum allocationId)
                  [("status", status); ("notes", or_else notes EmptyString)] ;;;
         companyResult <- await (SelectCompanyName insuranceId) ;;
         patientResult <- await (SelectPatientOfAllocation allocationId) ;;
         admins <- await SelectAdmins ;;
         (* Send notifications *)
         match patientResult, companyResult with
         | (patientName, patientEmail) :: _, companyName :: _ =>
             (if String.eqb status "approved" then
                try_catch
                  (EmailService.sendEmail patientEmail "Insurance Connection Approved")
                  (fun emailError => console_error "Failed to send approval email to patient:")
              else Ret tt) ;;;
             match admins with
             | [] => Ret tt
             | _ :: _ =>
                 try_catch
                   (for_of admins (fun admin =>
                      EmailService.sendConnectionStatusUpdateEmail (st_email admin) status))
                   (fun emailError => console_error "Failed to send notification to admins:")
             end
         | _, _ => Ret tt
         end ;;;
         Ret (Json 200
                ("Connection " ++ (if String.eqb status "approved" then "approved" else "rejected")
                 ++ " successfully")%string)
     end)
    (fun error => Ret (Next error)).

Definition requestMedicalRecords (patientId : string) (requestDetails : list (string * string))
           (u : user) : js (http_response Z) :=
  try_catch
    (let insuranceId := user_id u in
     console_log "Request details:" ;;;
     (* Check if patient is connected to this insurance company *)
     connection <- await (SelectApprovedAllocation patientId insuranceId) ;;
     console_log "Connection:" ;;;
     match connection with
     | [] => Ret (Next (AppError "Patient is not connected to your insurance company" 403))
     | _ :: _ =>
         (* Create the request *)
         result <- await (InsertRecordRequest insuranceId patientId
                                              (JSON_stringify requestDetails)) ;;
         let requestId := insertId result in
         (* Log the action *)
         logAudit (user_id u) "create" "record_request" (IdNum requestId)
                  [("patient_id", patientId)] ;;;
         (* Get hospital admin emails for notification *)
         admins <- await SelectAdmins ;;
         (* Get patient name *)
         patientResult <- await (SelectPatientName patientId) ;;
         match admins, patientResult with
         | _ :: _, _ :: _ =>
             try_catch
               (for_of admins (fun admin =>
                  EmailService.sendNewRequestEmail (st_email admin)))
               (fun emailError => console_error "Failed to send request notification:")
         | _, _ => Ret tt
         end ;;;
         Ret (Json 201 requestId)
     end)
    (fun error => Ret (Next error)).

Definition getApprovedRecords (requestId : string) (u : user)
  : js (http_response (data_request * list record_joined)) :=
  try_catch
    (let insuranceId := user_id u in
     (* Check if the request exists and belongs to this insurance company *)
     request <- await (SelectApprovedRequest requestId insuranceId) ;;
     match request with
     | [] => Ret (Next (AppError "Approved request not found" 404))
     | request0 :: _ =>
         (* Get the approved records *)
         records <- await (SelectApprovedRecords (dr_patient_id request0) requestId) ;;
         console_log "Found approved records" ;;;
         (* Log the access *)
         logAudit (user_id u) "view" "approved_records" (IdStr requestId)
                  [("count", toString (Z.of_nat (List.length records)))] ;;;
         Ret (Json 200 (request0, records))
     end)
    (fun error =>
       console_error "Error getting approved records:" ;;;
       Ret (Next error)).

(** [req.body] of [createDataRequest] *)
Record createDataRequestBody : Type := mkBody
  { patient_id : string; purpose : string;
    date_range_start : option string; date_range_end : option string;
    request_details : list (string * string) }.

Definition createDataRequest (body : createDataRequestBody) (u : user)
  : js (http_response (option DataRequestModel.request_view)) :=
  try_catch
    (let insuranceId := user_id u in
     if falsy (patient_id body) then Ret (Next (AppError "Patient ID is required" 400))
     else
       (* Check if patient is connected to this insurance company *)
       connection <- await (SelectApprovedAllocation (patient_id body) insuranceId) ;;
       (* TEMPORARY for testing *)
       let validateConnection := true in
       match validateConnection, connection with
       | true, [] =>
           allConnections <- await (SelectAllocationsOfPatientOrCompany
                                      (patient_id body) insuranceId) ;;
           console_log "Available connections:" ;;;
           Ret (Next (AppError "Patient is not connected to your insurance company" 403))
       | _, _ =>
           (* Create a new data request *)
           let requestData :=
             DataRequestModel.mkRequestData insuranceId (patient_id body) (purpose body)
               (date_range_start body) (date_range_end body) (user_id u)
               (request_details body) in
           console_log "Creating data request with:" ;;;
           newRequest <- DataRequestModel.createDataRequest requestData ;;
           match newRequest with
           | None => Throw (TypeError "Cannot read properties of null (reading 'request_id')")
           | Some created =>
               (* Log the action *)
               logAudit (user_id u) "create" "data_request"
                        (IdStr (dr_request_id (DataRequestModel.rv_request created)))
                        [("purpose", purpose body)] ;;;
               (* Get hospital admin emails for notification *)
               admins <- await SelectAdmins ;;
               (* Get patient name *)
               patientResult <- await (SelectPatientName (patient_id body)) ;;
               match admins, patientResult with
               | _ :: _, _ :: _ =>
                   try_catch
                     (for_of admins (fun admin =>
                        EmailService.sendDataRequestNotificationEmail (st_email admin) ;;;
                        Ret tt))
                     (fun emailError =>
                        console_error "Failed to send data request notification:")
               | _, _ => Ret tt
               end ;;;
               Ret (Json 201 newRequest)
           end
       end)
    (fun error =>
       console_error "Create data request error:" ;;;
       Ret (Next error)).
End InsuranceController.

(** ** [controllers/data-request.controller.js] *)
Module DataRequestController.
Import AuditService.

(** [requestData = { ...req.body, created_by: req.user.id }] *)
Definition createDataRequest (body : DataRequestModel.requestData) (u : user)
  : js (http_response (option DataRequestModel.request_view)) :=
  try_catch
    (let requestData :=
       DataRequestModel.mkRequestData
         (DataRequestModel.rd_company_id body) (DataRequestModel.rd_patient_id body)
         (DataRequestModel.rd_purpose body) (DataRequestModel.rd_date_range_start body)
         (DataRequestModel.rd_date_range_end body) (user_id u)
         (DataRequestModel.rd_request_details body) in
     newRequest <- DataRequestModel.createDataRequest requestData ;;
     match newRequest with
     | None => Throw (TypeError "Cannot read properties of null (reading 'request_id')")
     | Some created =>
         (* Log the action *)
         logAudit (user_id u) "create" "data_request"
                  (IdStr (dr_request_id (DataRequestModel.rv_request created)))
                  [("patient_id", dr_patient_id (DataRequestModel.rv_request created));
                   ("company_id", dr_company_id (DataRequestModel.rv_request created))] ;;;
         Ret (Json 201 newRequest)
     end)
    (fun error => Ret (Next error)).

Definition approveDataRequest (id : string) (notes : option string) (u : user)
  : js (http_response (option DataRequestModel.request_view)) :=
  try_catch
    (updatedRequest <- DataRequestModel.updateDataRequestStatus
                         id (DataRequestModel.parseStatus "approved") notes ;;
     (* Log the action *)
     logAudit (user_id u) "approve" "data_request" (IdStr id)
              [("notes", or_else notes EmptyString)] ;;;
     Ret (Json 200 updatedRequest))
    (fun error => Ret (Next error)).

Definition rejectDataRequest (id : string) (notes : option string) (u : user)
  : js (http_response (option DataRequestModel.request_view)) :=
  try_catch
    (if negb (truthy notes) then Ret (Next (AppError "Rejection reason is required" 400))
     else
       updatedRequest <- DataRequestModel.updateDataRequestStatus
                           id (DataRequestModel.parseStatus "rejected") notes ;;
       (* Log the action *)
       logAudit (user_id u) "reject" "data_request" (IdStr id)
                [("notes", or_else notes EmptyString)] ;;;
       Ret (Json 200 updatedRequest))
    (fun error => Ret (Next error)).
End DataRequestController.

(** ** [controllers/admin.controller.js] *)
Module AdminController.
Import AuditService.

Definition updateInsuranceAllocationStatus (id : Z) (status : string) (notes : option string)
           (u : user) : js (http_response (option InsuranceAllocationModel.allocation_view)) :=
  try_catch
    ((* Convert status string to number *)
     let statusNumber := InsuranceAllocationModel.parseStatus status in
     updatedAllocation <- InsuranceAllocationModel.updateAllocationStatus id statusNumber notes ;;
     (* Log the action *)
     logAudit (user_id u) "update_status" "insurance_allocation" (IdNum id)
              [("status", status)] ;;;
     Ret (Json 200 updatedAllocation))
    (fun error => Ret (Next error)).

(** The admin controller carries its own copies of the two review
    handlers, with the same text as those of the data-request controller. *)
Definition approveDataRequest := DataRequestController.approveDataRequest.
Definition rejectDataRequest := DataRequestController.rejectDataRequest.
End AdminController.

(** ** [models/record.model.js]: the list query *)
Fixpoint map_js {A B} (f : A -> js B) (l : list A) : js (list B) :=
  match l with
  | [] => Ret []
  | x :: rest => y <- f x ;; ys <- map_js f rest ;; Ret (y :: ys)
  end.

Module RecordModel.
Section WithCipher.
Variable aes_encrypt_block aes_decrypt_block : Buffer -> Buffer -> Buffer.
Variable ENCRYPTION_DISABLED : bool.
Variable key iv : Buffer.

(** The callback of [rows.map]: the description is decrypted when it is
    present and likely ciphertext. *)
Definition decryptRow (row : record_joined) : js record_joined :=
  match rec_description (rj_record row) with
  | Some description =>
      shown <- readSensitive aes_decrypt_block call ENCRYPTION_DISABLED key iv description ;;
      let r := rj_record row in
      Ret (mkRecordJoined
             (mkMedicalRecord (rec_record_id r) (rec_patient_id r) (rec_doc_id r)
                              (Some shown) (rec_created_at r))
             (rj_patient_name row) (rj_doctor_name row))
  | None => Ret row
  end.

Definition getAllRecords (patientId : option string) (limit offset : nat)
  : js (list record_joined) :=
  rows <- await (SelectRecords (or_null patientId) limit offset) ;;
  (* Decrypt sensitive fields *)
  map_js decryptRow rows.
End WithCipher.
End RecordModel.

(** ** Invariants of running programs

    [preserves h I Q p]: whatever world satisfying [I] the program [p]
    meets at each of its awaited calls, the call keeps [I], the program
    never throws, and its result satisfies [Q]. *)
Fixpoint preserves {A} (h : handler) (I : world -> Prop) (Q : A -> Prop) (p : js A) : Prop :=
  match p with
  | Ret a => Q a
  | Throw _ => False
  | Console _ _ k => preserves h I Q k
  | Vis c k =>
      forall w, I w -> I (snd (h _ c w)) /\ preserves h I Q (k (fst (h _ c w)))
  end.

(** The tables the approved-records read path looks at. *)
Definition same_disclosure_tables (d0 : database) (w : world) : Prop :=
  data_requests (db w) = data_requests d0 /\
  approved_records (db w) = approved_records d0 /\
  records (db w) = records d0 /\
  patients (db w) = patients d0 /\
  staff (db w) = staff d0.

(** The grants of a world given other expiry dates, and the clock another
    time. *)
Definition redate (expiry : approved_record -> option Z) (now : Z) (w : world) : world :=
  mkWorld
    (mkDatabase (insurance_allocations (db w)) (data_requests (db w)) (record_requests (db w))
       (map (fun g => mkApprovedRecord (ar_id g) (ar_request_id g) (ar_record_id g)
                        (ar_approved_by g) (expiry g) (ar_access_count g)
                        (ar_max_access_count g))
            (approved_records (db w)))
       (records (db w)) (patients (db w)) (insurance_companies (db w)) (staff (db w))
       (audit_logs (db w)))
    (console w) (outbox w) now.

(** The calls that leave every table as it is: the [SELECT]s, the mail
    transport and the clock. *)
Definition is_readonly_call {X} (c : call X) : bool :=
  match c with
  | UpdateAllocation _ _ _ | InsertDataRequest _ _ _ _ _ _ _ _
  | UpdateDataRequest _ _ _ | InsertRecordRequest _ _ _
  | InsertAuditLog _ _ _ _ _ => false
  | _ => true
  end.

(** A program all of whose awaited calls are of that kind. *)
Fixpoint readonly {A} (p : js A) : Prop :=
  match p with
  | Ret _ | Throw _ => True
  | Console _ _ k => readonly k
  | Vis c k => is_readonly_call c = true /\ forall x, readonly (k x)
  end.

(** [harmless p]: the block completes normally and leaves the tables as
    they were. *)
Definition harmless (mail_ok : string -> bool) (p : js unit) : Prop :=
  forall w, exists w', run (mysql mail_ok) p w = (Normal tt, w') /\ db w' = db w.

(** A store whose audit table is down: every insertion into [audit_logs]
    is rejected, every other call is answered as by [mysql]. *)
Definition mysql_audit_down (mail_ok : string -> bool) : handler :=
  fun X (c : call X) (w : world) =>
    match c in call X return X * world with
    | InsertAuditLog _ _ _ _ _ => (Rejected (DbError "ER_NO_SUCH_TABLE"), w)
    | c' => mysql mail_ok c' w
    end.

(** When [createDecipheriv], [decipher.update] or [decipher.final] throws
    on a stored value. *)
Definition decipher_fails (aes_decrypt_block : Buffer -> Buffer -> Buffer)
           (key iv : Buffer) (stored : string) : Prop :=
  List.length key <> 32%nat \/ List.length iv <> 16%nat \/
  Nat.odd (String.length stored) = true \/
  cbc_decrypt aes_decrypt_block key iv (Buffer_from_hex stored) = None.

(** [row_shown row row']: [row'] is the row [row] as [getAllRecords] hands
    it out: the same columns, the description, when there is one, being the
    value the guarded read returns for the stored one, which is the stored
    value itself when [isLikelyEncrypted] rejects it. *)
Definition row_shown (aes_decrypt_block : Buffer -> Buffer -> Buffer) (disabled : bool)
           (key iv : Buffer) (row row' : record_joined) : Prop :=
  rj_patient_name row' = rj_patient_name row /\
  rj_doctor_name row' = rj_doctor_name row /\
  rec_record_id (rj_record row') = rec_record_id (rj_record row) /\
  rec_patient_id (rj_record row') = rec_patient_id (rj_record row) /\
  rec_doc_id (rj_record row') = rec_doc_id (rj_record row) /\
  rec_created_at (rj_record row') = rec_created_at (rj_record row) /\
  match rec_description (rj_record row) with
  | None => rec_description (rj_record row') = None
  | Some stored =>
      exists shown,
        rec_description (rj_record row') = Some shown /\
        (forall (h : handler) (w : world),
            fst (run h (readSensitive aes_decrypt_block call disabled key iv stored) w)
              = Normal shown) /\
        (isLikelyEncrypted stored = false -> shown = stored)
  end.

(** The contract of the block permutation under a 32-byte key. *)
Definition block_cipher_contract (enc dec : Buffer -> Buffer -> Buffer) : Prop :=
  forall k b, List.length k = 32%nat -> List.length b = 16%nat ->
              List.length (enc k b) = 16%nat /\ dec k (enc k b) = b.

(** ** A sample hospital *)
Module Sample.
Definition insurer : user := mkUser "IN001" "Ceylinco Health".
Definition admin : user := mkUser "ST001" "Nimal Silva".

Definition approved_request : data_request :=
  mkDataRequest "REQ000001" "IN001" "PT001" "claim_verification" None None 1 900
                "IN001" "{}" None None.

Definition rejected_request : data_request :=
  mkDataRequest "REQ000002" "IN001" "PT001" "policy_renewal" None None 2 910
                "IN001" "{}" (Some "insufficient justification") (Some 950).

(** One grant: a single access, expired long before the clock of the
    sample world. *)
Definition grant : approved_record :=
  mkApprovedRecord 1 "REQ000001" "REC001" "ST001" (Some 100) 0 1.

Definition sample_db : database :=
  mkDatabase
    [ mkAllocation 1 "IN001" "PT001" 1 None;
      mkAllocation 2 "IN001" "PT002" 0 (Some "awaiting insurer") ]
    [ approved_request; rejected_request ]
    []
    [ grant ]
    [ mkMedicalRecord "REC001" "PT001" "ST002" (Some "fever, prescribed rest") 800 ]
    [ mkPatient "PT001" "Kamal Perera" "kamal@example.com";
      mkPatient "PT002" "Sunil Fernando" "sunil@example.com" ]
    [ mkCompany "IN001" "Ceylinco Health" "claims@ceylinco.example" ]
    [ mkStaff "ST001" "Nimal" "Silva" "nimal@hospital.example" "admin";
      mkStaff "ST002" "Anula" "Dias" "anula@hospital.example" "doctor" ]
    [].

Definition sample_world : world := mkWorld sample_db [] [] 1730419000123.

(** The same store holding a request that was submitted one thousand
    seconds before the clock of the sample world: the last six digits of
    the two times in milliseconds are the same. *)
Definition earlier_request : data_request :=
  mkDataRequest "REQ000123" "IN001" "PT001" "policy_update" None None 0 1730418000123
                "IN001" "{}" None None.

Definition busy_world : world :=
  mkWorld (set_data_requests sample_db (data_requests sample_db ++ [earlier_request]))
          [] [] 1730419000123.

Definition mail_up (to : string) : bool := true.

(** A legacy plaintext that happens to be a short hexadecimal word, and a
    ciphertext cut short by one byte too many. *)
Definition short_hex : string := "cafe".
Definition corrupt_ciphertext : string := "00112233445566778899aabbccddeeff00".
End Sample.

(** * Further parts of the back end *)

(** ** [utils/error.utils.js] and [middleware/error.middleware.js] *)

(** [s.startsWith(p)] *)
Fixpoint startsWith (p s : string) : bool :=
  match p, s with
  | EmptyString, _ => true
  | String a p', String b s' => Ascii.eqb a b && startsWith p' s'
  | String _ _, EmptyString => false
  end.

(** The [status] field the [AppError] constructor derives from the status
    code. *)
Definition AppError_status (statusCode : Z) : string :=
  if startsWith "4" (toString statusCode) then "fail" else "error".

(** The fields of a thrown value that the error middleware reads. *)
Record thrown : Type := mkThrown
  { err_code : option string; err_errno : bool; err_name : string;
    err_isOperational : bool; err_statusCode : Z; err_status : string;
    err_message : string }.

(** How the errors of this development look to the middleware: an
    [AppError] is operational and carries its code and status; a rejection
    of the store carries the driver's [code] and [errno]. *)
Definition thrown_of (e : js_error) : thrown :=
  match e with
  | AppError message statusCode =>
      mkThrown None false "Error" true statusCode (AppError_status statusCode) message
  | Error message => mkThrown None false "Error" false 0 EmptyString message
  | TypeError message => mkThrown None false "TypeError" false 0 EmptyString message
  | DbError code => mkThrown (Some code) true "Error" false 0 EmptyString code
  | CryptoError message => mkThrown None false "Error" false 0 EmptyString message
  | MailError message => mkThrown None false "Error" false 0 EmptyString message
  end.

Definition handleDatabaseError (err : thrown) : js_error :=
  match err_code err with
  | Some code =>
      if String.eqb code "ER_DUP_ENTRY"
      then AppError "Duplicate entry. This record already exists." 409
      else if String.eqb code "ER_NO_REFERENCED_ROW"
      then AppError "Invalid reference. The referenced record does not exist." 400
      else AppError "Database error occurred. Please try again later." 500
  | None => AppError "Database error occurred. Please try again later." 500
  end.

(** What the client receives: [res.status(code).json({ status, message })]. *)
Record error_response : Type := mkErrorResponse
  { http_status : Z; body_status : string; body_message : string }.

(** [errorHandler]; [production] is [process.env.NODE_ENV === 'production'].
    The line it writes to the console is left out. *)
Definition errorHandler (production : bool) (err : thrown) : error_response :=
  if match err_code err with
     | Some code => negb (falsy code) && (startsWith "ER_" code || err_errno err)
     | None => false
     end
  then
    match handleDatabaseError err with
    | AppError message statusCode =>
        mkErrorResponse statusCode (AppError_status statusCode) message
    | _ => mkErrorResponse 500 "error" EmptyString
    end
  else if String.eqb (err_name err) "JsonWebTokenError"
  then mkErrorResponse 401 "error" "Invalid token. Please log in again."
  else if String.eqb (err_name err) "TokenExpiredError"
  then mkErrorResponse 401 "error" "Your token has expired. Please log in again."
  else if err_isOperational err
  then mkErrorResponse (err_statusCode err) (err_status err) (err_message err)
  else
    mkErrorResponse 500 "error"
      (if production then "Something went wrong!"
       else if falsy (err_message err) then "Unknown error occurred" else err_message err).

(** The status code a client sees for the completion of a handler: the
    handler's own answer, or the error middleware's answer to the error
    handed to [next]. *)
Definition client_status {A} (production : bool) (c : completion (http_response A)) : Z :=
  match c with
  | Normal (Json status _) => status
  | Normal (Next err) => http_status (errorHandler production (thrown_of err))
  | Abrupt err => http_status (errorHandler production (thrown_of err))
  end.

(** ** [middleware/roleCheck.middleware.js] *)

(** [s.includes(sub)] on strings: [sub] occurs somewhere in [s]. *)
Fixpoint includes_string (s sub : string) : bool :=
  startsWith sub s ||
  match s with
  | EmptyString => false
  | String _ rest => includes_string rest sub
  end.

(** The argument of [checkRole] as the routers pass it: an array of roles,
    or a single string. *)
Inductive roles_argument : Type :=
| RolesArray (roles : list string)
| RolesString (roles : string).

(** [allowedRoles.includes(role)]: membership for an array, occurrence for
    a string. *)
Definition includes (allowedRoles : roles_argument) (role : string) : bool :=
  match allowedRoles with
  | RolesArray roles => existsb (String.eqb role) roles
  | RolesString roles => includes_string roles role
  end.

(** [req.user] as the authentication middleware attaches it. *)
Record req_user : Type := mkReqUser
  { ru_id : string; ru_email : string; ru_role : string; ru_name : string }.

(** The outcome of a middleware: [next()] or [next(err)]. *)
Inductive passage : Type :=
| Proceed
| Refuse (err : js_error).

Definition checkRole (allowedRoles : roles_argument) (u : option req_user) : passage :=
  match u with
  | None => Refuse (AppError "Authentication required" 401)
  | Some u =>
      if negb (includes allowedRoles (ru_role u))
      then Refuse (AppError "You do not have permission to perform this action" 403)
      else Proceed
  end.

(** The gates as the routers mount them.  [insurance.routes.js] calls
    [checkRole('insurance', 'admin')]: the function has one parameter, so
    the second argument is dropped and the first, a string, is the list.
    the router of the doctors calls [checkRole('doctor', 'admin')] the same way;
    [admin.routes.js] calls [checkRole('admin')]; [record.routes.js] calls
    [checkRole(['admin', 'doctor'])]. *)
Definition insurance_routes_gate : option req_user -> passage :=
  checkRole (RolesString "insurance").

Definition doctor_routes_gate : option req_user -> passage :=
  checkRole (RolesString "doctor").

Definition admin_routes_gate : option req_user -> passage :=
  checkRole (RolesString "admin").

Definition record_routes_gate : option req_user -> passage :=
  checkRole (RolesArray ["admin"; "doctor"]).

(** ** [middleware/auth.middleware.js]: [authenticate] *)

(** [s.split(' ')] *)
Fixpoint split_space_from (current : string) (s : string) : list string :=
  match s with
  | EmptyString => [current]
  | String c rest =>
      if Ascii.eqb c " "%char then current :: split_space_from EmptyString rest
      else split_space_from (current ++ String c EmptyString)%string rest
  end.

Definition split_space (s : string) : list string := split_space_from EmptyString s.

(** The payload [verifyToken] decodes; absent fields are [None]. *)
Record decoded_token : Type := mkDecoded
  { tok_id : option string; tok_email : string; tok_role : option string; tok_name : string }.

(** What [authenticate] leaves behind: the user attached to the request
    and [next()], or [next(err)].  The line the [catch] writes to the
    console is left out. *)
Inductive authentication : Type :=
| Authenticated (u : req_user)
| Unauthenticated (err : js_error).

Section Authenticate.
(** [verifyToken] of [utils/jwt.utils.js]: it returns the payload, returns
    nothing, or throws. *)
Variable verifyToken : string -> completion (option decoded_token).

Definition authenticate (authorization : option string) : authentication :=
  match authorization with
  | None => Unauthenticated (AppError "No authentication token provided" 401)
  | Some authHeader =>
      if falsy authHeader || negb (startsWith "Bearer " authHeader)
      then Unauthenticated (AppError "No authentication token provided" 401)
      else
        match nth_error (split_space authHeader) 1 with
        | None => Unauthenticated (AppError "No authentication token provided" 401)
        | Some token =>
            if falsy token
            then Unauthenticated (AppError "No authentication token provided" 401)
            else
              match verifyToken token with
              | Abrupt error =>
                  Unauthenticated (AppError "Authentication failed. Please log in again." 401)
              | Normal None => Unauthenticated (AppError "Invalid authentication token" 401)
              | Normal (Some decoded) =>
                  match or_null (tok_id decoded) with
                  | None => Unauthenticated (AppError "Invalid authentication token" 401)
                  | Some id =>
                      Authenticated
                        (mkReqUser id (tok_email decoded) (or_else (tok_role decoded) "user")
                                   (tok_name decoded))
                  end
              end
        end
  end.
End Authenticate.

(** ** More handlers of the controllers *)

Module InsuranceControllerReads.
Import AuditService.

(** [getDataRequestById] of [controllers/insurance.controller.js] *)
Definition getDataRequestById (id : string) (u : user)
  : js (http_response DataRequestModel.request_view) :=
  try_catch
    (let insuranceId := user_id u in
     request <- DataRequestModel.getDataRequestById id ;;
     match request with
     | None => Ret (Next (AppError "Data request not found" 404))
     | Some request =>
         (* Check if the request belongs to this insurance company *)
         if negb (String.eqb (dr_company_id (DataRequestModel.rv_request request)) insuranceId)
         then Ret (Next (AppError "You do not have permission to access this data request" 403))
         else
           (* Log access *)
           logAudit (user_id u) "view" "data_request" (IdStr id) [] ;;;
           Ret (Json 200 request)
     end)
    (fun error => Ret (Next error)).
End InsuranceControllerReads.

Module AdminControllerReads.

(** [getDataRequestById] of [controllers/admin.controller.js] (and of
    [controllers/data-request.controller.js], with the same text) *)
Definition getDataRequestById (id : string)
  : js (http_response DataRequestModel.request_view) :=
  try_catch
    (request <- DataRequestModel.getDataRequestById id ;;
     match request with
     | None => Ret (Next (AppError "Data request not found" 404))
     | Some request => Ret (Json 200 request)
     end)
    (fun error => Ret (Next error)).
End AdminControllerReads.

(** A [verifyToken] for the examples: one token is valid and carries no
    role, every other one is rejected by the library. *)
Module SampleAuth.
Definition payload : decoded_token :=
  mkDecoded (Some "INS001") "claims@insurer.example" None "Insurer".

Definition verifyToken (token : string) : completion (option decoded_token) :=
  if String.eqb token "header.payload.signature" then Normal (Some payload)
  else Abrupt (Error "jwt malformed").
End SampleAuth.

(** ** Notifications *)

(** The longest prefix of a list whose elements all satisfy [f]: the
    elements a loop has dealt with when it is left at the first element
    that fails. *)
Fixpoint take_while {A} (f : A -> bool) (l : list A) : list A :=
  match l with
  | [] => []
  | x :: rest => if f x then x :: take_while f rest else []
  end.

(** The sample hospital with three administrators, the second of whom
    cannot be reached by mail. *)
Module SampleWard.
Definition ward_db : database :=
  mkDatabase
    (insurance_allocations Sample.sample_db) (data_requests Sample.sample_db)
    (record_requests Sample.sample_db) (approved_records Sample.sample_db)
    (records Sample.sample_db) (patients Sample.sample_db)
    (insurance_companies Sample.sample_db)
    [ mkStaff "ST001" "Nimal" "Silva" "nimal@hospital.example" "admin";
      mkStaff "ST003" "Ruwan" "Perera" "ruwan@hospital.example" "admin";
      mkStaff "ST004" "Dilani" "Jayasuriya" "dilani@hospital.example" "admin";
      mkStaff "ST002" "Anula" "Dias" "anula@hospital.example" "doctor" ]
    [].

Definition ward_world : world := mkWorld ward_db [] [] 1730419000123.

Definition mail_flaky (to : string) : bool :=
  negb (String.eqb to "ruwan@hospital.example").
End SampleWard.

(** * Properties *)

(** ** Program trees *)

(** ** Hex encoding *)

Lemma hex_byte_roundtrip (x : byte) :
  hex_value (hex_digit (Byte.to_N x / 16)) = Some (Byte.to_N x / 16)%N /\
  hex_value (hex_digit (Byte.to_N x mod 16)) = Some (Byte.to_N x mod 16)%N /\
  byte_of_nibbles (Byte.to_N x / 16) (Byte.to_N x mod 16) = x.
Proof. destruct x; vm_compute; auto. Qed.

Lemma Buffer_from_hex_toString_hex (b : Buffer) :
  Buffer_from_hex (toString_hex b) = b.
Proof.
  induction b as [| x rest IH]; simpl; [reflexivity |].
  destruct (hex_byte_roundtrip x) as (Hh & Hl & Hb).
  rewrite Hh, Hl, Hb, IH; reflexivity.
Qed.

Lemma all_hex_toString_hex (b : Buffer) :
  all_chars is_hex_char (toString_hex b) = true.
Proof.
  induction b as [| x rest IH]; simpl; [reflexivity |].
  destruct (hex_byte_roundtrip x) as (Hh & Hl & _).
  rewrite IH; unfold is_hex_char; rewrite Hh, Hl; reflexivity.
Qed.

Lemma length_toString_hex (b : Buffer) :
  String.length (toString_hex b) = (2 * List.length b)%nat.
Proof. induction b as [| x rest IH]; simpl; [reflexivity | rewrite IH; lia]. Qed.

Lemma length_Buffer_from_hex (s : string) :
  (2 * List.length (Buffer_from_hex s) <= String.length s)%nat.
Proof.
  enough (H : (2 * List.length (Buffer_from_hex s) <= String.length s)%nat /\
              forall c, (2 * List.length (Buffer_from_hex (String c s))
                         <= String.length (String c s))%nat) by apply H.
  induction s as [| c1 rest [IH1 IH2]]; simpl.
  - split; [lia | intro; simpl; lia].
  - split; [apply (IH2 c1) |].
    intro c; simpl.
    destruct (hex_value c); [| simpl; lia].
    destruct (hex_value c1); simpl; lia.
Qed.

Lemma length_toString_utf8 (b : Buffer) :
  String.length (toString_utf8 b) = List.length b.
Proof.
  unfold toString_utf8, string_of_list_byte.
  induction b as [| x rest IH]; simpl; [reflexivity | rewrite IH; reflexivity].
Qed.

Lemma toString_utf8_Buffer_from_utf8 (s : string) :
  toString_utf8 (Buffer_from_utf8 s) = s.
Proof. apply string_of_list_byte_of_string. Qed.

Lemma falsy_length (s : string) : falsy s = false -> (1 <= String.length s)%nat.
Proof. destruct s; simpl; [discriminate | lia]. Qed.

Lemma falsy_false_of_length (s : string) : (1 <= String.length s)%nat -> falsy s = false.
Proof. destruct s; simpl; [lia | reflexivity]. Qed.
(** ** Padding, blocks and chaining *)

Lemma byte_xor_involutive (a b : byte) : byte_xor (byte_xor a b) b = a.
Proof.
  unfold byte_xor.
  destruct (Byte.to_bits a) as (a0 & a1 & a2 & a3 & a4 & a5 & a6 & a7) eqn:Ha.
  destruct (Byte.to_bits b) as (b0 & b1 & b2 & b3 & b4 & b5 & b6 & b7) eqn:Hb.
  rewrite Byte.to_bits_of_bits.
  rewrite <- (Byte.of_bits_to_bits a), Ha.
  f_equal.
  destruct a0, a1, a2, a3, a4, a5, a6, a7, b0, b1, b2, b3, b4, b5, b6, b7; reflexivity.
Qed.

Lemma xor_bytes_involutive (a b : Buffer) :
  List.length a = List.length b -> xor_bytes (xor_bytes a b) b = a.
Proof.
  revert b; induction a as [| x a IH]; intros [| y b] Hlen; simpl in *; try discriminate; auto.
  unfold xor_bytes in *; simpl.
  rewrite byte_xor_involutive. f_equal. apply IH. lia.
Qed.

Lemma length_xor_bytes (a b : Buffer) :
  List.length (xor_bytes a b) = Nat.min (List.length a) (List.length b).
Proof. unfold xor_bytes. rewrite length_map, length_combine. reflexivity. Qed.

Lemma byte_to_nat_of_nat (n : nat) : (n <= 255)%nat -> byte_to_nat (byte_of_nat n) = n.
Proof.
  intro Hn. unfold byte_to_nat, byte_of_nat.
  destruct (Byte.of_N (N.of_nat n)) as [b |] eqn:Hb.
  - apply Byte.to_of_N in Hb. rewrite Hb. apply Nat2N.id.
  - apply Byte.of_N_None_iff in Hb. lia.
Qed.
Lemma pad_amount (m : Buffer) :
  (1 <= 16 - List.length m mod 16 <= 16)%nat.
Proof. pose proof (Nat.mod_upper_bound (List.length m) 16). lia. Qed.

Lemma length_pkcs7_pad (m : Buffer) :
  exists n, List.length (pkcs7_pad m) = (16 * S n)%nat /\ n = (List.length m / 16)%nat.
Proof.
  exists (List.length m / 16)%nat. split; [| reflexivity].
  unfold pkcs7_pad. rewrite length_app, repeat_length.
  pose proof (Nat.div_mod_eq (List.length m) 16).
  pose proof (Nat.mod_upper_bound (List.length m) 16). lia.
Qed.

Lemma pkcs7_unpad_pad (m : Buffer) : pkcs7_unpad (pkcs7_pad m) = Some m.
Proof.
  unfold pkcs7_unpad, pkcs7_pad.
  set (n := (16 - List.length m mod 16)%nat).
  assert (Hn : (1 <= n <= 16)%nat) by apply pad_amount.
  rewrite rev_app_distr, rev_repeat.
  destruct n as [| k] eqn:Hk; [lia |]. simpl repeat at 1. cbn [app].
  rewrite byte_to_nat_of_nat by lia.
  rewrite length_app, repeat_length.
  replace (List.length m + S k - S k)%nat with (List.length m + 0)%nat by lia.
  rewrite skipn_app, firstn_app.
  rewrite Nat.add_0_r, skipn_all, Nat.sub_diag, firstn_all. simpl skipn. simpl firstn.
  rewrite app_nil_r.
  assert (Hall : forallb (Byte.eqb (byte_of_nat (S k))) (repeat (byte_of_nat (S k)) (S k)) = true).
  { apply forallb_forall. intros x Hx. apply repeat_spec in Hx. subst x.
    apply Byte.byte_dec_lb. reflexivity. }
  cbn [app].
  change (byte_of_nat (S k) :: repeat (byte_of_nat (S k)) k)
    with (repeat (byte_of_nat (S k)) (S k)).
  rewrite Hall.
  replace ((1 <=? S k)%nat && (S k <=? 16)%nat && (S k <=? List.length m + S k)%nat) with true.
  - reflexivity.
  - symmetry. rewrite !andb_true_iff, !Nat.leb_le. lia.
Qed.

Lemma pkcs7_unpad_shorter (x m : Buffer) :
  pkcs7_unpad x = Some m -> (List.length m < List.length x)%nat.
Proof.
  unfold pkcs7_unpad. destruct (rev x) as [| b r] eqn:Hr; [discriminate |].
  destruct (_ && _) eqn:Hc; [| discriminate].
  intro H; injection H as <-.
  rewrite !andb_true_iff, !Nat.leb_le in Hc.
  rewrite length_firstn. lia.
Qed.

Lemma blocks_upto_nil (f : nat) : blocks_upto f [] = [].
Proof. destruct f; reflexivity. Qed.

Lemma blocks_upto_enough (f1 f2 : nat) (l : Buffer) :
  (List.length l <= f1)%nat -> (List.length l <= f2)%nat ->
  blocks_upto f1 l = blocks_upto f2 l.
Proof.
  revert f2 l; induction f1 as [| f1 IH]; intros f2 l H1 H2.
  - destruct l; [| simpl in H1; lia]. now rewrite !blocks_upto_nil.
  - destruct l as [| x l]; [now rewrite !blocks_upto_nil |].
    destruct f2 as [| f2]; [simpl in H2; lia |].
    cbn [blocks_upto]. f_equal. apply IH.
    + rewrite length_skipn. simpl in *. lia.
    + rewrite length_skipn. simpl in *. lia.
Qed.

Lemma blocks_upto_step (f : nat) (c x : Buffer) :
  List.length c = 16%nat -> blocks_upto (S f) (c ++ x) = c :: blocks_upto f x.
Proof.
  intro Hc. cbn [blocks_upto].
  destruct (c ++ x) as [| y r] eqn:Hcx.
  - apply (f_equal (@List.length _)) in Hcx. rewrite length_app in Hcx. simpl in Hcx. lia.
  - rewrite <- Hcx, firstn_app, skipn_app, Hc, Nat.sub_diag.
    change (firstn 0 x) with (@nil byte). change (skipn 0 x) with x.
    rewrite <- Hc, firstn_all, skipn_all, app_nil_r. reflexivity.
Qed.

Lemma blocks_cons (c x : Buffer) :
  List.length c = 16%nat -> blocks (c ++ x) = c :: blocks x.
Proof.
  intro Hc. unfold blocks. rewrite length_app, Hc.
  replace (16 + List.length x)%nat with (S (15 + List.length x)) by lia.
  rewrite blocks_upto_step by exact Hc.
  f_equal. apply blocks_upto_enough; lia.
Qed.

Lemma blocks_spec (n : nat) (l : Buffer) :
  List.length l = (16 * n)%nat ->
  Forall (fun b => List.length b = 16%nat) (blocks l) /\ List.concat (blocks l) = l /\
  List.length (blocks l) = n.
Proof.
  revert l; induction n as [| n IH]; intros l Hl.
  - destruct l; [| simpl in Hl; lia]. cbn. auto.
  - assert (H16 : List.length (firstn 16 l) = 16%nat) by (rewrite length_firstn; lia).
    assert (Hb : blocks l = firstn 16 l :: blocks (skipn 16 l)).
    { rewrite <- (firstn_skipn 16 l) at 1. apply blocks_cons, H16. }
    rewrite Hb.
    destruct (IH (skipn 16 l)) as (Hall & Hcat & Hlen); [rewrite length_skipn; lia |].
    repeat split.
    + constructor; assumption.
    + cbn [List.concat]. rewrite Hcat. apply firstn_skipn.
    + cbn [List.length]. f_equal. exact Hlen.
Qed.

Lemma length_cbc_decrypt_blocks (dec : Buffer -> Buffer -> Buffer) (key : Buffer)
      (cs : list Buffer) (prev : Buffer) :
  Forall (fun b => List.length b = 16%nat) cs -> List.length prev = 16%nat ->
  (List.length (cbc_decrypt_blocks dec key prev cs) <= 16 * List.length cs)%nat.
Proof.
  intro Hall; revert prev; induction Hall as [| c cs Hc _ IH]; intros prev Hprev.
  - simpl. lia.
  - cbn [cbc_decrypt_blocks]. rewrite length_app, length_xor_bytes.
    specialize (IH c Hc). cbn [List.length]. lia.
Qed.

Lemma cbc_decrypt_shorter (dec : Buffer -> Buffer -> Buffer) (key iv c m : Buffer) :
  List.length iv = 16%nat ->
  cbc_decrypt dec key iv c = Some m -> (List.length m < List.length c)%nat.
Proof.
  intros Hiv. unfold cbc_decrypt.
  destruct (_ || _) eqn:Hguard; [discriminate |].
  apply orb_false_iff in Hguard as [_ Hmod].
  apply negb_false_iff, Nat.eqb_eq in Hmod.
  intro Hun. apply pkcs7_unpad_shorter in Hun.
  assert (Hlen : List.length c = (16 * (List.length c / 16))%nat).
  { pose proof (Nat.div_mod_eq (List.length c) 16). lia. }
  destruct (@blocks_spec _ _ Hlen) as (Hall & _ & Hn).
  pose proof (@length_cbc_decrypt_blocks dec key _ _ Hall Hiv) as Hle.
  rewrite Hn in Hle. lia.
Qed.

Section CbcFacts.
Variable enc dec : Buffer -> Buffer -> Buffer.
Hypothesis contract : block_cipher_contract enc dec.
Variable key : Buffer.
Hypothesis Hkey : List.length key = 32%nat.

Lemma cbc_blocks_roundtrip (bs : list Buffer) (prev : Buffer) :
  Forall (fun b => List.length b = 16%nat) bs -> List.length prev = 16%nat ->
  cbc_decrypt_blocks dec key prev (blocks (cbc_encrypt_blocks enc key prev bs))
    = List.concat bs /\
  List.length (cbc_encrypt_blocks enc key prev bs) = (16 * List.length bs)%nat.
Proof.
  intro Hall; revert prev; induction Hall as [| b bs Hb _ IH]; intros prev Hprev.
  - cbn. auto.
  - cbn [cbc_encrypt_blocks].
    assert (Hx : List.length (xor_bytes b prev) = 16%nat)
      by (rewrite length_xor_bytes, Hb, Hprev; reflexivity).
    destruct (contract _ _ Hkey Hx) as [Hc Hdec].
    rewrite blocks_cons by exact Hc.
    cbn [cbc_decrypt_blocks List.concat].
    destruct (IH _ Hc) as [IH1 IH2].
    rewrite Hdec, xor_bytes_involutive by congruence.
    rewrite IH1, length_app, Hc, IH2. cbn [List.length]. split; [reflexivity | lia].
Qed.

Lemma length_cbc_encrypt (iv m : Buffer) :
  List.length iv = 16%nat ->
  List.length (cbc_encrypt enc key iv m) = (16 * S (List.length m / 16))%nat.
Proof.
  intro Hiv. unfold cbc_encrypt.
  destruct (length_pkcs7_pad m) as (n & Hn & ->).
  destruct (@blocks_spec _ _ Hn) as (Hall & _ & Hlen).
  destruct (@cbc_blocks_roundtrip _ _ Hall Hiv) as [_ H]. rewrite H, Hlen. reflexivity.
Qed.

Lemma cbc_decrypt_encrypt (iv m : Buffer) :
  List.length iv = 16%nat ->
  cbc_decrypt dec key iv (cbc_encrypt enc key iv m) = Some m.
Proof.
  intro Hiv. unfold cbc_decrypt.
  rewrite (@length_cbc_encrypt iv m Hiv).
  replace ((16 * S (List.length m / 16) =? 0)%nat) with false
    by (symmetry; apply Nat.eqb_neq; lia).
  replace (((16 * S (List.length m / 16)) mod 16 =? 0)%nat) with true
    by (symmetry; apply Nat.eqb_eq; rewrite Nat.mul_comm; apply Nat.Div0.mod_mul).
  cbn [orb negb]. unfold cbc_encrypt.
  destruct (length_pkcs7_pad m) as (n & Hn & _).
  destruct (@blocks_spec _ _ Hn) as (Hall & Hcat & _).
  destruct (@cbc_blocks_roundtrip _ _ Hall Hiv) as [H _].
  rewrite H, Hcat. apply pkcs7_unpad_pad.
Qed.
End CbcFacts.

Lemma xor_block_contract : block_cipher_contract xor_block xor_block.
Proof.
  intros k b Hk Hb. unfold xor_block.
  assert (Hs : List.length (skipn 16 k) = 16%nat) by (rewrite length_skipn; lia).
  split.
  - rewrite length_xor_bytes, Hb, Hs. reflexivity.
  - apply xor_bytes_involutive. congruence.
Qed.

(** ** The field cipher *)

Lemma createCipheriv_ok (E : Type -> Type) (key iv : Buffer) :
  List.length key = 32%nat -> List.length iv = 16%nat ->
  createCipheriv E key iv = Ret (key, iv).
Proof.
  intros Hk Hi. unfold createCipheriv.
  rewrite Hk, Hi. reflexivity.
Qed.

Lemma test_hex_plus_of_32 (s : string) : test_hex_32 s = true -> test_hex_plus s = true.
Proof.
  unfold test_hex_32, test_hex_plus. rewrite !andb_true_iff, !Nat.leb_le.
  intros [H ->]. split; [lia | reflexivity].
Qed.

Lemma decrypt_identity_on_non_hex
      (dec : Buffer -> Buffer -> Buffer) (E : Type -> Type) (disabled : bool)
      (key iv : Buffer) (p : string) :
  test_hex_plus p = false -> decrypt dec E disabled key iv p = Ret p.
Proof.
  intro Hp. unfold decrypt.
  destruct (falsy p || disabled); [reflexivity |].
  rewrite Hp. reflexivity.
Qed.

(** What [decrypt] does with a non-empty hexadecimal string when
    encryption is enabled. *)
Lemma decrypt_hex (dec : Buffer -> Buffer -> Buffer) (E : Type -> Type) (key iv : Buffer)
      (x : string) :
  falsy x = false -> test_hex_plus x = true ->
  decrypt dec E false key iv x =
    if negb (List.length key =? 32)%nat || negb (List.length iv =? 16)%nat
       || Nat.odd (String.length x)
    then Console ErrorLevel "Decryption error:" (Ret "[Encrypted content]")
    else match cbc_decrypt dec key iv (Buffer_from_hex x) with
         | Some m => Ret (toString_utf8 m)
         | None => Console ErrorLevel "Error in final decryption step:"
                           (Ret "[Encrypted content]")
         end.
Proof.
  intros Hf Hx.
  unfold decrypt, createDecipheriv, createCipheriv, decipher_update, decipher_final.
  rewrite Hf, Hx. cbn [orb negb].
  destruct (List.length key =? 32)%nat; cbn [negb orb]; [| reflexivity].
  destruct (List.length iv =? 16)%nat; cbn [negb orb]; [| reflexivity].
  cbn [bind fst snd].
  destruct (Nat.odd (String.length x)); [reflexivity |].
  cbn [bind try_catch fst snd].
  destruct (cbc_decrypt dec key iv (Buffer_from_hex x)); reflexivity.
Qed.

Lemma odd_double (n : nat) : Nat.odd (2 * n) = false.
Proof.
  rewrite <- Nat.negb_even, Nat.even_mul. reflexivity.
Qed.

(** A hexadecimal string with an odd number of digits never reaches the
    decipher: [update] refuses it and [decrypt] answers with the sentinel,
    whatever the key, the IV and the block permutation. *)
Lemma decrypt_odd_hex (dec : Buffer -> Buffer -> Buffer) (E : Type -> Type) (key iv : Buffer)
      (x : string) :
  test_hex_plus x = true -> Nat.odd (String.length x) = true ->
  decrypt dec E false key iv x
    = Console ErrorLevel "Decryption error:" (Ret "[Encrypted content]").
Proof.
  intros Hx Hodd.
  assert (Hf : falsy x = false) by (destruct x; [discriminate Hodd | reflexivity]).
  rewrite decrypt_hex by assumption. rewrite Hodd, !orb_true_r. reflexivity.
Qed.

Lemma returns_bind {E A B} (p : prog E A) (f : A -> prog E B) :
  returns p -> (forall a, returns (f a)) -> returns (bind p f).
Proof. induction p; simpl; intros; try contradiction; auto. Qed.

Lemma try_catch_returns {E A} (p : prog E A) (h : js_error -> prog E A) :
  returns p -> try_catch p h = p.
Proof.
  induction p; simpl; intros; try contradiction; auto.
  f_equal; auto.
Qed.

Lemma run_bind {A B} (h : handler) (p : js A) (f : A -> js B) (w : world) :
  run h (bind p f) w =
    match run h p w with
    | (Normal a, w1) => run h (f a) w1
    | (Abrupt e, w1) => (Abrupt e, w1)
    end.
Proof.
  revert w; induction p as [a | e | l m k IH | X c k IH]; intro w; simpl; auto.
  destruct (h X c w) as [x w']. apply IH.
Qed.

Lemma run_await {A} (h : handler) (c : call (outcome A)) (w : world) :
  run h (await c) w =
    match h _ c w with
    | (Resolved a, w') => (Normal a, w')
    | (Rejected e, w') => (Abrupt e, w')
    end.
Proof. unfold await. cbn [run]. destruct (h _ c w) as [[a | e] w']; reflexivity. Qed.

Lemma run_returns {A} (h : handler) (p : js A) (w : world) :
  returns p -> exists a w', run h p w = (Normal a, w') /\ db w' = db w.
Proof.
  revert w; induction p as [a | e | l m k IH | X c k IH]; intro w; simpl;
    intros; try contradiction; eauto.
  destruct (IH (with_console w l m)) as (a & w' & Hr & Hd); eauto.
Qed.

Lemma decrypt_returns (dec : Buffer -> Buffer -> Buffer) (E : Type -> Type) (disabled : bool)
      (key iv : Buffer) (x : string) :
  returns (decrypt dec E disabled key iv x).
Proof.
  destruct (falsy x) eqn:Hf; [unfold decrypt; rewrite Hf; exact I |].
  destruct disabled; [unfold decrypt; rewrite Hf; exact I |].
  destruct (test_hex_plus x) eqn:Hx.
  - rewrite decrypt_hex by assumption.
    destruct (_ || _); [exact I |].
    destruct (cbc_decrypt _ _ _ _); exact I.
  - rewrite decrypt_identity_on_non_hex by assumption. exact I.
Qed.

Lemma readSensitive_returns (dec : Buffer -> Buffer -> Buffer) (E : Type -> Type)
      (disabled : bool) (key iv : Buffer) (x : string) :
  returns (readSensitive dec E disabled key iv x).
Proof.
  unfold readSensitive. destruct (_ && _); [| exact I].
  rewrite try_catch_returns; apply decrypt_returns.
Qed.

Lemma decryptRow_returns (dec : Buffer -> Buffer -> Buffer) (disabled : bool)
      (key iv : Buffer) (row : record_joined) :
  returns (RecordModel.decryptRow dec disabled key iv row).
Proof.
  unfold RecordModel.decryptRow. destruct (rec_description _); [| exact I].
  apply returns_bind; [apply readSensitive_returns | intro; exact I].
Qed.

Lemma run_map_js {A B} (h : handler) (f : A -> js B) (l : list A) (w : world) :
  (forall x, returns (f x)) ->
  exists l' w', run h (map_js f l) w = (Normal l', w') /\
                List.length l' = List.length l /\ db w' = db w.
Proof.
  intro Hf. revert w; induction l as [| x rest IH]; intro w.
  - exists [], w. auto.
  - cbn [map_js]. rewrite run_bind.
    destruct (@run_returns _ h (f x) w (Hf x)) as (y & w1 & -> & Hd1).
    rewrite run_bind.
    destruct (IH w1) as (ys & w2 & -> & Hlen & Hd2).
    exists (y :: ys), w2. cbn. repeat split; congruence.
Qed.

Lemma returns_value {A} (p : js A) :
  returns p ->
  exists a, forall (h : handler) (w : world), fst (run h p w) = Normal a.
Proof.
  induction p as [a | e | l m k IH | X c k IH]; cbn [returns]; intro Hp; try contradiction.
  - exists a. reflexivity.
  - destruct (IH Hp) as (a & Ha). exists a. intros h w. cbn [run]. apply Ha.
Qed.

(** [rows.map(f)] for a callback that awaits nothing: every element is
    mapped, in order, to the value the callback returns for it. *)
Lemma run_map_js_values {A B} (h : handler) (f : A -> js B) (l : list A) (w : world) :
  (forall x, returns (f x)) ->
  exists l' w', run h (map_js f l) w = (Normal l', w') /\ db w' = db w /\
                Forall2 (fun x y => forall h0 w0, fst (run h0 (f x) w0) = Normal y) l l'.
Proof.
  intro Hf. revert w; induction l as [| x rest IH]; intro w.
  - exists [], w. cbn. auto.
  - cbn [map_js]. rewrite run_bind.
    destruct (@run_returns _ h (f x) w (Hf x)) as (y & w1 & Hy & Hd1).
    destruct (returns_value (f x) (Hf x)) as (y' & Hy').
    assert (y' = y) by (pose proof (Hy' h w) as H; rewrite Hy in H; injection H as <-; reflexivity).
    subst y'. rewrite Hy, run_bind.
    destruct (IH w1) as (ys & w2 & -> & Hd2 & Hall).
    exists (y :: ys), w2. cbn. repeat split; [congruence |]. constructor; assumption.
Qed.

(** What [decryptRow] returns for a row. *)
Lemma decryptRow_shown (dec : Buffer -> Buffer -> Buffer) (disabled : bool) (key iv : Buffer)
      (row row' : record_joined) (h : handler) (w : world) :
  fst (run h (RecordModel.decryptRow dec disabled key iv row) w) = Normal row' ->
  row_shown dec disabled key iv row row'.
Proof.
  unfold RecordModel.decryptRow, row_shown.
  destruct (rec_description (rj_record row)) as [stored |] eqn:Hd.
  - destruct (returns_value _ (readSensitive_returns dec call disabled key iv stored))
      as (shown & Hshown).
    rewrite run_bind.
    pose proof (Hshown h w) as Hrun.
    destruct (run h (readSensitive dec call disabled key iv stored) w) as [c w1].
    cbn [fst] in Hrun. subst c. cbn [run fst]. intro H. injection H as <-.
    cbn [rj_record rj_patient_name rj_doctor_name rec_record_id rec_patient_id rec_doc_id
         rec_created_at rec_description].
    repeat (split; [reflexivity |]).
    exists shown. split; [reflexivity |]. split; [exact Hshown |].
    intro Hnot. pose proof (Hshown h w) as H.
    unfold readSensitive in H. rewrite Hnot, andb_false_r in H. cbn in H.
    injection H as <-. reflexivity.
  - cbn [run fst]. intro H. injection H as <-. rewrite Hd.
    repeat (split; [reflexivity |]). reflexivity.
Qed.

Lemma encrypt_enabled (enc : Buffer -> Buffer -> Buffer) (E : Type -> Type) (key iv : Buffer)
      (v : string) :
  falsy v = false -> List.length key = 32%nat -> List.length iv = 16%nat ->
  encrypt enc E false key iv v =
    Ret (toString_hex (cbc_encrypt enc key iv (Buffer_from_utf8 v))).
Proof.
  intros Hf Hk Hi. unfold encrypt. rewrite Hf. cbn [orb].
  rewrite createCipheriv_ok by assumption. reflexivity.
Qed.

(** C7, as the code has it.  With a 32-byte key and a 16-byte IV (the
    fallback configuration, and every configuration under which the cipher
    can be created), [decrypt (encrypt v)] returns [v] for every field value
    [v], whether or not encryption is disabled.  [decrypt] is the identity
    on every stored value that is not a non-empty string of hexadecimal
    digits (its own test, [/^[0-9a-f]+$/i]), and the guarded read of the
    record model is the identity on every stored value that
    [isLikelyEncrypted] rejects. *)
Theorem decrypt_encrypt_round_trip :
  forall (enc dec : Buffer -> Buffer -> Buffer) (disabled : bool) (key iv : Buffer),
    block_cipher_contract enc dec ->
    List.length key = 32%nat -> List.length iv = 16%nat ->
    (forall v : string,
        (x <- encrypt enc call disabled key iv v ;; decrypt dec call disabled key iv x) = Ret v) /\
    (forall p : string,
        test_hex_plus p = false -> decrypt dec call disabled key iv p = Ret p) /\
    (forall p : string,
        isLikelyEncrypted p = false -> readSensitive dec call disabled key iv p = Ret p).
Proof.
  intros enc dec disabled key iv Hc Hk Hi. split; [| split].
  - intro v.
    destruct (falsy v) eqn:Hf.
    { unfold encrypt, decrypt. rewrite Hf. cbn. rewrite Hf. reflexivity. }
    destruct disabled.
    { unfold encrypt, decrypt. rewrite Hf. cbn. rewrite Hf. reflexivity. }
    rewrite encrypt_enabled by assumption. cbn [bind].
    set (c := cbc_encrypt enc key iv (Buffer_from_utf8 v)).
    assert (Hlen : String.length (toString_hex c) = (32 * S (List.length (Buffer_from_utf8 v) / 16))%nat).
    { rewrite length_toString_hex. unfold c.
      rewrite (@length_cbc_encrypt enc dec Hc key Hk iv _ Hi). lia. }
    rewrite decrypt_hex.
    + rewrite Hk, Hi. cbn [Nat.eqb negb orb].
      rewrite length_toString_hex, odd_double.
      rewrite Buffer_from_hex_toString_hex. unfold c.
      rewrite (@cbc_decrypt_encrypt enc dec Hc key Hk iv _ Hi).
      rewrite toString_utf8_Buffer_from_utf8. reflexivity.
    + apply falsy_false_of_length. lia.
    + unfold test_hex_plus. rewrite all_hex_toString_hex, andb_true_r.
      apply Nat.leb_le. lia.
  - intros p Hp. apply decrypt_identity_on_non_hex, Hp.
  - intros p Hp. unfold readSensitive. rewrite Hp, andb_false_r. reflexivity.
Qed.

Lemma decrypt_encrypt_round_trip_witness :
  (x <- encrypt xor_block call false default_key default_iv "penicillin allergy" ;;
   decrypt xor_block call false default_key default_iv x) = Ret "penicillin allergy".
Proof.
  apply (proj1 (@decrypt_encrypt_round_trip xor_block xor_block false default_key default_iv
                  xor_block_contract eq_refl eq_refl)).
Defined.

(** A hexadecimal string whose bytes do not fill whole blocks can never
    be deciphered: whatever the key, the IV and the block permutation,
    [decrypt] answers with the sentinel. *)
Lemma decrypt_ragged_hex (dec : Buffer -> Buffer -> Buffer) (key iv : Buffer) (x : string)
      (h : handler) (w : world) :
  falsy x = false -> test_hex_plus x = true ->
  (List.length (Buffer_from_hex x) mod 16 =? 0)%nat = false ->
  fst (run h (decrypt dec call false key iv x) w) = Normal "[Encrypted content]".
Proof.
  intros Hf Hx Hragged. rewrite decrypt_hex by assumption.
  destruct (_ || _); [reflexivity |].
  unfold cbc_decrypt. rewrite Hragged, orb_true_r. reflexivity.
Qed.

(** C7 as stated fails: the hexadecimal word [cafe] is legacy plaintext
    that [isLikelyEncrypted] does not take for ciphertext (it is shorter
    than 32 characters), yet [decrypt] does not return it. *)
Lemma decrypt_short_hex_not_identity :
  ~ (isLikelyEncrypted Sample.short_hex = false ->
     decrypt xor_block call false default_key default_iv Sample.short_hex
       = Ret Sample.short_hex).
Proof. intro H. specialize (H eq_refl). vm_compute in H. discriminate H. Qed.

(** C8, as the code has it.  When the decipher cannot be created, its
    [update] refuses the stored value (an odd number of hexadecimal digits)
    or its final step throws on it, [decrypt] (with encryption enabled)
    does not throw: it writes one line to [console.error] and returns the
    sentinel ["[Encrypted content]"].  For every input and configuration
    [decrypt] returns a value, and the list query [getAllRecords] returns
    every row its [SELECT] produced, in the same order and with the same
    columns, the description being what the guarded read makes of the
    stored one (the stored value itself when [isLikelyEncrypted] rejects
    it), whatever the rows hold: it fails only when the [SELECT] itself is
    rejected. *)
Theorem decrypt_failure_is_contained :
  forall (dec : Buffer -> Buffer -> Buffer) (key iv : Buffer) (stored : string),
    falsy stored = false -> test_hex_plus stored = true ->
    decipher_fails dec key iv stored ->
    (exists msg, decrypt dec call false key iv stored
                 = Console ErrorLevel msg (Ret "[Encrypted content]")) /\
    (forall (disabled : bool) (x : string) (h : handler) (w : world),
        exists s w', run h (decrypt dec call disabled key iv x) w = (Normal s, w')) /\
    (forall (disabled : bool) (patientId : option string) (limit offset : nat)
            (h : handler) (w : world),
        match h _ (SelectRecords (or_null patientId) limit offset) w with
        | (Resolved rows, w1) =>
            exists rows' w',
              run h (RecordModel.getAllRecords dec disabled key iv patientId limit offset) w
                = (Normal rows', w') /\
              List.length rows' = List.length rows /\
              db w' = db w1 /\
              Forall2 (row_shown dec disabled key iv) rows rows'
        | (Rejected error, w1) =>
            run h (RecordModel.getAllRecords dec disabled key iv patientId limit offset) w
              = (Abrupt error, w1)
        end).
Proof.
  intros dec key iv stored Hf Hx Hfail. split; [| split].
  - rewrite decrypt_hex by assumption.
    destruct (List.length key =? 32)%nat eqn:Hk; cbn [negb orb]; [| eauto].
    destruct (List.length iv =? 16)%nat eqn:Hi; cbn [negb orb]; [| eauto].
    destruct (Nat.odd (String.length stored)) eqn:Hodd; [eauto |].
    apply Nat.eqb_eq in Hk, Hi.
    destruct Hfail as [Hfail | [Hfail | [Hfail | Hfail]]];
      try contradiction; try congruence.
    rewrite Hfail. eauto.
  - intros disabled x h w.
    destruct (@run_returns _ h _ w (decrypt_returns dec call disabled key iv x))
      as (s & w' & Hr & _). eauto.
  - intros disabled patientId limit offset h w.
    unfold RecordModel.getAllRecords. rewrite run_bind, run_await.
    destruct (h _ (SelectRecords (or_null patientId) limit offset) w) as [[rows | error] w1];
      [| reflexivity].
    destruct (@run_map_js_values _ _ h (RecordModel.decryptRow dec disabled key iv) rows w1)
      as (rows' & w' & Hr & Hdb & Hrows); [intro; apply decryptRow_returns |].
    exists rows', w'. split; [exact Hr |].
    split; [symmetry; apply (Forall2_length Hrows) |]. split; [exact Hdb |].
    clear Hr. induction Hrows as [| row row' rows rows' Hrow _ IH]; constructor; [| exact IH].
    exact (@decryptRow_shown dec disabled key iv row row' h w1 (Hrow h w1)).
Qed.

Lemma decrypt_failure_is_contained_witness :
  exists msg, decrypt xor_block call false default_key default_iv Sample.corrupt_ciphertext
              = Console ErrorLevel msg (Ret "[Encrypted content]").
Proof.
  apply (@decrypt_failure_is_contained xor_block default_key default_iv
           Sample.corrupt_ciphertext eq_refl eq_refl).
  right; right; right. vm_compute. reflexivity.
Defined.

(** C8 as stated fails: on a corrupt ciphertext the value returned is not
    the string ["[unavailable]"], and the report does not go out at warning
    level. *)
Lemma decrypt_corrupt_not_unavailable :
  ~ (decipher_fails xor_block default_key default_iv Sample.corrupt_ciphertext ->
     exists msg,
       run (mysql Sample.mail_up)
           (decrypt xor_block call false default_key default_iv Sample.corrupt_ciphertext)
           Sample.sample_world
       = (Normal "[unavailable]", with_console Sample.sample_world WarnLevel msg)).
Proof.
  intro H. destruct H as [msg H].
  - right; right; right. vm_compute. reflexivity.
  - vm_compute in H. discriminate H.
Qed.

(** A value that [isLikelyEncrypted] accepts never comes back unchanged
    from [decrypt] when encryption is enabled: the plaintext of a
    ciphertext is shorter than half its hexadecimal form, and the sentinel
    is not hexadecimal. *)
Lemma decrypt_changes_likely_encrypted
      (dec : Buffer -> Buffer -> Buffer) (key iv : Buffer) (p : string)
      (h : handler) (w : world) :
  isLikelyEncrypted p = true ->
  fst (run h (decrypt dec call false key iv p) w) <> Normal p.
Proof.
  intro Hp. unfold isLikelyEncrypted in Hp.
  destruct (falsy p) eqn:Hf; [discriminate |].
  assert (Hall : all_chars is_hex_char p = true).
  { unfold test_hex_32 in Hp. apply andb_true_iff in Hp. apply Hp. }
  rewrite decrypt_hex by auto using test_hex_plus_of_32.
  assert (Hsent : Normal "[Encrypted content]" <> Normal p).
  { intro H. injection H as <-. discriminate Hall. }
  destruct (List.length key =? 32)%nat eqn:Hk; cbn [negb orb]; [| exact Hsent].
  destruct (List.length iv =? 16)%nat eqn:Hi; cbn [negb orb]; [| exact Hsent].
  destruct (Nat.odd (String.length p)); [exact Hsent |].
  apply Nat.eqb_eq in Hi.
  destruct (cbc_decrypt dec key iv (Buffer_from_hex p)) as [m |] eqn:Hd; [| exact Hsent].
  cbn. intro H. injection H as H.
  apply cbc_decrypt_shorter in Hd; [| exact Hi].
  pose proof (length_Buffer_from_hex p) as Hhex.
  apply (f_equal String.length) in H. rewrite length_toString_utf8 in H.
  apply falsy_length in Hf. lia.
Qed.

(** C10.  There is a legacy plaintext of 32 hexadecimal characters (the
    shape of an MD5 digest) that was never encrypted, that
    [isLikelyEncrypted] takes for ciphertext and that [decrypt] does not
    give back: it returns either the sentinel or the bytes the decipher
    produced, whatever the key, the IV and the block permutation. *)
Theorem hex_shaped_plaintext_is_not_preserved :
  forall (dec : Buffer -> Buffer -> Buffer) (key iv : Buffer) (h : handler) (w : world),
  exists p : string,
    (32 <= String.length p)%nat /\ all_chars is_hex_char p = true /\
    isLikelyEncrypted p = true /\
    fst (run h (decrypt dec call false key iv p) w) <> Normal p /\
    (fst (run h (decrypt dec call false key iv p) w) = Normal "[Encrypted content]" \/
     exists m, cbc_decrypt dec key iv (Buffer_from_hex p) = Some m /\
               fst (run h (decrypt dec call false key iv p) w) = Normal (toString_utf8 m)).
Proof.
  intros dec key iv h w. exists "d41d8cd98f00b204e9800998ecf8427e".
  split; [cbn; lia |]. split; [reflexivity |]. split; [reflexivity |].
  split; [apply decrypt_changes_likely_encrypted; reflexivity |].
  rewrite decrypt_hex by reflexivity.
  destruct (_ || _); [left; reflexivity |].
  destruct (cbc_decrypt dec key iv _) as [m |] eqn:Hd; [right; eauto | left; reflexivity].
Qed.

(** ** Invariants under sequential and interleaved runs *)

Section Preservation.
Variable A : Type.
Variable h : handler.
Variable I : world -> Prop.
Variable Q : A -> Prop.
Hypothesis I_console : forall w l m, I w -> I (with_console w l m).

Lemma preserves_run (p : js A) (w : world) :
preserves h I Q p -> I w ->
exists a w', run h p w = (Normal a, w') /\ Q a /\ I w'.
Proof.
revert w; induction p as [a | e | l m k IH | X c k IH]; intros w Hp Hw; simpl in *.
- eauto.
- contradiction.
- apply IH; auto.
- destruct (Hp w Hw) as [Hw' Hk]. destruct (@h X c w) as [x w']. simpl in *. eauto.
Qed.

Lemma preserves_step (p : js A) (w : world) :
preserves h I Q p -> I w ->
preserves h I Q (fst (step h p w)) /\ I (snd (step h p w)).
Proof.
revert w; induction p as [a | e | l m k IH | X c k IH]; intros w Hp Hw; simpl in *.
- auto.
- contradiction.
- apply IH; auto.
- destruct (Hp w Hw) as [Hw' Hk]. destruct (@h X c w) as [x w']. simpl in *. auto.
Qed.

Lemma preserves_interleave (schedule : list bool) (p q : js A) (w : world) :
preserves h I Q p -> preserves h I Q q -> I w ->
exists a b w', interleave h schedule p q w = (Normal a, Normal b, w') /\
               Q a /\ Q b /\ I w'.
Proof.
revert p q w; induction schedule as [| slot rest IH]; intros p q w Hp Hq Hw.
- cbn [interleave].
  destruct (preserves_run p Hp Hw) as (a & w1 & -> & Ha & Hw1).
  destruct (preserves_run q Hq Hw1) as (b & w2 & -> & Hb & Hw2).
  eauto 8.
- destruct slot; cbn [interleave].
  + destruct (preserves_step p Hp Hw) as [Hp' Hw'].
    destruct (step h p w) as [p' w']. apply IH; auto.
  + destruct (preserves_step q Hq Hw) as [Hq' Hw'].
    destruct (step h q w) as [q' w']. apply IH; auto.
Qed.

Lemma preserves_repeat_run (n : nat) (p : js A) (w : world) :
preserves h I Q p -> I w ->
exists rs w', repeat_run h n p w = (rs, w') /\ List.length rs = n /\
              Forall (fun r => exists a, r = Normal a /\ Q a) rs /\ I w'.
Proof.
intro Hp. revert w; induction n as [| n IH]; intros w Hw; cbn [repeat_run].
- exists [], w. auto.
- destruct (preserves_run p Hp Hw) as (a & w1 & -> & Ha & Hw1).
  destruct (IH w1 Hw1) as (rs & w2 & -> & Hlen & Hall & Hw2).
  exists (Normal a :: rs), w2. cbn. repeat split; eauto.
Qed.
End Preservation.

Lemma same_disclosure_tables_console (d0 : database) (w : world) (l : console_level) (m : string) :
  same_disclosure_tables d0 w -> same_disclosure_tables d0 (with_console w l m).
Proof. intro H; exact H. Qed.

Lemma same_disclosure_tables_refl (w : world) : same_disclosure_tables (db w) w.
Proof. repeat split. Qed.

Lemma select_approved_records_same (d0 : database) (w : world) (patient_id request_id : string) :
  same_disclosure_tables d0 w ->
  select_approved_records (db w) patient_id request_id
    = select_approved_records d0 patient_id request_id.
Proof.
  intros (_ & Hg & Hr & Hp & Hs).
  unfold select_approved_records, join_record. rewrite Hg, Hr, Hp, Hs. reflexivity.
Qed.

(** The approved-records read path keeps the disclosure tables as they are
    and answers with the records of the approved request. *)
Lemma getApprovedRecords_preserves
      (mail_ok : string -> bool) (d0 : database) (requestId : string) (u : user)
      (request0 : data_request) (rest : list data_request) :
  filter (fun r => String.eqb (dr_request_id r) requestId
                   && String.eqb (dr_company_id r) (user_id u)
                   && (dr_status r =? 1)) (data_requests d0) = request0 :: rest ->
  preserves (mysql mail_ok) (same_disclosure_tables d0)
    (eq (Json 200 (request0, select_approved_records d0 (dr_patient_id request0) requestId)))
    (InsuranceController.getApprovedRecords requestId u).
Proof.
  intro Hreq. unfold InsuranceController.getApprovedRecords, AuditService.logAudit, await.
  cbn [try_catch bind preserves mysql fst snd].
  intros w Hw. split; [exact Hw |].
  destruct Hw as (Hdr & Hrest). rewrite Hdr, Hreq.
  cbn [try_catch bind preserves mysql fst snd].
  intros w1 Hw1. split; [exact Hw1 |].
  rewrite (select_approved_records_same _ _ Hw1).
  cbn [try_catch bind preserves mysql fst snd console_log].
  intros w2 Hw2. split; [exact Hw2 | reflexivity].
Qed.

Lemma Forall_eq_repeat {A} (x : A) (l : list A) :
  Forall (fun r => exists a, r = a /\ x = a) l -> l = repeat x (List.length l).
Proof.
  induction 1 as [| r l (a & -> & <-) _ IH]; cbn; [reflexivity | f_equal; exact IH].
Qed.

Lemma getApprovedRecords_run
      (mail_ok : string -> bool) (w : world) (requestId : string) (u : user)
      (request0 : data_request) (rest : list data_request) :
  filter (fun r => String.eqb (dr_request_id r) requestId
                   && String.eqb (dr_company_id r) (user_id u)
                   && (dr_status r =? 1)) (data_requests (db w)) = request0 :: rest ->
  exists w',
    run (mysql mail_ok) (InsuranceController.getApprovedRecords requestId u) w
      = (Normal (Json 200 (request0,
                           select_approved_records (db w) (dr_patient_id request0) requestId)),
         w') /\
    same_disclosure_tables (db w) w'.
Proof.
  intro Hreq.
  destruct (@preserves_run _ (mysql mail_ok) (same_disclosure_tables (db w)) _
              (@same_disclosure_tables_console (db w)) _ w
              (@getApprovedRecords_preserves mail_ok (db w) requestId u _ _ Hreq)
              (same_disclosure_tables_refl w))
    as (a & w' & Hr & <- & Hw').
  eauto.
Qed.

(** C1, as the code has it.  The insurance read path does not meter reads:
    for an approved request of the calling company, any number [n] of
    calls of [getApprovedRecords] all answer 200 with the same disclosed
    records, whatever [max_access_count] the grants carry; no call is
    refused for an exhausted quota, and no call changes [access_count] (the
    table [approved_records] is left as it was). *)
Theorem getApprovedRecords_is_unmetered :
  forall (mail_ok : string -> bool) (w : world) (requestId : string) (u : user)
         (request0 : data_request) (rest : list data_request) (n : nat),
    filter (fun r => String.eqb (dr_request_id r) requestId
                     && String.eqb (dr_company_id r) (user_id u)
                     && (dr_status r =? 1)) (data_requests (db w)) = request0 :: rest ->
    exists w',
      repeat_run (mysql mail_ok) n (InsuranceController.getApprovedRecords requestId u) w
        = (repeat (Normal (Json 200 (request0,
                                     select_approved_records (db w) (dr_patient_id request0)
                                                             requestId))) n,
           w') /\
      approved_records (db w') = approved_records (db w).
Proof.
  intros mail_ok w requestId u request0 rest n Hreq.
  destruct (@preserves_repeat_run _ (mysql mail_ok) (same_disclosure_tables (db w)) _
              (@same_disclosure_tables_console (db w)) n _ w
              (@getApprovedRecords_preserves mail_ok (db w) requestId u _ _ Hreq)
              (same_disclosure_tables_refl w))
    as (rs & w' & Hr & Hlen & Hall & Hw').
  exists w'. split; [| apply Hw'].
  rewrite Hr. f_equal. rewrite <- Hlen.
  apply (Forall_eq_repeat (x := Normal _)).
  eapply Forall_impl; [| exact Hall].
  intros r (a & -> & <-). eauto.
Qed.

Lemma getApprovedRecords_is_unmetered_witness :
  exists w',
    repeat_run (mysql Sample.mail_up) 3
               (InsuranceController.getApprovedRecords "REQ000001" Sample.insurer)
               Sample.sample_world
      = (repeat (Normal (Json 200
                   (Sample.approved_request,
                    select_approved_records Sample.sample_db "PT001" "REQ000001"))) 3,
         w') /\
    approved_records (db w') = approved_records Sample.sample_db.
Proof.
  apply (@getApprovedRecords_is_unmetered Sample.mail_up Sample.sample_world "REQ000001"
           Sample.insurer Sample.approved_request [] 3).
  reflexivity.
Defined.

(** C1 as stated fails: the sample grant allows one access
    ([max_access_count = 1]), yet the second read is answered like the
    first, and [access_count] is still 0 after both. *)
Lemma second_read_of_quota_one_is_served :
  let results_world :=
    repeat_run (mysql Sample.mail_up) 2
               (InsuranceController.getApprovedRecords "REQ000001" Sample.insurer)
               Sample.sample_world in
  map ar_max_access_count (approved_records Sample.sample_db) = [1] /\
  ~ (exists e, nth_error (fst results_world) 1 = Some (Normal (Next e))) /\
  ~ (map ar_access_count (approved_records (db (snd results_world))) = [2]) /\
  ~ (map ar_access_count (approved_records (db (snd results_world))) = [1]).
Proof.
  vm_compute. repeat split; try discriminate.
  intros [e H]. discriminate H.
Qed.

(** C2, as the code has it.  The read path performs no update of the
    grant at all, conditional or not: [getApprovedRecords] awaits two
    [SELECT]s and the audit [INSERT].  Served concurrently for an approved
    request of the calling company, two readers both receive 200 with the
    disclosed records under every interleaving of their awaited calls, and
    [approved_records] is left as it was; no read-then-write pair on the
    grant exists because nothing is written to it. *)
Theorem concurrent_readers_both_succeed :
  forall (mail_ok : string -> bool) (w : world) (requestId : string) (u : user)
         (request0 : data_request) (rest : list data_request) (schedule : list bool),
    filter (fun r => String.eqb (dr_request_id r) requestId
                     && String.eqb (dr_company_id r) (user_id u)
                     && (dr_status r =? 1)) (data_requests (db w)) = request0 :: rest ->
    let served :=
      Normal (Json 200 (request0,
                        select_approved_records (db w) (dr_patient_id request0) requestId)) in
    exists w',
      interleave (mysql mail_ok) schedule
                 (InsuranceController.getApprovedRecords requestId u)
                 (InsuranceController.getApprovedRecords requestId u) w
        = (served, served, w') /\
      approved_records (db w') = approved_records (db w).
Proof.
  intros mail_ok w requestId u request0 rest schedule Hreq served.
  pose proof (@getApprovedRecords_preserves mail_ok (db w) requestId u _ _ Hreq) as Hp.
  destruct (@preserves_interleave _ (mysql mail_ok) (same_disclosure_tables (db w)) _
              (@same_disclosure_tables_console (db w)) schedule _ _ w Hp Hp
              (same_disclosure_tables_refl w))
    as (a & b & w' & Hr & <- & <- & Hw').
  exists w'. split; [exact Hr | apply Hw'].
Qed.

Lemma concurrent_readers_both_succeed_witness :
  exists w',
    interleave (mysql Sample.mail_up) [true; false; false; true; true; false]
               (InsuranceController.getApprovedRecords "REQ000001" Sample.insurer)
               (InsuranceController.getApprovedRecords "REQ000001" Sample.insurer)
               Sample.sample_world
      = (Normal (Json 200 (Sample.approved_request,
                           select_approved_records Sample.sample_db "PT001" "REQ000001")),
         Normal (Json 200 (Sample.approved_request,
                           select_approved_records Sample.sample_db "PT001" "REQ000001")),
         w') /\
    approved_records (db w') = approved_records Sample.sample_db.
Proof.
  apply (@concurrent_readers_both_succeed Sample.mail_up Sample.sample_world "REQ000001"
           Sample.insurer Sample.approved_request []
           [true; false; false; true; true; false]).
  reflexivity.
Defined.

(** C2 as stated fails: with one unit of quota left on the sample grant,
    two interleaved readers are both served, and the grant row is not
    updated by either. *)
Lemma two_readers_share_last_quota_unit :
  let outcome :=
    interleave (mysql Sample.mail_up) [true; false; true; false]
               (InsuranceController.getApprovedRecords "REQ000001" Sample.insurer)
               (InsuranceController.getApprovedRecords "REQ000001" Sample.insurer)
               Sample.sample_world in
  ar_max_access_count Sample.grant - ar_access_count Sample.grant = 1 /\
  ~ (exists e, snd (fst outcome) = Normal (Next e) \/ fst (fst outcome) = Normal (Next e)) /\
  approved_records (db (snd outcome)) = [Sample.grant].
Proof.
  vm_compute. repeat split.
  intros [e [H | H]]; discriminate H.
Qed.

Lemma select_approved_records_redate
      (expiry : approved_record -> option Z) (now : Z) (w : world)
      (patient_id request_id : string) :
  select_approved_records (db (redate expiry now w)) patient_id request_id
    = select_approved_records (db w) patient_id request_id.
Proof.
  unfold select_approved_records, join_record, redate. cbn [db approved_records records patients staff].
  f_equal. apply filter_ext. intro r. f_equal.
  induction (approved_records (db w)) as [| g gs IH]; cbn; [reflexivity | rewrite IH; reflexivity].
Qed.

(** C3, as the code has it.  The read path does not look at
    [access_granted_until] or at the time of reading: for an approved
    request of the calling company, [getApprovedRecords] answers 200 with
    the same disclosed records whatever expiry dates the grants carry and
    whatever the clock says, expired grants included. *)
Theorem getApprovedRecords_ignores_expiry :
  forall (mail_ok : string -> bool) (w : world) (requestId : string) (u : user)
         (request0 : data_request) (rest : list data_request)
         (expiry : approved_record -> option Z) (now : Z),
    filter (fun r => String.eqb (dr_request_id r) requestId
                     && String.eqb (dr_company_id r) (user_id u)
                     && (dr_status r =? 1)) (data_requests (db w)) = request0 :: rest ->
    fst (run (mysql mail_ok) (InsuranceController.getApprovedRecords requestId u)
             (redate expiry now w))
      = Normal (Json 200 (request0,
                          select_approved_records (db w) (dr_patient_id request0) requestId)) /\
    fst (run (mysql mail_ok) (InsuranceController.getApprovedRecords requestId u) w)
      = Normal (Json 200 (request0,
                          select_approved_records (db w) (dr_patient_id request0) requestId)).
Proof.
  intros mail_ok w requestId u request0 rest expiry now Hreq. split.
  - destruct (@getApprovedRecords_run mail_ok (redate expiry now w) requestId u request0 rest Hreq)
      as (w' & -> & _).
    cbn [fst]. rewrite select_approved_records_redate. reflexivity.
  - destruct (@getApprovedRecords_run mail_ok w requestId u request0 rest Hreq)
      as (w' & -> & _).
    reflexivity.
Qed.

Lemma getApprovedRecords_ignores_expiry_witness :
  fst (run (mysql Sample.mail_up)
           (InsuranceController.getApprovedRecords "REQ000001" Sample.insurer)
           (redate (fun _ => Some 5) 2000000000000 Sample.sample_world))
    = Normal (Json 200 (Sample.approved_request,
                        select_approved_records Sample.sample_db "PT001" "REQ000001")).
Proof.
  apply (proj1 (@getApprovedRecords_ignores_expiry Sample.mail_up Sample.sample_world
                  "REQ000001" Sample.insurer Sample.approved_request []
                  (fun _ => Some 5) 2000000000000 eq_refl)).
Defined.

(** C3 as stated fails: the sample grant expired at time 100, the read
    happens at the clock of the sample world, long after, and the record is
    disclosed all the same. *)
Lemma expired_grant_is_served :
  let answer :=
    fst (run (mysql Sample.mail_up)
             (InsuranceController.getApprovedRecords "REQ000001" Sample.insurer)
             Sample.sample_world) in
  ar_access_granted_until Sample.grant = Some 100 /\
  100 < clock Sample.sample_world /\
  ~ (exists e, answer = Normal (Next e)) /\
  exists request, answer
    = Normal (Json 200 (request,
        [mkRecordJoined
           (mkMedicalRecord "REC001" "PT001" "ST002" (Some "fever, prescribed rest") 800)
           "Kamal Perera" "Anula Dias"])).
Proof.
  vm_compute. repeat split.
  - intros [e H]; discriminate H.
  - eexists; reflexivity.
Qed.

(** ** The audit trail *)

(** C9.  Whatever the persistence layer does with the insertion,
    [logAudit] completes normally: when the insertion resolves it returns
    the inserted id, and when it is rejected the error is caught, one line
    goes to [console.error] and the call returns [null].  A caller's answer
    does not depend on it: [getApprovedRecords] answers the same whether
    the audit table accepts the row or rejects it. *)
Theorem logAudit_never_raises :
  forall (h : handler) (userId action resourceType : string) (resourceId : ident)
         (details : list (string * string)) (w : world),
    (exists (id : option Z) (w' : world),
        run h (AuditService.logAudit userId action resourceType resourceId details) w
          = (Normal id, w') /\
        match h _ (InsertAuditLog userId action resourceType resourceId
                                  (JSON_stringify details)) w with
        | (Resolved result, w1) => id = Some (insertId result) /\ w' = w1
        | (Rejected error, w1) =>
            id = None /\ w' = with_console w1 ErrorLevel "Audit logging error:"
        end) /\
    (forall (mail_ok : string -> bool) (requestId : string) (u : user),
        fst (run (mysql_audit_down mail_ok)
                 (InsuranceController.getApprovedRecords requestId u) w)
        = fst (run (mysql mail_ok) (InsuranceController.getApprovedRecords requestId u) w)).
Proof.
  intros h userId action resourceType resourceId details w. split.
  - unfold AuditService.logAudit, await. cbn [try_catch bind run].
    destruct (h _ (InsertAuditLog userId action resourceType resourceId
                                  (JSON_stringify details)) w) as [[result | error] w1];
      cbn; eauto.
  - intros mail_ok requestId u.
    unfold InsuranceController.getApprovedRecords, AuditService.logAudit, await.
    cbn [try_catch bind run mysql mysql_audit_down fst snd].
    destruct (filter _ (data_requests (db w))) as [| request0 rest]; reflexivity.
Qed.

(** ** Notifications and other read-only blocks *)

Lemma mysql_readonly (mail_ok : string -> bool) (X : Type) (c : call X) (w : world) :
  is_readonly_call c = true -> db (snd (mysql mail_ok c w)) = db w.
Proof.
  destruct c; cbn; intro H; try discriminate H; try reflexivity.
  destruct (mail_ok to); reflexivity.
Qed.

Lemma run_readonly {A} (mail_ok : string -> bool) (p : js A) (w : world) :
  readonly p -> db (snd (run (mysql mail_ok) p w)) = db w.
Proof.
  revert w; induction p as [a | e | l m k IH | X c k IH]; intros w Hp; cbn [run].
  - reflexivity.
  - reflexivity.
  - rewrite IH by exact Hp. reflexivity.
  - destruct Hp as [Hc Hk].
    pose proof (mysql_readonly mail_ok c w Hc) as Hdb.
    destruct (mysql mail_ok c w) as [x w1]. cbn [snd] in Hdb.
    rewrite IH by apply Hk. exact Hdb.
Qed.

Lemma readonly_bind {A B} (p : js A) (f : A -> js B) :
  readonly p -> (forall a, readonly (f a)) -> readonly (bind p f).
Proof.
  induction p as [a | e | l m k IH | X c k IH]; cbn; intros Hp Hf; auto.
  destruct Hp as [Hc Hk]. split; auto.
Qed.

Lemma readonly_try_catch {A} (p : js A) (h : js_error -> js A) :
  readonly p -> (forall e, readonly (h e)) -> readonly (try_catch p h).
Proof.
  induction p as [a | e | l m k IH | X c k IH]; cbn; intros Hp Hf; auto.
  destruct Hp as [Hc Hk]. split; auto.
Qed.

Lemma readonly_for_of {A} (xs : list A) (body : A -> js unit) :
  (forall x, readonly (body x)) -> readonly (for_of xs body).
Proof.
  intro Hb. induction xs as [| x rest IH]; cbn; [exact I |].
  apply readonly_bind; auto.
Qed.

Lemma readonly_await {A} (c : call (outcome A)) :
  is_readonly_call c = true -> readonly (await c).
Proof. intro Hc. split; [exact Hc |]. intros [a | e]; exact I. Qed.

Lemma readonly_sendEmail (to subject : string) : readonly (EmailService.sendEmail to subject).
Proof.
  unfold EmailService.sendEmail. apply readonly_try_catch.
  - apply readonly_bind; [apply readonly_await; reflexivity | intro; exact I].
  - intro e. exact I.
Qed.

(** A [try { ... } catch (e) { console.error(...) }] block around read-only
    work completes normally and leaves the tables as they were. *)
Lemma run_guarded_block (mail_ok : string -> bool) (p : js unit) (msg : string) (w : world) :
  readonly p ->
  exists w', run (mysql mail_ok) (try_catch p (fun _ => console_error msg)) w = (Normal tt, w') /\
             db w' = db w.
Proof.
  revert w; induction p as [a | e | l m k IH | X c k IH]; intros w Hp; cbn [try_catch run].
  - destruct a. eauto.
  - cbn. eauto.
  - destruct (IH (with_console w l m) Hp) as (w' & Hr & Hdb). eauto.
  - destruct Hp as [Hc Hk].
    pose proof (mysql_readonly mail_ok c w Hc) as Hdb.
    destruct (mysql mail_ok c w) as [x w1]. cbn [snd] in Hdb.
    destruct (IH x w1 (Hk x)) as (w' & Hr & Hdb'). exists w'. split; congruence.
Qed.

Lemma run_try_catch {A} (h : handler) (p : js A) (f : js_error -> js A) (w : world) :
  run h (try_catch p f) w =
    match run h p w with
    | (Normal a, w1) => (Normal a, w1)
    | (Abrupt e, w1) => run h (f e) w1
    end.
Proof.
  revert w; induction p as [a | e | l m k IH | X c k IH]; intro w; simpl; auto.
  destruct (h X c w) as [x w']. apply IH.
Qed.

Lemma harmless_ret (mail_ok : string -> bool) : harmless mail_ok (Ret tt).
Proof. intro w. exists w. auto. Qed.

Lemma harmless_guarded (mail_ok : string -> bool) (p : js unit) (msg : string) :
  readonly p -> harmless mail_ok (try_catch p (fun _ => console_error msg)).
Proof. intros Hp w. apply run_guarded_block, Hp. Qed.

Lemma harmless_seq (mail_ok : string -> bool) (p q : js unit) :
  harmless mail_ok p -> harmless mail_ok q -> harmless mail_ok (p ;;; q).
Proof.
  intros Hp Hq w. rewrite run_bind.
  destruct (Hp w) as (w1 & -> & Hd1). destruct (Hq w1) as (w2 & -> & Hd2).
  exists w2. split; congruence.
Qed.

Lemma run_then_harmless {A} (mail_ok : string -> bool) (p : js unit) (a : A) (w : world) :
  harmless mail_ok p ->
  exists w', run (mysql mail_ok) (p ;;; Ret a) w = (Normal a, w') /\ db w' = db w.
Proof.
  intro Hp. rewrite run_bind. destruct (Hp w) as (w1 & -> & Hd1). cbn. eauto.
Qed.

Lemma run_logAudit (mail_ok : string -> bool) (userId action resourceType : string)
      (resourceId : ident) (details : list (string * string)) (w : world) :
  exists id w',
    run (mysql mail_ok) (AuditService.logAudit userId action resourceType resourceId details) w
      = (Normal id, w') /\
    insurance_allocations (db w') = insurance_allocations (db w) /\
    data_requests (db w') = data_requests (db w) /\
    record_requests (db w') = record_requests (db w) /\
    patients (db w') = patients (db w) /\
    insurance_companies (db w') = insurance_companies (db w) /\
    staff (db w') = staff (db w) /\
    clock w' = clock w.
Proof.
  unfold AuditService.logAudit, await. cbn [try_catch bind run mysql].
  eexists; eexists; split; [reflexivity |]. cbn. repeat split.
Qed.

(** ** Allocations *)

Lemma updated_rows_have_status (status : Z) (notes : option string) (id : Z)
      (t : list allocation) (a : allocation) :
  In a (map (update_allocation status notes id) t) -> ia_id a = id -> ia_status a = status.
Proof.
  intros Hin Hid. apply in_map_iff in Hin as (b & <- & _).
  unfold update_allocation in *. destruct (ia_id b =? id) eqn:Hb; cbn in *; [reflexivity |].
  apply Z.eqb_neq in Hb. contradiction.
Qed.

Lemma run_updateAllocationStatus (mail_ok : string -> bool) (w : world)
      (id status : Z) (notes : option string) :
  match filter (fun a => ia_id a =? id) (insurance_allocations (db w)) with
  | [] =>
      run (mysql mail_ok) (InsuranceAllocationModel.updateAllocationStatus id status notes) w
        = (Abrupt (Error "Insurance allocation not found"), w)
  | row0 :: _ =>
      exists view w',
        run (mysql mail_ok) (InsuranceAllocationModel.updateAllocationStatus id status notes) w
          = (Normal view, w') /\
        db w' = set_insurance_allocations (db w)
                  (map (update_allocation status
                          (if truthy notes then notes else ia_notes row0) id)
                       (insurance_allocations (db w))) /\
        clock w' = clock w
  end.
Proof.
  unfold InsuranceAllocationModel.updateAllocationStatus,
    InsuranceAllocationModel.getAllocationById, await.
  cbn [bind run mysql].
  destruct (filter _ (insurance_allocations (db w))) as [| row0 rest]; [reflexivity |].
  cbn [bind run mysql].
  match goal with
  | |- context [select_allocation_joined ?d ?i] => destruct (select_allocation_joined d i) as [| [[a pn] cn] joined]
  end; cbn [bind run]; eauto.
Qed.

Lemma readonly_sendConnectionStatusUpdateEmail (adminEmail status : string) :
  readonly (EmailService.sendConnectionStatusUpdateEmail adminEmail status).
Proof.
  unfold EmailService.sendConnectionStatusUpdateEmail.
  apply readonly_try_catch; [apply readonly_sendEmail | intro; exact I].
Qed.

Lemma run_updateConnectionStatus (mail_ok : string -> bool) (w : world)
      (allocationId : Z) (status : string) (notes : option string) (u : user) :
  match filter (fun a => (ia_id a =? allocationId) && String.eqb (ia_company_id a) (user_id u))
               (insurance_allocations (db w)) with
  | [] =>
      run (mysql mail_ok) (InsuranceController.updateConnectionStatus allocationId status notes u) w
        = (Normal (Next (AppError "Connection request not found" 404)), w)
  | _ :: _ =>
      exists w',
        run (mysql mail_ok)
            (InsuranceController.updateConnectionStatus allocationId status notes u) w
          = (Normal (Json 200
                       ("Connection "
                        ++ (if String.eqb status "approved" then "approved" else "rejected")
                        ++ " successfully")%string), w') /\
        insurance_allocations (db w')
          = map (update_allocation (if String.eqb status "approved" then 1 else 2)
                                   (or_null notes) allocationId)
                (insurance_allocations (db w))
  end.
Proof.
  unfold InsuranceController.updateConnectionStatus.
  rewrite run_try_catch, run_bind, run_await. cbn [mysql].
  destruct (filter _ (insurance_allocations (db w))) as [| a0 rest]; [reflexivity |].
  rewrite run_bind, run_await. cbn [mysql].
  rewrite run_bind.
  match goal with
  | |- context [run _ (AuditService.logAudit ?a ?b ?c ?d ?e) ?w0] =>
      destruct (run_logAudit mail_ok a b c d e w0)
        as (aid & w1 & -> & Hia & _ & _ & Hpt & Hic & Hst & _)
  end.
  rewrite run_bind, run_await. cbn [mysql].
  rewrite run_bind, run_await. cbn [mysql].
  rewrite run_bind, run_await. cbn [mysql].
  match goal with
  | |- context [run _ (?n ;;; Ret ?r) ?w0] =>
      destruct (@run_then_harmless _ mail_ok n r w0) as (w2 & -> & Hdb)
  end.
  - destruct (select_patient_of_allocation _ _) as [| [pn pe] ps]; [apply harmless_ret |].
    destruct (map ic_company_name _) as [| cn cs]; [apply harmless_ret |].
    apply harmless_seq.
    + destruct (String.eqb status "approved"); [| apply harmless_ret].
      apply harmless_guarded, readonly_sendEmail.
    + destruct (filter _ (staff (db w1))) as [| s ss]; [apply harmless_ret |].
      apply harmless_guarded, readonly_for_of.
      intro x. apply readonly_sendConnectionStatusUpdateEmail.
  - exists w2. split; [reflexivity |]. rewrite Hdb, Hia. reflexivity.
Qed.

(** C5, as the code has it.  Deciding on an allocation does not look at
    its current status.  [updateAllocationStatus] (the administrator's
    path) throws ["Insurance allocation not found"] when no row has the id
    and otherwise overwrites status and notes of the row, whatever status it
    had; [updateConnectionStatus] (the insurer's path) answers 404 when the
    calling company has no row with the id and otherwise overwrites status
    and notes in the same way and answers 200.  An absent allocation leaves
    the store untouched. *)
Theorem decide_overwrites_any_status :
  forall (mail_ok : string -> bool) (w : world) (id status : Z) (statusText : string)
         (notes : option string) (u : user),
    match filter (fun a => ia_id a =? id) (insurance_allocations (db w)) with
    | [] =>
        run (mysql mail_ok) (InsuranceAllocationModel.updateAllocationStatus id status notes) w
          = (Abrupt (Error "Insurance allocation not found"), w)
    | row0 :: _ =>
        exists view w',
          run (mysql mail_ok) (InsuranceAllocationModel.updateAllocationStatus id status notes) w
            = (Normal view, w') /\
          insurance_allocations (db w')
            = map (update_allocation status
                     (if truthy notes then notes else ia_notes row0) id)
                  (insurance_allocations (db w))
    end /\
    match filter (fun a => (ia_id a =? id) && String.eqb (ia_company_id a) (user_id u))
                 (insurance_allocations (db w)) with
    | [] =>
        run (mysql mail_ok) (InsuranceController.updateConnectionStatus id statusText notes u) w
          = (Normal (Next (AppError "Connection request not found" 404)), w)
    | _ :: _ =>
        exists w',
          run (mysql mail_ok) (InsuranceController.updateConnectionStatus id statusText notes u) w
            = (Normal (Json 200
                         ("Connection "
                          ++ (if String.eqb statusText "approved" then "approved" else "rejected")
                          ++ " successfully")%string), w') /\
          insurance_allocations (db w')
            = map (update_allocation (if String.eqb statusText "approved" then 1 else 2)
                                     (or_null notes) id)
                  (insurance_allocations (db w))
    end.
Proof.
  intros mail_ok w id status statusText notes u. split.
  - pose proof (run_updateAllocationStatus mail_ok w id status notes) as H.
    destruct (filter _ (insurance_allocations (db w))) as [| row0 rest]; [exact H |].
    destruct H as (view & w' & Hr & Hdb & _).
    exists view, w'. split; [exact Hr |]. rewrite Hdb. reflexivity.
  - apply run_updateConnectionStatus.
Qed.

(** C5 as stated fails: the sample allocation 1 is already approved
    (status 1); the administrator's decision to reject it is accepted and
    the stored status becomes 2, and so is the insurer's. *)
Lemma decide_on_approved_allocation_succeeds :
  let by_admin :=
    run (mysql Sample.mail_up)
        (AdminController.updateInsuranceAllocationStatus 1 "rejected" None Sample.admin)
        Sample.sample_world in
  let by_insurer :=
    run (mysql Sample.mail_up)
        (InsuranceController.updateConnectionStatus 1 "rejected" None Sample.insurer)
        Sample.sample_world in
  map ia_status (filter (fun a => ia_id a =? 1) (insurance_allocations Sample.sample_db)) = [1] /\
  ~ (exists e, fst by_admin = Normal (Next e)) /\
  map ia_status (filter (fun a => ia_id a =? 1) (insurance_allocations (db (snd by_admin)))) = [2] /\
  ~ (exists e, fst by_insurer = Normal (Next e)) /\
  map ia_status (filter (fun a => ia_id a =? 1) (insurance_allocations (db (snd by_insurer)))) = [2].
Proof.
  vm_compute. repeat split; intros [e H]; discriminate H.
Qed.

(** ** Data requests *)

Lemma run_getDataRequestById (mail_ok : string -> bool) (id : string) (w : world) :
  run (mysql mail_ok) (DataRequestModel.getDataRequestById id) w
    = (Normal match select_data_request_joined (db w) id with
              | [] => None
              | (r, patient_name, company_name) :: _ =>
                  Some (DataRequestModel.mkRequestView r patient_name company_name
                          (DataRequestModel.formatStatus (dr_status r)))
              end, w).
Proof.
  unfold DataRequestModel.getDataRequestById. rewrite run_bind, run_await. cbn [mysql].
  destruct (select_data_request_joined (db w) id) as [| [[r pn] cn] rows]; reflexivity.
Qed.

Lemma readonly_getInsuranceById (id : string) : readonly (InsuranceModel.getInsuranceById id).
Proof.
  unfold InsuranceModel.getInsuranceById.
  apply readonly_bind; [apply readonly_await; reflexivity |].
  intros [| c cs]; exact I.
Qed.

Lemma run_updateDataRequestStatus (mail_ok : string -> bool) (w : world)
      (id : string) (status : Z) (notes : option string) :
  match select_data_request_joined (db w) id with
  | [] =>
      run (mysql mail_ok) (DataRequestModel.updateDataRequestStatus id status notes) w
        = (Abrupt (Error "Data request not found"), w)
  | _ :: _ =>
      exists updated w',
        run (mysql mail_ok) (DataRequestModel.updateDataRequestStatus id status notes) w
          = (Normal updated, w') /\
        data_requests (db w')
          = map (update_data_request status (or_null notes) (clock w) id)
                (data_requests (db w))
  end.
Proof.
  unfold DataRequestModel.updateDataRequestStatus.
  rewrite run_bind, run_getDataRequestById.
  destruct (select_data_request_joined (db w) id) as [| [[r pn] cn] rows]; [reflexivity |].
  rewrite run_bind, run_await. cbn [mysql].
  rewrite run_bind, run_getDataRequestById.
  match goal with
  | |- context [run _ (?n ;;; Ret ?r) ?w0] =>
      destruct (@run_then_harmless _ mail_ok n r w0) as (w2 & -> & Hdb)
  end.
  - apply harmless_guarded, readonly_bind; [apply readonly_getInsuranceById |].
    intros [c |]; [apply readonly_sendEmail | exact I].
  - eexists; exists w2. split; [reflexivity |]. rewrite Hdb. reflexivity.
Qed.

Lemma run_review (mail_ok : string -> bool) (w : world) (id : string) (status : Z)
      (action : string) (notes : option string) (u : user) :
  match select_data_request_joined (db w) id with
  | [] =>
      run (mysql mail_ok)
          (try_catch
             (updatedRequest <- DataRequestModel.updateDataRequestStatus id status notes ;;
              AuditService.logAudit (user_id u) action "data_request" (IdStr id)
                                    [("notes", or_else notes EmptyString)] ;;;
              Ret (Json 200 updatedRequest))
             (fun error => Ret (Next error))) w
        = (Normal (Next (Error "Data request not found")), w)
  | _ :: _ =>
      exists updated w',
        run (mysql mail_ok)
            (try_catch
               (updatedRequest <- DataRequestModel.updateDataRequestStatus id status notes ;;
                AuditService.logAudit (user_id u) action "data_request" (IdStr id)
                                      [("notes", or_else notes EmptyString)] ;;;
                Ret (Json 200 updatedRequest))
               (fun error => Ret (Next error))) w
          = (Normal (Json 200 updated), w') /\
        data_requests (db w')
          = map (update_data_request status (or_null notes) (clock w) id)
                (data_requests (db w))
  end.
Proof.
  rewrite run_try_catch, run_bind.
  pose proof (run_updateDataRequestStatus mail_ok w id status notes) as H.
  destruct (select_data_request_joined (db w) id) as [| row rows].
  - rewrite H. reflexivity.
  - destruct H as (updated & w1 & -> & Hdr).
    rewrite run_bind.
    match goal with
    | |- context [run _ (AuditService.logAudit ?a ?b ?c ?d ?e) ?w0] =>
        destruct (run_logAudit mail_ok a b c d e w0)
          as (aid & w2 & -> & _ & Hdr2 & _)
    end.
    exists updated, w2. split; [reflexivity |]. congruence.
Qed.

(** C6, as the code has it.  Reviewing a data request does not look at its
    stored status.  [updateDataRequestStatus] first reads the request
    (throwing ["Data request not found"] when the joined row is absent) and
    then issues an update whose only condition is the request id: status,
    notes and response date of the row are overwritten whatever status was
    stored, and the number of rows changed is not consulted.
    [approveDataRequest] answers 200 after that update, with the error
    passed on when the request is absent; [rejectDataRequest] does the same
    once a rejection reason is given, and answers 400 without one. *)
Theorem review_overwrites_any_status :
  forall (mail_ok : string -> bool) (w : world) (id : string) (notes : option string)
         (u : user),
    match select_data_request_joined (db w) id with
    | [] =>
        run (mysql mail_ok) (DataRequestController.approveDataRequest id notes u) w
          = (Normal (Next (Error "Data request not found")), w)
    | _ :: _ =>
        exists updated w',
          run (mysql mail_ok) (DataRequestController.approveDataRequest id notes u) w
            = (Normal (Json 200 updated), w') /\
          data_requests (db w')
            = map (update_data_request 1 (or_null notes) (clock w) id) (data_requests (db w))
    end /\
    if truthy notes then
      match select_data_request_joined (db w) id with
      | [] =>
          run (mysql mail_ok) (DataRequestController.rejectDataRequest id notes u) w
            = (Normal (Next (Error "Data request not found")), w)
      | _ :: _ =>
          exists updated w',
            run (mysql mail_ok) (DataRequestController.rejectDataRequest id notes u) w
              = (Normal (Json 200 updated), w') /\
            data_requests (db w')
              = map (update_data_request 2 (or_null notes) (clock w) id) (data_requests (db w))
      end
    else
      run (mysql mail_ok) (DataRequestController.rejectDataRequest id notes u) w
        = (Normal (Next (AppError "Rejection reason is required" 400)), w).
Proof.
  intros mail_ok w id notes u. split.
  - apply (run_review mail_ok w id 1 "approve" notes u).
  - unfold DataRequestController.rejectDataRequest.
    destruct (truthy notes); cbn [negb].
    + apply (run_review mail_ok w id 2 "reject" notes u).
    + reflexivity.
Qed.

(** C6 as stated fails: the sample request [REQ000002] is already
    rejected (status 2); approving it is answered 200 and the stored status
    becomes 1. *)
Lemma review_of_rejected_request_succeeds :
  let outcome :=
    run (mysql Sample.mail_up)
        (AdminController.approveDataRequest "REQ000002" None Sample.admin)
        Sample.sample_world in
  map dr_status (filter (fun r => String.eqb (dr_request_id r) "REQ000002")
                        (data_requests Sample.sample_db)) = [2] /\
  ~ (exists e, fst outcome = Normal (Next e)) /\
  map dr_status (filter (fun r => String.eqb (dr_request_id r) "REQ000002")
                        (data_requests (db (snd outcome)))) = [1].
Proof.
  vm_compute. repeat split. intros [e H]; discriminate H.
Qed.

Lemma readonly_sendDataRequestNotificationEmail (email : string) :
  readonly (EmailService.sendDataRequestNotificationEmail email).
Proof.
  unfold EmailService.sendDataRequestNotificationEmail.
  apply readonly_try_catch.
  - apply readonly_bind; [apply readonly_sendEmail | intro; exact I].
  - intro e. exact I.
Qed.

Lemma run_requestMedicalRecords (mail_ok : string -> bool) (w : world)
      (patientId : string) (requestDetails : list (string * string)) (u : user) :
  match filter (fun a => String.eqb (ia_patient_id a) patientId
                         && String.eqb (ia_company_id a) (user_id u)
                         && (ia_status a =? 1)) (insurance_allocations (db w)) with
  | [] =>
      exists w',
        run (mysql mail_ok) (InsuranceController.requestMedicalRecords patientId requestDetails u) w
          = (Normal (Next (AppError "Patient is not connected to your insurance company" 403)), w')
        /\ db w' = db w
  | _ :: _ =>
      exists w',
        run (mysql mail_ok) (InsuranceController.requestMedicalRecords patientId requestDetails u) w
          = (Normal (Json 201 (next_id rr_id (record_requests (db w)))), w') /\
        record_requests (db w')
          = record_requests (db w) ++
            [mkRecordRequest (next_id rr_id (record_requests (db w))) (user_id u) patientId
                             (JSON_stringify requestDetails) "pending" (clock w)]
  end.
Proof.
  unfold InsuranceController.requestMedicalRecords.
  rewrite run_try_catch. cbn [console_log bind run].
  rewrite run_bind, run_await. cbn [mysql db with_console].
  destruct (filter _ (insurance_allocations (db w))) as [| a0 rest].
  - cbn [bind run]. eexists; split; reflexivity.
  - cbn [bind run].
    rewrite run_bind, run_await. cbn [mysql].
    rewrite run_bind.
    match goal with
    | |- context [run _ (AuditService.logAudit ?a ?b ?c ?d ?e) ?w0] =>
        destruct (run_logAudit mail_ok a b c d e w0)
          as (aid & w1 & -> & _ & _ & Hrr & _)
    end.
    rewrite run_bind, run_await. cbn [mysql].
    rewrite run_bind, run_await. cbn [mysql].
    match goal with
    | |- context [run _ (?n ;;; Ret ?r) ?w0] =>
        destruct (@run_then_harmless _ mail_ok n r w0) as (w2 & -> & Hdb)
    end.
    + destruct (filter _ (staff (db w1))) as [| s ss]; [apply harmless_ret |].
      destruct (map pt_name _) as [| pn pns]; [apply harmless_ret |].
      apply harmless_guarded, readonly_for_of. intro x. apply readonly_sendEmail.
    + exists w2. split; [reflexivity |]. rewrite Hdb, Hrr. reflexivity.
Qed.

Lemma filter_of_existsb {A} (f : A -> bool) (l : list A) :
  existsb f l = true -> exists x rest, filter f l = x :: rest.
Proof.
  induction l as [| a l IH]; cbn; [discriminate |].
  destruct (f a); cbn; eauto.
Qed.

Lemma select_fresh_data_request (d : database) (row : data_request) :
  existsb (fun r => String.eqb (dr_request_id r) (dr_request_id row)) (data_requests d) = false ->
  existsb (fun c => String.eqb (ic_company_id c) (dr_company_id row)) (insurance_companies d) = true ->
  existsb (fun p => String.eqb (pt_patient_id p) (dr_patient_id row)) (patients d) = true ->
  exists patient_name company_name others,
    select_data_request_joined (set_data_requests d (data_requests d ++ [row]))
                               (dr_request_id row)
      = (row, patient_name, company_name) :: others.
Proof.
  intros Hfresh Hc Hp. unfold select_data_request_joined.
  cbn [data_requests set_data_requests patients insurance_companies].
  rewrite filter_app.
  assert (Hold : filter (fun r => String.eqb (dr_request_id r) (dr_request_id row))
                        (data_requests d) = []).
  { induction (data_requests d) as [| r rs IH]; [reflexivity |].
    cbn in Hfresh |- *. apply orb_false_iff in Hfresh as [H1 H2].
    rewrite H1. apply IH, H2. }
  rewrite Hold. cbn [app filter]. rewrite String.eqb_refl. cbn [flat_map].
  destruct (filter_of_existsb _ _ Hp) as (p & ps & ->).
  destruct (filter_of_existsb _ _ Hc) as (c & cs & ->).
  cbn. eauto.
Qed.

Lemma run_createDataRequest (mail_ok : string -> bool) (w : world)
      (body : InsuranceController.createDataRequestBody) (u : user) :
  falsy (InsuranceController.patient_id body) = false ->
  let row :=
    mkDataRequest ("REQ" ++ slice_last 6 (toString (clock w)))%string (user_id u)
                  (InsuranceController.patient_id body) (InsuranceController.purpose body)
                  (or_null (InsuranceController.date_range_start body))
                  (or_null (InsuranceController.date_range_end body))
                  0 (clock w) (user_id u)
                  (JSON_stringify (InsuranceController.request_details body)) None None in
  match filter (fun a => String.eqb (ia_patient_id a) (InsuranceController.patient_id body)
                         && String.eqb (ia_company_id a) (user_id u)
                         && (ia_status a =? 1)) (insurance_allocations (db w)) with
  | [] =>
      exists w',
        run (mysql mail_ok) (InsuranceController.createDataRequest body u) w
          = (Normal (Next (AppError "Patient is not connected to your insurance company" 403)), w')
        /\ db w' = db w
  | _ :: _ =>
      existsb (fun r => String.eqb (dr_request_id r) (dr_request_id row))
              (data_requests (db w)) = false ->
      existsb (fun c => String.eqb (ic_company_id c) (user_id u))
              (insurance_companies (db w)) = true ->
      existsb (fun p => String.eqb (pt_patient_id p) (InsuranceController.patient_id body))
              (patients (db w)) = true ->
      exists created w',
        run (mysql mail_ok) (InsuranceController.createDataRequest body u) w
          = (Normal (Json 201 (Some created)), w') /\
        DataRequestModel.rv_request created = row /\
        DataRequestModel.rv_status created = "pending" /\
        data_requests (db w') = data_requests (db w) ++ [row]
  end.
Proof.
  intros Hpid row. unfold InsuranceController.createDataRequest.
  rewrite run_try_catch, Hpid.
  rewrite run_bind, run_await. cbn [mysql].
  destruct (filter _ (insurance_allocations (db w))) as [| a0 rest].
  - rewrite run_bind, run_await. cbn [mysql bind run console_log]. eexists; split; reflexivity.
  - intros Hfresh Hc Hp.
    cbn [console_log bind]. cbn [run].
    unfold DataRequestModel.createDataRequest.
    cbn [bind run mysql DataRequestModel.rd_company_id DataRequestModel.rd_patient_id
         DataRequestModel.rd_purpose DataRequestModel.rd_date_range_start
         DataRequestModel.rd_date_range_end DataRequestModel.rd_created_by
         DataRequestModel.rd_request_details clock with_console db].
    rewrite run_bind, run_bind, run_await. cbn [mysql db with_console clock].
    change (dr_request_id row) with ("REQ" ++ slice_last 6 (toString (clock w)))%string in Hfresh.
    rewrite Hfresh, Hc, Hp. cbn [negb orb].
    rewrite run_getDataRequestById.
    cbn [db with_db with_console].
    destruct (select_fresh_data_request (db w) row Hfresh Hc Hp) as (pn & cn & others & Hsel).
    change (dr_request_id row) with ("REQ" ++ slice_last 6 (toString (clock w)))%string in Hsel.
    fold row. rewrite Hsel.
    rewrite run_bind.
    match goal with
    | |- context [run _ (AuditService.logAudit ?a ?b ?c ?d ?e) ?w0] =>
        destruct (run_logAudit mail_ok a b c d e w0)
          as (aid & w1 & -> & _ & Hdr & _)
    end.
    rewrite run_bind, run_await. cbn [mysql].
    rewrite run_bind, run_await. cbn [mysql].
    match goal with
    | |- context [run _ (?n ;;; Ret ?r) ?w0] =>
        destruct (@run_then_harmless _ mail_ok n r w0) as (w2 & -> & Hdb)
    end.
    + destruct (filter _ (staff (db w1))) as [| s ss]; [apply harmless_ret |].
      destruct (map pt_name _) as [| pn' pns]; [apply harmless_ret |].
      apply harmless_guarded, readonly_for_of. intro x.
      apply readonly_bind; [apply readonly_sendDataRequestNotificationEmail | intro; exact I].
    + eexists; exists w2. split; [reflexivity |].
      split; [reflexivity |]. split; [reflexivity |].
      rewrite Hdb, Hdr. reflexivity.
Qed.

(** C4, as the code has it.  The allocation gate sits in the two
    submission handlers of the insurance controller.
    [requestMedicalRecords] answers 403 and leaves the store as it was
    when the calling company has no approved allocation (status 1) with the
    patient, and otherwise inserts the request with status ['pending'] and
    answers 201.  [createDataRequest] answers 400 for an empty patient id
    before any check; for a non-empty one it answers 403 and leaves the
    store as it was when there is no approved allocation, and otherwise,
    when the generated request id is not taken and the company and the
    patient exist, inserts the request with status 0 (pending) and answers
    201 with the created request. *)
Theorem submit_is_gated_in_insurance_controller :
  forall (mail_ok : string -> bool) (w : world) (u : user),
    (forall (patientId : string) (requestDetails : list (string * string)),
        match filter (fun a => String.eqb (ia_patient_id a) patientId
                               && String.eqb (ia_company_id a) (user_id u)
                               && (ia_status a =? 1)) (insurance_allocations (db w)) with
        | [] =>
            exists w',
              run (mysql mail_ok)
                  (InsuranceController.requestMedicalRecords patientId requestDetails u) w
                = (Normal (Next (AppError "Patient is not connected to your insurance company"
                                          403)), w')
              /\ db w' = db w
        | _ :: _ =>
            exists w',
              run (mysql mail_ok)
                  (InsuranceController.requestMedicalRecords patientId requestDetails u) w
                = (Normal (Json 201 (next_id rr_id (record_requests (db w)))), w') /\
              record_requests (db w')
                = record_requests (db w) ++
                  [mkRecordRequest (next_id rr_id (record_requests (db w))) (user_id u) patientId
                                   (JSON_stringify requestDetails) "pending" (clock w)]
        end) /\
    (forall body : InsuranceController.createDataRequestBody,
        falsy (InsuranceController.patient_id body) = true ->
        run (mysql mail_ok) (InsuranceController.createDataRequest body u) w
          = (Normal (Next (AppError "Patient ID is required" 400)), w)) /\
    (forall body : InsuranceController.createDataRequestBody,
        falsy (InsuranceController.patient_id body) = false ->
        let row :=
          mkDataRequest ("REQ" ++ slice_last 6 (toString (clock w)))%string (user_id u)
                        (InsuranceController.patient_id body) (InsuranceController.purpose body)
                        (or_null (InsuranceController.date_range_start body))
                        (or_null (InsuranceController.date_range_end body))
                        0 (clock w) (user_id u)
                        (JSON_stringify (InsuranceController.request_details body)) None None in
        match filter (fun a => String.eqb (ia_patient_id a) (InsuranceController.patient_id body)
                               && String.eqb (ia_company_id a) (user_id u)
                               && (ia_status a =? 1)) (insurance_allocations (db w)) with
        | [] =>
            exists w',
              run (mysql mail_ok) (InsuranceController.createDataRequest body u) w
                = (Normal (Next (AppError "Patient is not connected to your insurance company"
                                          403)), w')
              /\ db w' = db w
        | _ :: _ =>
            existsb (fun r => String.eqb (dr_request_id r) (dr_request_id row))
                    (data_requests (db w)) = false ->
            existsb (fun c => String.eqb (ic_company_id c) (user_id u))
                    (insurance_companies (db w)) = true ->
            existsb (fun p => String.eqb (pt_patient_id p) (InsuranceController.patient_id body))
                    (patients (db w)) = true ->
            exists created w',
              run (mysql mail_ok) (InsuranceController.createDataRequest body u) w
                = (Normal (Json 201 (Some created)), w') /\
              DataRequestModel.rv_request created = row /\
              DataRequestModel.rv_status created = "pending" /\
              data_requests (db w') = data_requests (db w) ++ [row]
        end).
Proof.
  intros mail_ok w u. split; [| split].
  - intros patientId requestDetails. apply run_requestMedicalRecords.
  - intros body Hpid. unfold InsuranceController.createDataRequest.
    rewrite run_try_catch, Hpid. reflexivity.
  - intros body Hpid. apply run_createDataRequest, Hpid.
Qed.

Lemma submit_is_gated_in_insurance_controller_witness :
  (exists w',
      run (mysql Sample.mail_up)
          (InsuranceController.createDataRequest
             (InsuranceController.mkBody "PT002" "claim_verification" None None []) Sample.insurer)
          Sample.sample_world
        = (Normal (Next (AppError "Patient is not connected to your insurance company" 403)), w')
      /\ db w' = Sample.sample_db) /\
  (exists created w',
      run (mysql Sample.mail_up)
          (InsuranceController.createDataRequest
             (InsuranceController.mkBody "PT001" "claim_verification" None None []) Sample.insurer)
          Sample.sample_world
        = (Normal (Json 201 (Some created)), w') /\
      DataRequestModel.rv_status created = "pending" /\
      map dr_status (data_requests (db w')) = [1; 2; 0]).
Proof.
  pose proof (@submit_is_gated_in_insurance_controller Sample.mail_up Sample.sample_world
                Sample.insurer) as (_ & _ & H).
  split.
  - exact (H (InsuranceController.mkBody "PT002" "claim_verification" None None []) eq_refl).
  - destruct (H (InsuranceController.mkBody "PT001" "claim_verification" None None [])
                eq_refl eq_refl eq_refl eq_refl)
      as (created & w' & Hr & _ & Hs & Hd).
    exists created, w'. split; [exact Hr |]. split; [exact Hs |].
    rewrite Hd. reflexivity.
Defined.

(** C4 as stated fails, in both directions.  The data-request
    controller's [createDataRequest] takes the company from the request
    body and makes no allocation check: in the sample store the allocation
    of patient PT002 with company IN001 is still pending, and the
    submission is answered 201 and stored.  And an approved allocation does
    not make the insurance controller's [createDataRequest] succeed: the
    request id is made of the last six digits of the time in milliseconds,
    and when a request submitted a thousand seconds earlier holds that id
    the insertion is rejected as a duplicate. *)
Lemma ungated_submission_creates_request :
  let outcome :=
    run (mysql Sample.mail_up)
        (DataRequestController.createDataRequest
           (DataRequestModel.mkRequestData "IN001" "PT002" "claim_verification" None None
                                           EmptyString [])
           Sample.insurer)
        Sample.sample_world in
  let collision :=
    run (mysql Sample.mail_up)
        (InsuranceController.createDataRequest
           (InsuranceController.mkBody "PT001" "claim_verification" None None []) Sample.insurer)
        Sample.busy_world in
  filter (fun a => String.eqb (ia_patient_id a) "PT002" && String.eqb (ia_company_id a) "IN001"
                   && (ia_status a =? 1)) (insurance_allocations Sample.sample_db) = [] /\
  ~ (exists e, fst outcome = Normal (Next e)) /\
  map (fun r => (dr_company_id r, dr_patient_id r, dr_status r))
      (data_requests (db (snd outcome)))
    = [("IN001", "PT001", 1); ("IN001", "PT001", 2); ("IN001", "PT002", 0)] /\
  map ia_status
      (filter (fun a => String.eqb (ia_patient_id a) "PT001" && String.eqb (ia_company_id a) "IN001"
                        && (ia_status a =? 1)) (insurance_allocations (db Sample.busy_world)))
    = [1] /\
  fst collision = Normal (Next (DbError "ER_DUP_ENTRY")) /\
  data_requests (db (snd collision)) = data_requests (db Sample.busy_world).
Proof.
  vm_compute. repeat split. intros [e H]; discriminate H.
Qed.

(** * Further properties *)

(** ** Status words *)

(** X1.  The status codes 0, 1 and 2 survive formatting and parsing; parsing
    ignores case, and every word that is not one of the three status words
    parses to 0, so it formats back as ['pending']; every other code
    formats as ['unknown'], which parses to 0.  The allocation model and
    the data-request model carry the same two functions. *)
Theorem status_words_round_trip :
  forall (n : Z) (s : string),
    (0 <= n <= 2 -> DataRequestModel.parseStatus (DataRequestModel.formatStatus n) = n) /\
    (~ 0 <= n <= 2 ->
     DataRequestModel.formatStatus n = "unknown" /\
     DataRequestModel.parseStatus (DataRequestModel.formatStatus n) = 0) /\
    DataRequestModel.formatStatus (DataRequestModel.parseStatus s)
      = (if String.eqb (toLowerCase s) "approved" then "approved"
         else if String.eqb (toLowerCase s) "rejected" then "rejected"
         else "pending") /\
    InsuranceAllocationModel.parseStatus s = DataRequestModel.parseStatus s /\
    InsuranceAllocationModel.formatStatus n = DataRequestModel.formatStatus n.
Proof.
  intros n s. split; [| split; [| split; [| split]]].
  - intro Hn. assert (n = 0 \/ n = 1 \/ n = 2) as [-> | [-> | ->]] by lia; reflexivity.
  - intro Hn. assert (Hu : DataRequestModel.formatStatus n = "unknown").
    { destruct n as [| p | p]; [lia | | reflexivity].
      destruct p as [[p | p |] | [p | p |] |]; try reflexivity; lia. }
    rewrite Hu. split; reflexivity.
  - unfold DataRequestModel.parseStatus.
    destruct (String.eqb (toLowerCase s) "pending") eqn:Hp.
    + apply String.eqb_eq in Hp. rewrite Hp. reflexivity.
    + destruct (String.eqb (toLowerCase s) "approved"); [reflexivity |].
      destruct (String.eqb (toLowerCase s) "rejected"); reflexivity.
  - reflexivity.
  - reflexivity.
Qed.

Lemma status_words_round_trip_witness :
  DataRequestModel.parseStatus (DataRequestModel.formatStatus 2) = 2 /\
  DataRequestModel.formatStatus (DataRequestModel.parseStatus "APPROVED") = "approved" /\
  DataRequestModel.parseStatus (DataRequestModel.formatStatus 7) = 0.
Proof.
  pose proof (status_words_round_trip 2 "APPROVED") as (H1 & _ & H3 & _).
  pose proof (status_words_round_trip 7 "x") as (_ & H2 & _).
  split; [apply H1; lia |]. split; [exact H3 |]. apply H2. lia.
Defined.

(** ** What the client is answered *)

Lemma AppError_status_checked :
  forallb (fun k => let n := 100 + Z.of_nat k in
                    Bool.eqb (String.eqb (AppError_status n) "fail")
                             ((400 <=? n) && (n <=? 499)))
          (seq 0 900) = true.
Proof. vm_compute. reflexivity. Qed.

(** X2.  For every status code of three digits, an [AppError] is marked
    ['fail'] exactly when the code is a 4xx code, and ['error'] otherwise;
    the error middleware answers an [AppError] with its own code, mark and
    message, in production as elsewhere. *)
Theorem AppError_is_answered_as_built :
  forall (statusCode : Z) (message : string) (production : bool),
    100 <= statusCode <= 999 ->
    (AppError_status statusCode = "fail" <-> 400 <= statusCode <= 499) /\
    (AppError_status statusCode = "error" <-> ~ 400 <= statusCode <= 499) /\
    errorHandler production (thrown_of (AppError message statusCode))
      = mkErrorResponse statusCode (AppError_status statusCode) message.
Proof.
  intros statusCode message production Hrange.
  pose proof AppError_status_checked as Hall.
  rewrite forallb_forall in Hall.
  specialize (Hall (Z.to_nat (statusCode - 100))).
  cbv zeta in Hall. rewrite Z2Nat.id in Hall by lia.
  replace (100 + (statusCode - 100)) with statusCode in Hall by lia.
  assert (Hin : In (Z.to_nat (statusCode - 100)) (seq 0 900)) by (apply in_seq; lia).
  specialize (Hall Hin). apply Bool.eqb_prop in Hall.
  assert (Hcases : AppError_status statusCode = "fail" \/ AppError_status statusCode = "error").
  { unfold AppError_status. destruct (startsWith _ _); auto. }
  assert (Hfail : AppError_status statusCode = "fail" <-> 400 <= statusCode <= 499).
  { rewrite <- String.eqb_eq, Hall, andb_true_iff, !Z.leb_le. tauto. }
  split; [exact Hfail |]. split; [| reflexivity].
  destruct Hcases as [H | H]; rewrite H in *; split; intro H'.
  - discriminate H'.
  - exfalso. apply H', Hfail. reflexivity.
  - intro Hc. apply Hfail in Hc. discriminate Hc.
  - reflexivity.
Qed.

Lemma AppError_is_answered_as_built_witness :
  AppError_status 403 = "fail" /\
  errorHandler true (thrown_of (AppError "Patient is not connected to your insurance company" 403))
    = mkErrorResponse 403 "fail" "Patient is not connected to your insurance company".
Proof.
  pose proof (@AppError_is_answered_as_built 403
                "Patient is not connected to your insurance company" true) as H.
  destruct H as (Hfail & _ & Hanswer); [lia |].
  split; [apply Hfail; lia |]. rewrite Hanswer. reflexivity.
Defined.

Lemma run_updateInsuranceAllocationStatus (mail_ok : string -> bool) (w : world)
      (id : Z) (status : string) (notes : option string) (u : user) :
  match filter (fun a => ia_id a =? id) (insurance_allocations (db w)) with
  | [] =>
      run (mysql mail_ok) (AdminController.updateInsuranceAllocationStatus id status notes u) w
        = (Normal (Next (Error "Insurance allocation not found")), w)
  | row0 :: _ =>
      exists view w',
        run (mysql mail_ok) (AdminController.updateInsuranceAllocationStatus id status notes u) w
          = (Normal (Json 200 view), w') /\
        insurance_allocations (db w')
          = map (update_allocation (InsuranceAllocationModel.parseStatus status)
                   (if truthy notes then notes else ia_notes row0) id)
                (insurance_allocations (db w))
  end.
Proof.
  unfold AdminController.updateInsuranceAllocationStatus.
  rewrite run_try_catch, run_bind.
  pose proof (run_updateAllocationStatus mail_ok w id
                (InsuranceAllocationModel.parseStatus status) notes) as H.
  destruct (filter _ (insurance_allocations (db w))) as [| row0 rest].
  - rewrite H. reflexivity.
  - destruct H as (view & w1 & -> & Hdb & _).
    rewrite run_bind.
    match goal with
    | |- context [run _ (AuditService.logAudit ?a ?b ?c ?d ?e) ?w0] =>
        destruct (run_logAudit mail_ok a b c d e w0)
          as (aid & w2 & -> & Hia & _)
    end.
    exists view, w2. split; [reflexivity |]. rewrite Hia, Hdb. reflexivity.
Qed.



(** ** The role gate *)

Lemma startsWith_spec (p s : string) :
  startsWith p s = true <-> exists post, s = (p ++ post)%string.
Proof.
  revert s. induction p as [| a p IH]; intros s; cbn.
  - split; [intros _; exists s; reflexivity | reflexivity].
  - destruct s as [| b s].
    + split; [discriminate | intros (post & H); discriminate H].
    + rewrite Bool.andb_true_iff, Ascii.eqb_eq, IH. split.
      * intros (-> & post & ->). exists post. reflexivity.
      * intros (post & H). injection H as -> ->. split; [reflexivity | exists post; reflexivity].
Qed.

Lemma includes_string_spec (s sub : string) :
  includes_string s sub = true <-> exists pre post, s = (pre ++ sub ++ post)%string.
Proof.
  induction s as [| c s IH].
  - cbn. rewrite Bool.orb_false_r, startsWith_spec. split.
    + intros (post & H). exists EmptyString, post. exact H.
    + intros (pre & post & H). destruct pre; [exists post; exact H | discriminate H].
  - cbn [includes_string]. rewrite Bool.orb_true_iff, IH, startsWith_spec. split.
    + intros [(post & H) | (pre & post & H)].
      * exists EmptyString, post. exact H.
      * exists (String c pre), post. cbn. rewrite H. reflexivity.
    + intros (pre & post & H). destruct pre as [| c' pre].
      * left. exists post. exact H.
      * right. cbn in H. injection H as _ H. exists pre, post. exact H.
Qed.

Lemma existsb_eqb_In (x : string) (l : list string) :
  existsb (String.eqb x) l = true <-> In x l.
Proof.
  rewrite existsb_exists. split.
  - intros (y & Hy & Heq). apply String.eqb_eq in Heq. subst. exact Hy.
  - intros H. exists x. split; [exact H | apply String.eqb_refl].
Qed.

(** X4.  [checkRole] answers 401 without a user and otherwise 403 or [next()];
    with an array it lets through exactly the roles listed, with a string
    it lets through every role that occurs in the string as a substring. *)
Theorem checkRole_passes_by_occurrence :
  forall (u : req_user),
    (forall allowedRoles,
        checkRole allowedRoles None = Refuse (AppError "Authentication required" 401)) /\
    (forall allowedRoles,
        checkRole allowedRoles (Some u) = Proceed \/
        checkRole allowedRoles (Some u)
          = Refuse (AppError "You do not have permission to perform this action" 403)) /\
    (forall roles,
        checkRole (RolesArray roles) (Some u) = Proceed <-> In (ru_role u) roles) /\
    (forall roles,
        checkRole (RolesString roles) (Some u) = Proceed
        <-> exists pre post, roles = (pre ++ ru_role u ++ post)%string).
Proof.
  intros u. split; [reflexivity |]. split; [| split].
  - intros allowedRoles. unfold checkRole.
    destruct (includes allowedRoles (ru_role u)); cbn; [left | right]; reflexivity.
  - intros roles. unfold checkRole. cbn [includes]. rewrite <- existsb_eqb_In.
    destruct (existsb _ roles); cbn; split; (reflexivity || discriminate).
  - intros roles. unfold checkRole. cbn [includes]. rewrite <- includes_string_spec.
    destruct (includes_string roles (ru_role u)); cbn; split; (reflexivity || discriminate).
Qed.

(** X5.  The routers' gates: an administrator is refused with 403 by the
    insurers' router and by the doctors' router, whose second argument
    ['admin'] is dropped, and let through by the administrators' and the
    records' gates; the insurers' gate lets through exactly the substrings of
    ['insurance'], the records' gate exactly ['admin'] and ['doctor']. *)
Theorem routers_drop_second_role :
  forall (id email name : string) (u : req_user),
    let administrator := mkReqUser id email "admin" name in
    let forbidden := Refuse (AppError "You do not have permission to perform this action" 403) in
    insurance_routes_gate (Some administrator) = forbidden /\
    doctor_routes_gate (Some administrator) = forbidden /\
    admin_routes_gate (Some administrator) = Proceed /\
    record_routes_gate (Some administrator) = Proceed /\
    (insurance_routes_gate (Some u) = Proceed
     <-> exists pre post, "insurance" = (pre ++ ru_role u ++ post)%string) /\
    (record_routes_gate (Some u) = Proceed <-> ru_role u = "admin" \/ ru_role u = "doctor").
Proof.
  intros id email name u administrator forbidden.
  do 4 (split; [reflexivity |]). split.
  - unfold insurance_routes_gate, checkRole. cbn [includes]. rewrite <- includes_string_spec.
    destruct (includes_string _ _); cbn; split; (reflexivity || discriminate).
  - unfold record_routes_gate, checkRole. cbn [includes existsb]. split.
    + destruct (String.eqb_spec (ru_role u) "admin") as [-> | _]; [left; reflexivity |].
      destruct (String.eqb_spec (ru_role u) "doctor") as [-> | _]; [right; reflexivity |].
      cbn. discriminate.
    + intros [H | H]; rewrite H; reflexivity.
Qed.

(** ** Authentication *)

Lemma append_assoc_string (a b c : string) :
  ((a ++ b) ++ c = a ++ (b ++ c))%string.
Proof. induction a as [| x a IH]; cbn; [reflexivity | rewrite IH; reflexivity]. Qed.

Lemma append_empty_r (a : string) : (a ++ EmptyString)%string = a.
Proof. induction a as [| x a IH]; cbn; [reflexivity | rewrite IH; reflexivity]. Qed.

Lemma split_space_from_word (t current rest : string) :
  all_chars (fun c => negb (Ascii.eqb c " "%char)) t = true ->
  rest = EmptyString \/ startsWith " " rest = true ->
  exists more, split_space_from current (t ++ rest)%string = (current ++ t)%string :: more.
Proof.
  revert current. induction t as [| c t IH]; intros current Ht Hrest.
  - cbn [append]. rewrite append_empty_r. destruct Hrest as [-> | Hrest].
    + exists []. reflexivity.
    + destruct rest as [| r rest]; [discriminate Hrest |].
      cbn [startsWith] in Hrest. apply Bool.andb_true_iff in Hrest. destruct Hrest as [Hr _].
      apply Ascii.eqb_eq in Hr. subst r.
      exists (split_space_from EmptyString rest). reflexivity.
  - cbn [all_chars] in Ht. apply Bool.andb_true_iff in Ht. destruct Ht as [Hc Ht].
    cbn [append split_space_from].
    destruct (Ascii.eqb c " "%char); [discriminate Hc |].
    destruct (IH (current ++ String c EmptyString)%string Ht Hrest) as (more & ->).
    exists more. rewrite append_assoc_string. reflexivity.
Qed.


(** X7.  The token [authenticate] verifies is the word after ['Bearer ']: what
    follows the next space is ignored, and when [verifyToken] returns a
    payload with an id for that word, the user is attached with the
    payload's fields and the role ['user'] when the payload has none. *)
Theorem authenticate_accepts_bearer_token :
  forall (verifyToken : string -> completion (option decoded_token))
         (token rest : string) (decoded : decoded_token) (id : string),
    token <> EmptyString ->
    all_chars (fun c => negb (Ascii.eqb c " "%char)) token = true ->
    rest = EmptyString \/ startsWith " " rest = true ->
    verifyToken token = Normal (Some decoded) ->
    tok_id decoded = Some id ->
    id <> EmptyString ->
    authenticate verifyToken (Some ("Bearer " ++ token ++ rest)%string)
      = Authenticated (mkReqUser id (tok_email decoded) (or_else (tok_role decoded) "user")
                                 (tok_name decoded)).
Proof.
  intros verifyToken token rest decoded id Htoken Hword Hrest Hv Hid Hne.
  unfold authenticate.
  change (falsy ("Bearer " ++ token ++ rest)%string) with false.
  change (startsWith "Bearer " ("Bearer " ++ token ++ rest)%string) with true.
  cbn [orb negb].
  change (split_space ("Bearer " ++ token ++ rest)%string)
    with ("Bearer" :: split_space_from EmptyString (token ++ rest)%string).
  destruct (@split_space_from_word token EmptyString rest Hword Hrest) as (more & ->).
  cbn [nth_error append].
  destruct token as [| c token]; [contradiction Htoken; reflexivity |].
  cbn [falsy]. rewrite Hv. unfold or_null. rewrite Hid.
  destruct id as [| c' id]; [contradiction Hne; reflexivity |].
  reflexivity.
Qed.

Lemma authenticate_accepts_bearer_token_witness :
  authenticate SampleAuth.verifyToken (Some "Bearer header.payload.signature trailing words")
    = Authenticated (mkReqUser "INS001" "claims@insurer.example" "user" "Insurer").
Proof.
  exact (@authenticate_accepts_bearer_token SampleAuth.verifyToken
           "header.payload.signature" " trailing words" SampleAuth.payload "INS001"
           ltac:(discriminate) eq_refl (or_intror eq_refl) eq_refl eq_refl ltac:(discriminate)).
Defined.

(** ** The field cipher on the write path *)

Lemma encrypt_output_shape (enc dec : Buffer -> Buffer -> Buffer) (key iv : Buffer) (v : string) :
  block_cipher_contract enc dec ->
  List.length key = 32%nat -> List.length iv = 16%nat ->
  let c := toString_hex (cbc_encrypt enc key iv (Buffer_from_utf8 v)) in
  String.length c = (32 * S (List.length (Buffer_from_utf8 v) / 16))%nat /\
  falsy c = false /\ test_hex_32 c = true.
Proof.
  intros Hc Hk Hi c.
  assert (Hlen : String.length c = (32 * S (List.length (Buffer_from_utf8 v) / 16))%nat).
  { unfold c. rewrite length_toString_hex.
    rewrite (@length_cbc_encrypt enc dec Hc key Hk iv _ Hi). lia. }
  split; [exact Hlen |]. split.
  - apply falsy_false_of_length. lia.
  - unfold test_hex_32, c. rewrite all_hex_toString_hex, andb_true_r.
    apply Nat.leb_le. fold c. lia.
Qed.

Lemma length_Buffer_from_utf8 (s : string) :
  List.length (Buffer_from_utf8 s) = String.length s.
Proof.
  unfold Buffer_from_utf8, list_byte_of_string.
  induction s as [| c s IH]; cbn; [reflexivity | rewrite IH; reflexivity].
Qed.

(** X8.  What the record model stores with [encrypt] it reads back with its
    guarded read ([isLikelyEncrypted(x) ? decrypt(x) : x]): with a 32-byte
    key and a 16-byte IV the composition returns the value, whether or not
    encryption is disabled.  With encryption enabled the stored form of a
    non-empty value is a hexadecimal string of whole blocks, at least 32
    characters long and longer than the value (counted in UTF-8 bytes),
    which [isLikelyEncrypted] accepts. *)
Theorem guarded_read_round_trip :
  forall (enc dec : Buffer -> Buffer -> Buffer) (disabled : bool) (key iv : Buffer) (v : string),
    block_cipher_contract enc dec ->
    List.length key = 32%nat -> List.length iv = 16%nat ->
    (x <- encrypt enc call disabled key iv v ;; readSensitive dec call disabled key iv x) = Ret v /\
    (disabled = false -> v <> EmptyString ->
     exists c,
       encrypt enc call disabled key iv v = Ret c /\
       isLikelyEncrypted c = true /\
       String.length c = (32 * S (String.length v / 16))%nat /\
       (String.length v < String.length c)%nat).
Proof.
  intros enc dec disabled key iv v Hc Hk Hi.
  destruct (@encrypt_output_shape enc dec key iv v Hc Hk Hi) as (Hlen & Hfc & H32).
  rewrite length_Buffer_from_utf8 in Hlen.
  split.
  - destruct (falsy v) eqn:Hf.
    { unfold encrypt, readSensitive. rewrite Hf. cbn. rewrite Hf. reflexivity. }
    destruct disabled.
    { unfold encrypt, readSensitive, decrypt. rewrite Hf, Bool.orb_true_r. cbn.
      rewrite Hf, Bool.orb_true_r. destruct (isLikelyEncrypted v); reflexivity. }
    rewrite encrypt_enabled by assumption. cbn [bind].
    unfold readSensitive, isLikelyEncrypted. rewrite Hfc, H32. cbn [negb andb].
    rewrite decrypt_hex by (try assumption; apply test_hex_plus_of_32, H32).
    rewrite Hk, Hi. cbn [Nat.eqb negb orb].
    rewrite length_toString_hex, odd_double.
    rewrite Buffer_from_hex_toString_hex.
    rewrite (@cbc_decrypt_encrypt enc dec Hc key Hk iv _ Hi).
    rewrite toString_utf8_Buffer_from_utf8. reflexivity.
  - intros -> Hv.
    assert (Hf : falsy v = false) by (destruct v; [contradiction Hv; reflexivity | reflexivity]).
    eexists. split; [apply encrypt_enabled; assumption |].
    unfold isLikelyEncrypted. rewrite Hfc. split; [exact H32 |]. split; [exact Hlen |].
    rewrite Hlen.
    pose proof (Nat.div_mod_eq (String.length v) 16) as Hd.
    pose proof (Nat.mod_upper_bound (String.length v) 16 ltac:(discriminate)) as Hm.
    lia.
Qed.

Lemma guarded_read_round_trip_witness :
  (x <- encrypt xor_block call false default_key default_iv "penicillin allergy" ;;
   readSensitive xor_block call false default_key default_iv x) = Ret "penicillin allergy".
Proof.
  exact (proj1 (@guarded_read_round_trip xor_block xor_block false default_key default_iv
                  "penicillin allergy" xor_block_contract eq_refl eq_refl)).
Defined.

(** X9.  With encryption enabled and a key that is not 32 bytes or an IV that
    is not 16 bytes long, [encrypt] does not raise: it writes one error
    line and returns the value as it was given, in clear; [decrypt] under
    the same configuration answers every hexadecimal string with the fixed
    sentinel and returns anything else unchanged. *)
Theorem encrypt_fails_open :
  forall (enc dec : Buffer -> Buffer -> Buffer) (E : Type -> Type) (key iv : Buffer) (v : string),
    List.length key <> 32%nat \/ List.length iv <> 16%nat ->
    v <> EmptyString ->
    encrypt enc E false key iv v = Console ErrorLevel "Encryption error:" (Ret v) /\
    decrypt dec E false key iv v
      = (if test_hex_plus v
         then Console ErrorLevel "Decryption error:" (Ret "[Encrypted content]")
         else Ret v).
Proof.
  intros enc dec E key iv v Hbad Hv.
  assert (Hf : falsy v = false) by (destruct v; [contradiction Hv; reflexivity | reflexivity]).
  assert (Hb : negb (List.length key =? 32)%nat || negb (List.length iv =? 16)%nat = true).
  { destruct Hbad as [H | H]; apply Nat.eqb_neq in H; rewrite H; cbn;
      [reflexivity | apply Bool.orb_true_r]. }
  split.
  - unfold encrypt, createCipheriv. rewrite Hf. cbn [orb].
    destruct (List.length key =? 32)%nat; cbn [negb orb] in Hb |- *; [| reflexivity].
    rewrite Hb. reflexivity.
  - destruct (test_hex_plus v) eqn:Hx.
    + rewrite decrypt_hex by assumption. rewrite Hb. reflexivity.
    + apply decrypt_identity_on_non_hex, Hx.
Qed.

Lemma encrypt_fails_open_witness :
  encrypt xor_block call false (Buffer_from_utf8 "short key") default_iv "penicillin allergy"
    = Console ErrorLevel "Encryption error:" (Ret "penicillin allergy").
Proof.
  refine (proj1 (@encrypt_fails_open xor_block xor_block call (Buffer_from_utf8 "short key")
                   default_iv "penicillin allergy" _ _)).
  - left. vm_compute. discriminate.
  - discriminate.
Defined.

(** ** The status word of a decision *)

Lemma stored_status_after_update (status : Z) (notes : option string) (id : Z)
      (t : list allocation) :
  map ia_status (filter (fun a => ia_id a =? id) (map (update_allocation status notes id) t))
    = map (fun _ => status) (filter (fun a => ia_id a =? id) t).
Proof.
  induction t as [| a t IH]; [reflexivity |].
  cbn [map filter]. unfold update_allocation at 1 2.
  destruct (ia_id a =? id) eqn:Ha; cbn [ia_id]; rewrite Ha; cbn [map ia_status]; rewrite IH;
    reflexivity.
Qed.

(** X10.  The two decision paths read the status word differently.  The
    insurer's [updateConnectionStatus] stores 1 (approved) for the word
    ['approved'] exactly as written and 2 (rejected) for every other word;
    the administrator's [updateInsuranceAllocationStatus] compares in
    lower case and stores 0 (pending) for every word it does not know.
    Both answer 200 for an allocation of the calling company. *)
Theorem status_word_is_stored_two_ways :
  forall (mail_ok : string -> bool) (w : world) (id : Z) (status : string)
         (notes : option string) (u : user) (row : allocation),
    In row (insurance_allocations (db w)) ->
    ia_id row = id -> ia_company_id row = user_id u ->
    let stored {A} (handler : js (http_response A)) :=
      map ia_status
          (filter (fun a => ia_id a =? id)
                  (insurance_allocations (db (snd (run (mysql mail_ok) handler w))))) in
    let rows := filter (fun a => ia_id a =? id) (insurance_allocations (db w)) in
    let by_insurer := if String.eqb status "approved" then 1 else 2 in
    let by_admin := InsuranceAllocationModel.parseStatus status in
    rows <> [] /\
    client_status false
      (fst (run (mysql mail_ok) (InsuranceController.updateConnectionStatus id status notes u) w))
      = 200 /\
    client_status false
      (fst (run (mysql mail_ok)
                (AdminController.updateInsuranceAllocationStatus id status notes u) w))
      = 200 /\
    stored (InsuranceController.updateConnectionStatus id status notes u)
      = map (fun _ => by_insurer) rows /\
    stored (AdminController.updateInsuranceAllocationStatus id status notes u)
      = map (fun _ => by_admin) rows /\
    (by_insurer = 1 <-> status = "approved") /\
    (by_admin = 1 <-> toLowerCase status = "approved") /\
    (by_admin = 2 <-> toLowerCase status = "rejected") /\
    (by_admin = 0 <-> toLowerCase status <> "approved" /\ toLowerCase status <> "rejected").
Proof.
  intros mail_ok w id status notes u row Hin Hid Hco stored rows by_insurer by_admin.
  assert (Hrows : In row rows).
  { unfold rows. apply filter_In. split; [exact Hin |]. apply Z.eqb_eq, Hid. }
  assert (Hown : In row (filter (fun a => (ia_id a =? id)
                                         && String.eqb (ia_company_id a) (user_id u))
                                (insurance_allocations (db w)))).
  { apply filter_In. split; [exact Hin |].
    apply andb_true_iff. split; [apply Z.eqb_eq, Hid | apply String.eqb_eq, Hco]. }
  pose proof (run_updateConnectionStatus mail_ok w id status notes u) as H1.
  pose proof (run_updateInsuranceAllocationStatus mail_ok w id status notes u) as H2.
  fold rows in H2.
  destruct (filter (fun a => (ia_id a =? id) && _) (insurance_allocations (db w)))
    as [| a0 rest0]; [contradiction Hown |].
  destruct rows as [| r0 rest] eqn:Erows; [contradiction Hrows |].
  destruct H1 as (w1 & Hr1 & Hdb1). destruct H2 as (view & w2 & Hr2 & Hdb2).
  unfold stored. rewrite Hr1, Hr2. cbn [fst snd client_status].
  rewrite Hdb1, Hdb2, !stored_status_after_update.
  change (filter (fun a => ia_id a =? id) (insurance_allocations (db w))) with rows.
  rewrite Erows.
  split; [discriminate |]. do 4 (split; [reflexivity |]).
  unfold by_insurer, by_admin, InsuranceAllocationModel.parseStatus. cbv zeta.
  split; [| split; [| split]].
  - destruct (String.eqb_spec status "approved"); split; (congruence || discriminate || reflexivity || auto).
  - destruct (String.eqb_spec (toLowerCase status) "pending") as [-> | _];
      [split; discriminate |].
    destruct (String.eqb_spec (toLowerCase status) "approved") as [-> | Hn];
      [split; reflexivity |].
    destruct (String.eqb_spec (toLowerCase status) "rejected") as [-> | _];
      split; (discriminate || contradiction || auto).
  - destruct (String.eqb_spec (toLowerCase status) "pending") as [-> | _];
      [split; discriminate |].
    destruct (String.eqb_spec (toLowerCase status) "approved") as [-> | _];
      [split; discriminate |].
    destruct (String.eqb_spec (toLowerCase status) "rejected") as [-> | Hn];
      split; (reflexivity || discriminate || contradiction || auto).
  - destruct (String.eqb_spec (toLowerCase status) "pending") as [-> | _];
      [split; [intros _; split; discriminate | reflexivity] |].
    destruct (String.eqb_spec (toLowerCase status) "approved") as [-> | Hn1];
      [split; [discriminate | intros [H _]; contradiction H; reflexivity] |].
    destruct (String.eqb_spec (toLowerCase status) "rejected") as [-> | Hn2];
      [split; [discriminate | intros [_ H]; contradiction H; reflexivity] |].
    split; [intros _; split; assumption | reflexivity].
Qed.

Lemma status_word_is_stored_two_ways_witness :
  map ia_status
      (filter (fun a => ia_id a =? 1)
              (insurance_allocations
                 (db (snd (run (mysql Sample.mail_up)
                               (InsuranceController.updateConnectionStatus
                                  1 "Approved" None Sample.insurer)
                               Sample.sample_world))))) = [2] /\
  map ia_status
      (filter (fun a => ia_id a =? 1)
              (insurance_allocations
                 (db (snd (run (mysql Sample.mail_up)
                               (AdminController.updateInsuranceAllocationStatus
                                  1 "Approved" None Sample.insurer)
                               Sample.sample_world))))) = [1].
Proof.
  pose proof (@status_word_is_stored_two_ways Sample.mail_up Sample.sample_world 1 "Approved"
                None Sample.insurer (mkAllocation 1 "IN001" "PT001" 1 None)
                (or_introl eq_refl) eq_refl eq_refl) as H.
  cbv zeta in H. destruct H as (_ & _ & _ & H1 & H2 & _).
  split; [exact H1 | exact H2].
Defined.

(** ** Who reads what *)

Lemma run_logAudit_eq (mail_ok : string -> bool) (userId action resourceType : string)
      (resourceId : ident) (details : list (string * string)) (w : world) :
  run (mysql mail_ok) (AuditService.logAudit userId action resourceType resourceId details) w
    = (Normal (Some (next_id al_id (audit_logs (db w)))),
       with_db w (set_audit_logs (db w)
                    (audit_logs (db w) ++
                     [mkAuditLog (next_id al_id (audit_logs (db w))) userId action resourceType
                                 resourceId (JSON_stringify details) (clock w)]))).
Proof. reflexivity. Qed.

Lemma in_select_data_request_joined (d : database) (id : string) (r : data_request)
      (pn cn : string) :
  In (r, pn, cn) (select_data_request_joined d id) ->
  In r (data_requests d) /\ dr_request_id r = id.
Proof.
  unfold select_data_request_joined. intro H.
  apply in_flat_map in H as (r' & Hr' & H).
  apply in_flat_map in H as (p & _ & H).
  apply in_map_iff in H as (c & Heq & _). injection Heq as -> _ _.
  apply filter_In in Hr' as [Hin Hid]. split; [exact Hin | apply String.eqb_eq, Hid].
Qed.

Lemma in_select_approved_records (d : database) (patient_id request_id : string)
      (rj : record_joined) :
  In rj (select_approved_records d patient_id request_id) ->
  In (rj_record rj) (records d) /\
  rec_patient_id (rj_record rj) = patient_id /\
  exists g, In g (approved_records d) /\ ar_request_id g = request_id /\
            ar_record_id g = rec_record_id (rj_record rj).
Proof.
  unfold select_approved_records, join_record. intro H.
  apply in_flat_map in H as (r & Hr & H).
  apply in_flat_map in H as (p & _ & H).
  apply in_map_iff in H as (s & <- & _). cbn [rj_record].
  apply filter_In in Hr as [Hin Hc]. apply andb_true_iff in Hc as [Hp Hg].
  split; [exact Hin |]. split; [apply String.eqb_eq, Hp |].
  apply existsb_exists in Hg as (g & Hgin & Hg). apply andb_true_iff in Hg as [H1 H2].
  exists g. split; [exact Hgin |]. split; apply String.eqb_eq; assumption.
Qed.

(** X11.  A 200 answer of the insurer's [getDataRequestById] carries a stored
    request with the asked id that belongs to the calling company, and
    leaves one audit row naming the caller; every other answer is a 404 or
    a 403 and leaves the world as it was.  The administrator's
    [getDataRequestById] answers 200 for every request that has its
    patient and company rows, whoever owns it, and writes no audit row. *)
Theorem insurer_reads_only_own_request :
  forall (mail_ok : string -> bool) (w : world) (id : string) (u : user),
    match run (mysql mail_ok) (InsuranceControllerReads.getDataRequestById id u) w with
    | (Normal (Json status view), w') =>
        status = 200 /\
        In (DataRequestModel.rv_request view) (data_requests (db w)) /\
        dr_request_id (DataRequestModel.rv_request view) = id /\
        dr_company_id (DataRequestModel.rv_request view) = user_id u /\
        w' = with_db w (set_audit_logs (db w)
                          (audit_logs (db w) ++
                           [mkAuditLog (next_id al_id (audit_logs (db w))) (user_id u) "view"
                                       "data_request" (IdStr id) "{}" (clock w)]))
    | (Normal (Next err), w') =>
        (err = AppError "Data request not found" 404 \/
         err = AppError "You do not have permission to access this data request" 403) /\
        w' = w
    | (Abrupt _, _) => False
    end /\
    match run (mysql mail_ok) (AdminControllerReads.getDataRequestById id) w with
    | (Normal (Json status view), w') =>
        status = 200 /\ w' = w /\
        In (DataRequestModel.rv_request view) (data_requests (db w)) /\
        dr_request_id (DataRequestModel.rv_request view) = id
    | (Normal (Next err), w') =>
        err = AppError "Data request not found" 404 /\ w' = w /\
        select_data_request_joined (db w) id = []
    | (Abrupt _, _) => False
    end /\
    (forall r pn cn rest,
        select_data_request_joined (db w) id = (r, pn, cn) :: rest ->
        client_status false
          (fst (run (mysql mail_ok) (InsuranceControllerReads.getDataRequestById id u) w))
          = (if String.eqb (dr_company_id r) (user_id u) then 200 else 403) /\
        client_status false
          (fst (run (mysql mail_ok) (AdminControllerReads.getDataRequestById id) w)) = 200).
Proof.
  intros mail_ok w id u.
  unfold InsuranceControllerReads.getDataRequestById, AdminControllerReads.getDataRequestById.
  rewrite !run_try_catch, !run_bind, run_getDataRequestById.
  destruct (select_data_request_joined (db w) id) as [| [[r pn] cn] rest] eqn:Hsel.
  - cbn. split; [auto |]. split; [auto |]. intros r0 pn0 cn0 rest0 H0. discriminate H0.
  - assert (Hpos : forall r' pn' cn' rest',
               (r, pn, cn) :: rest = (r', pn', cn') :: rest' -> r' = r)
      by (intros r' pn' cn' rest' H; injection H as -> _ _ _; reflexivity).
    assert (Hin : In (r, pn, cn) (select_data_request_joined (db w) id))
      by (rewrite Hsel; left; reflexivity).
    apply in_select_data_request_joined in Hin as [Hin Hid].
    cbn [DataRequestModel.rv_request].
    destruct (String.eqb_spec (dr_company_id r) (user_id u)) as [Hco | Hco]; cbn [negb].
    + rewrite run_bind, run_logAudit_eq. cbn [bind run fst snd client_status].
      split; [auto |]. split; [auto |].
      intros r' pn' cn' rest' H. rewrite (Hpos _ _ _ _ H).
      destruct (String.eqb_spec (dr_company_id r) (user_id u)); [auto | contradiction].
    + cbn [bind run fst snd client_status]. split; [auto |]. split; [auto |].
      intros r' pn' cn' rest' H. rewrite (Hpos _ _ _ _ H).
      destruct (String.eqb_spec (dr_company_id r) (user_id u)); [contradiction | auto].
Qed.

(** X12.  A 200 answer of [getApprovedRecords] carries a stored request with
    the asked id that belongs to the calling company and has status 1
    (approved); every record it discloses is a stored record of that
    request's patient with a grant row for the request; one audit row with
    the number of records is added.  Every other answer is the 404, and
    leaves the world as it was. *)
Theorem getApprovedRecords_discloses_only_granted_records :
  forall (mail_ok : string -> bool) (w : world) (requestId : string) (u : user),
    match run (mysql mail_ok) (InsuranceController.getApprovedRecords requestId u) w with
    | (Normal (Json status (request, disclosed)), w') =>
        status = 200 /\
        In request (data_requests (db w)) /\
        dr_request_id request = requestId /\
        dr_company_id request = user_id u /\
        dr_status request = 1 /\
        (forall rj, In rj disclosed ->
           In (rj_record rj) (records (db w)) /\
           rec_patient_id (rj_record rj) = dr_patient_id request /\
           exists g, In g (approved_records (db w)) /\ ar_request_id g = requestId /\
                     ar_record_id g = rec_record_id (rj_record rj)) /\
        db w' = set_audit_logs (db w)
                  (audit_logs (db w) ++
                   [mkAuditLog (next_id al_id (audit_logs (db w))) (user_id u) "view"
                               "approved_records" (IdStr requestId)
                               (JSON_stringify
                                  [("count", toString (Z.of_nat (List.length disclosed)))])
                               (clock w)])
    | (Normal (Next err), w') =>
        err = AppError "Approved request not found" 404 /\ w' = w
    | (Abrupt _, _) => False
    end /\
    (forall request,
        In request (data_requests (db w)) ->
        dr_request_id request = requestId -> dr_company_id request = user_id u ->
        dr_status request = 1 ->
        client_status false
          (fst (run (mysql mail_ok) (InsuranceController.getApprovedRecords requestId u) w))
          = 200).
Proof.
  intros mail_ok w requestId u.
  unfold InsuranceController.getApprovedRecords.
  rewrite run_try_catch, run_bind, run_await. cbn [mysql].
  destruct (filter _ (data_requests (db w))) as [| request0 rest] eqn:Hreq.
  - cbn. split; [auto |].
    intros request Hin Hid Hco Hst.
    assert (H : In request []).
    { rewrite <- Hreq. apply filter_In. split; [exact Hin |].
      rewrite Hid, Hco, Hst, !String.eqb_refl. reflexivity. }
    contradiction H.
  - split; [| intros; reflexivity].
    assert (Hin : In request0 (request0 :: rest)) by (left; reflexivity).
    rewrite <- Hreq in Hin. apply filter_In in Hin as [Hin Hc].
    apply andb_true_iff in Hc as [Hc Hst]. apply andb_true_iff in Hc as [Hid Hco].
    cbn [bind run mysql console_log AuditService.logAudit await try_catch db with_console
         with_db clock].
    split; [reflexivity |]. split; [exact Hin |].
    split; [apply String.eqb_eq, Hid |]. split; [apply String.eqb_eq, Hco |].
    split; [apply Z.eqb_eq, Hst |]. split; [| reflexivity].
    intros rj Hrj. apply in_select_approved_records, Hrj.
Qed.

(** ** Notifications *)

Lemma run_sendEmail (mail_ok : string -> bool) (to subject : string) (w : world) :
  run (mysql mail_ok) (EmailService.sendEmail to subject) w
    = if mail_ok to
      then (Normal tt, with_console (with_mail w to subject) LogLevel "Email sent:")
      else (Abrupt (MailError "sendMail failed"),
            with_console w ErrorLevel "Error sending email:").
Proof.
  unfold EmailService.sendEmail, await. cbn [bind try_catch run mysql].
  destruct (mail_ok to); reflexivity.
Qed.

(** A loop of awaited mails inside one [try]: the loop is left at the
    first address that fails. *)
Lemma run_mail_loop_guarded (mail_ok : string -> bool) (subject msg : string)
      (admins : list staff_member) (w : world) :
  exists w',
    run (mysql mail_ok)
        (try_catch (for_of admins (fun admin => EmailService.sendEmail (st_email admin) subject))
                   (fun _ => console_error msg)) w = (Normal tt, w') /\
    db w' = db w /\
    outbox w' = outbox w ++ map (fun admin => (st_email admin, subject))
                                (take_while (fun admin => mail_ok (st_email admin)) admins).
Proof.
  revert w. induction admins as [| a rest IH]; intro w.
  - exists w. cbn. rewrite app_nil_r. auto.
  - cbn [for_of take_while]. rewrite run_try_catch, run_bind, run_sendEmail.
    destruct (mail_ok (st_email a)).
    + destruct (IH (with_console (with_mail w (st_email a) subject) LogLevel "Email sent:"))
        as (w' & Hr & Hdb & Hout).
      rewrite run_try_catch in Hr. exists w'. split; [exact Hr |]. split; [exact Hdb |].
      rewrite Hout. cbn [outbox with_console with_mail map]. rewrite <- app_assoc. reflexivity.
    + eexists. split; [reflexivity |]. cbn. rewrite app_nil_r. auto.
Qed.

(** X13.  [requestMedicalRecords] sends its notifications inside one [try]
    around the loop: the administrators are written to in the order of the
    [SELECT] up to the first address the transport rejects, and those after
    it are not written to at all.  The request is answered 201 all the
    same.  No mail goes out when the patient has no row. *)
Theorem requestMedicalRecords_notifies_until_first_failure :
  forall (mail_ok : string -> bool) (w : world) (patientId : string)
         (requestDetails : list (string * string)) (u : user),
    existsb (fun a => String.eqb (ia_patient_id a) patientId
                      && String.eqb (ia_company_id a) (user_id u)
                      && (ia_status a =? 1)) (insurance_allocations (db w)) = true ->
    let admins := filter (fun s => String.eqb (st_role s) "admin") (staff (db w)) in
    let known :=
      existsb (fun p => String.eqb (pt_patient_id p) patientId) (patients (db w)) in
    exists w',
      run (mysql mail_ok) (InsuranceController.requestMedicalRecords patientId requestDetails u) w
        = (Normal (Json 201 (next_id rr_id (record_requests (db w)))), w') /\
      outbox w'
        = outbox w ++
          (if known
           then map (fun admin => (st_email admin, "New Medical Record Request"))
                    (take_while (fun admin => mail_ok (st_email admin)) admins)
           else []).
Proof.
  intros mail_ok w patientId requestDetails u Hconn admins known.
  destruct (filter_of_existsb _ _ Hconn) as (a0 & others & Hfil).
  unfold InsuranceController.requestMedicalRecords.
  rewrite run_try_catch. cbn [console_log bind run].
  rewrite run_bind, run_await. cbn [mysql db with_console]. rewrite Hfil.
  cbn [bind run].
  rewrite run_bind, run_await. cbn [mysql].
  rewrite run_bind, run_logAudit_eq.
  rewrite run_bind, run_await. cbn [mysql].
  rewrite run_bind, run_await. cbn [mysql].
  cbn [db with_db with_console set_audit_logs set_record_requests staff patients
       insertId clock].
  fold admins.
  assert (Hknown : map pt_name (filter (fun p => String.eqb (pt_patient_id p) patientId)
                                       (patients (db w))) = []
                   /\ known = false
                   \/ (exists n ns, map pt_name (filter (fun p => String.eqb (pt_patient_id p) patientId)
                                                  (patients (db w))) = n :: ns)
                      /\ known = true).
  { unfold known. induction (patients (db w)) as [| p ps IHp]; [left; auto |].
    cbn [filter existsb]. destruct (String.eqb (pt_patient_id p) patientId); cbn [orb map].
    - right. eauto.
    - exact IHp. }
  destruct Hknown as [[-> ->] | [(n & ns & ->) ->]].
  - destruct admins; cbn [bind run outbox with_db with_console];
      eexists; (split; [reflexivity |]); cbn; rewrite app_nil_r; reflexivity.
  - destruct admins as [| s ss].
    + cbn [bind run take_while map]. eexists. split; [reflexivity |]. cbn.
      rewrite app_nil_r. reflexivity.
    + rewrite run_bind.
      match goal with
      | |- context [run _ (try_catch (for_of ?l _) _) ?w0] =>
          destruct (run_mail_loop_guarded mail_ok "New Medical Record Request"
                      "Failed to send request notification:" l w0)
            as (w' & Hr & _ & Hout)
      end.
      unfold EmailService.sendNewRequestEmail.
      rewrite Hr. cbn [run]. exists w'. split; [reflexivity |].
      rewrite Hout. reflexivity.
Qed.

Lemma requestMedicalRecords_notifies_until_first_failure_witness :
  outbox (snd (run (mysql SampleWard.mail_flaky)
                   (InsuranceController.requestMedicalRecords "PT001" [] Sample.insurer)
                   SampleWard.ward_world))
    = [("nimal@hospital.example", "New Medical Record Request")].
Proof.
  destruct (@requestMedicalRecords_notifies_until_first_failure SampleWard.mail_flaky
              SampleWard.ward_world "PT001" [] Sample.insurer eq_refl) as (w' & Hr & Hout).
  rewrite Hr. cbn [snd]. rewrite Hout. reflexivity.
Defined.

(** A mail that never rejects: [sendDataRequestNotificationEmail] catches
    the failure of the transport and resolves to [false]. *)
Lemma run_mail_loop_each (mail_ok : string -> bool) (msg : string)
      (admins : list staff_member) (w : world) :
  exists w',
    run (mysql mail_ok)
        (try_catch
           (for_of admins (fun admin =>
              EmailService.sendDataRequestNotificationEmail (st_email admin) ;;; Ret tt))
           (fun _ => console_error msg)) w = (Normal tt, w') /\
    db w' = db w /\
    outbox w' = outbox w ++ map (fun admin => (st_email admin, "New Data Access Request"))
                                (filter (fun admin => mail_ok (st_email admin)) admins).
Proof.
  revert w. induction admins as [| a rest IH]; intro w.
  - exists w. cbn. rewrite app_nil_r. auto.
  - cbn [for_of filter]. rewrite run_try_catch, run_bind, run_bind.
    unfold EmailService.sendDataRequestNotificationEmail at 1.
    rewrite run_try_catch, run_bind, run_sendEmail.
    destruct (mail_ok (st_email a)); cbn [run console_error bind].
    + match goal with
      | |- context [run _ (for_of rest _) ?w0] => destruct (IH w0) as (w' & Hr & Hdb & Hout)
      end.
      rewrite run_try_catch in Hr. exists w'. split; [exact Hr |]. split; [exact Hdb |].
      rewrite Hout. cbn [outbox with_console with_mail map]. rewrite <- app_assoc. reflexivity.
    + match goal with
      | |- context [run _ (for_of rest _) ?w0] => destruct (IH w0) as (w' & Hr & Hdb & Hout)
      end.
      rewrite run_try_catch in Hr. exists w'. split; [exact Hr |]. split; [exact Hdb |].
      rewrite Hout. reflexivity.
Qed.

(** X14.  [createDataRequest] of the insurance controller sends each
    notification through [sendDataRequestNotificationEmail], which catches
    the failure of the transport: every administrator whose address the
    transport accepts is written to, in the order of the [SELECT], whether
    or not an address before it failed. *)
Theorem createDataRequest_notifies_every_reachable_admin :
  forall (mail_ok : string -> bool) (w : world)
         (body : InsuranceController.createDataRequestBody) (u : user),
    InsuranceController.patient_id body <> EmptyString ->
    existsb (fun a => String.eqb (ia_patient_id a) (InsuranceController.patient_id body)
                      && String.eqb (ia_company_id a) (user_id u)
                      && (ia_status a =? 1)) (insurance_allocations (db w)) = true ->
    existsb (fun r => String.eqb (dr_request_id r)
                                 ("REQ" ++ slice_last 6 (toString (clock w)))%string)
            (data_requests (db w)) = false ->
    existsb (fun c => String.eqb (ic_company_id c) (user_id u))
            (insurance_companies (db w)) = true ->
    existsb (fun p => String.eqb (pt_patient_id p) (InsuranceController.patient_id body))
            (patients (db w)) = true ->
    let admins := filter (fun s => String.eqb (st_role s) "admin") (staff (db w)) in
    exists created w',
      run (mysql mail_ok) (InsuranceController.createDataRequest body u) w
        = (Normal (Json 201 (Some created)), w') /\
      outbox w'
        = outbox w ++
          map (fun admin => (st_email admin, "New Data Access Request"))
              (filter (fun admin => mail_ok (st_email admin)) admins).
Proof.
  intros mail_ok w body u Hpid Hconn Hfresh Hc Hp admins.
  assert (Hf : falsy (InsuranceController.patient_id body) = false)
    by (destruct (InsuranceController.patient_id body); [contradiction Hpid; reflexivity | reflexivity]).
  destruct (filter_of_existsb _ _ Hconn) as (a0 & others & Hfil).
  set (row :=
    mkDataRequest ("REQ" ++ slice_last 6 (toString (clock w)))%string (user_id u)
                  (InsuranceController.patient_id body) (InsuranceController.purpose body)
                  (or_null (InsuranceController.date_range_start body))
                  (or_null (InsuranceController.date_range_end body))
                  0 (clock w) (user_id u)
                  (JSON_stringify (InsuranceController.request_details body)) None None).
  unfold InsuranceController.createDataRequest.
  rewrite run_try_catch, Hf.
  rewrite run_bind, run_await. cbn [mysql]. rewrite Hfil.
  cbn [console_log bind]. cbn [run].
  unfold DataRequestModel.createDataRequest.
  cbn [bind run mysql DataRequestModel.rd_company_id DataRequestModel.rd_patient_id
       DataRequestModel.rd_purpose DataRequestModel.rd_date_range_start
       DataRequestModel.rd_date_range_end DataRequestModel.rd_created_by
       DataRequestModel.rd_request_details clock with_console db].
  rewrite run_bind, run_bind, run_await. cbn [mysql db with_console clock].
  rewrite Hfresh, Hc, Hp. cbn [negb orb].
  rewrite run_getDataRequestById.
  cbn [db with_db with_console].
  destruct (select_fresh_data_request (db w) row Hfresh Hc Hp) as (pn & cn & rest & Hsel).
  change (dr_request_id row) with ("REQ" ++ slice_last 6 (toString (clock w)))%string in Hsel.
  fold row. rewrite Hsel.
  rewrite run_bind, run_logAudit_eq.
  rewrite run_bind, run_await. cbn [mysql].
  rewrite run_bind, run_await. cbn [mysql].
  cbn [db with_db with_console set_audit_logs set_data_requests staff patients].
  fold admins.
  destruct (filter_of_existsb _ _ Hp) as (p & ps & ->). cbn [map].
  destruct admins as [| s ss].
  - cbn [bind run filter map]. eexists; eexists. split; [reflexivity |]. cbn.
    rewrite app_nil_r. reflexivity.
  - rewrite run_bind.
    match goal with
    | |- context [run _ (try_catch (for_of ?l _) _) ?w0] =>
        destruct (run_mail_loop_each mail_ok "Failed to send data request notification:" l w0)
          as (w' & Hr & _ & Hout)
    end.
    rewrite Hr. cbn [run]. eexists; exists w'. split; [reflexivity |].
    rewrite Hout. reflexivity.
Qed.

Lemma createDataRequest_notifies_every_reachable_admin_witness :
  outbox (snd (run (mysql SampleWard.mail_flaky)
                   (InsuranceController.createDataRequest
                      (InsuranceController.mkBody "PT001" "claim_verification" None None [])
                      Sample.insurer)
                   SampleWard.ward_world))
    = [("nimal@hospital.example", "New Data Access Request");
       ("dilani@hospital.example", "New Data Access Request")].
Proof.
  destruct (@createDataRequest_notifies_every_reachable_admin SampleWard.mail_flaky
              SampleWard.ward_world
              (InsuranceController.mkBody "PT001" "claim_verification" None None [])
              Sample.insurer ltac:(discriminate) eq_refl eq_refl eq_refl eq_refl)
    as (created & w' & Hr & Hout).
  rewrite Hr. cbn [snd]. rewrite Hout. reflexivity.
Defined.

(** ** Rejections of the store *)



(** ** Two reviews at once *)

Lemma preserves_bind {A B} (h : handler) (I : world -> Prop) (Q1 : A -> Prop) (Q : B -> Prop)
      (p : js A) (f : A -> js B) :
  preserves h I Q1 p -> (forall a, Q1 a -> preserves h I Q (f a)) ->
  preserves h I Q (bind p f).
Proof.
  intros Hp Hf. induction p as [a | e | l m k IH | X c k IH]; cbn [bind preserves] in *.
  - apply Hf, Hp.
  - contradiction.
  - apply IH, Hp.
  - intros w Hw. destruct (Hp w Hw) as [Hw' Hk]. split; [exact Hw' |]. apply IH, Hk.
Qed.

Lemma preserves_try_catch {A} (h : handler) (I : world -> Prop) (Q : A -> Prop)
      (p : js A) (f : js_error -> js A) :
  preserves h I Q p -> preserves h I Q (try_catch p f).
Proof.
  intros Hp. induction p as [a | e | l m k IH | X c k IH]; cbn [try_catch preserves] in *.
  - exact Hp.
  - contradiction.
  - apply IH, Hp.
  - intros w Hw. destruct (Hp w Hw) as [Hw' Hk]. split; [exact Hw' |]. apply IH, Hk.
Qed.

(** A block of read-only calls inside [try ... catch] with a handler that
    only writes to the console keeps every property of the tables. *)
Lemma preserves_guarded_readonly (mail_ok : string -> bool) (I : world -> Prop)
      (p : js unit) (msg : string) :
  (forall w w', db w' = db w -> I w -> I w') ->
  readonly p ->
  preserves (mysql mail_ok) I (fun _ => True) (try_catch p (fun _ => console_error msg)).
Proof.
  intros HI. induction p as [a | e | l m k IH | X c k IH]; cbn [try_catch preserves readonly].
  - auto.
  - intros _. exact Logic.I.
  - exact IH.
  - intros [Hc Hk] w Hw. split.
    + apply (HI w); [apply mysql_readonly, Hc | exact Hw].
    + apply IH, Hk.
Qed.

Lemma in_select_data_request_joined_iff (d : database) (id : string)
      (x : data_request * string * string) :
  In x (select_data_request_joined d id) <->
  exists r p c,
    x = (r, pt_name p, ic_company_name c) /\
    In r (data_requests d) /\ dr_request_id r = id /\
    In p (patients d) /\ pt_patient_id p = dr_patient_id r /\
    In c (insurance_companies d) /\ ic_company_id c = dr_company_id r.
Proof.
  unfold select_data_request_joined. rewrite in_flat_map. split.
  - intros (r & Hr & H). apply in_flat_map in H as (p & Hp & H).
    apply in_map_iff in H as (c & <- & Hc).
    apply filter_In in Hr as [Hr Hid]. apply filter_In in Hp as [Hp Hpid].
    apply filter_In in Hc as [Hc Hcid]. apply String.eqb_eq in Hid, Hpid, Hcid.
    exists r, p, c. auto 10.
  - intros (r & p & c & -> & Hr & Hid & Hp & Hpid & Hc & Hcid).
    exists r. split; [apply filter_In; split; [exact Hr | apply String.eqb_eq, Hid] |].
    apply in_flat_map. exists p.
    split; [apply filter_In; split; [exact Hp | apply String.eqb_eq, Hpid] |].
    apply in_map_iff. exists c. split; [reflexivity |].
    apply filter_In; split; [exact Hc | apply String.eqb_eq, Hcid].
Qed.

(** The review's [UPDATE] keeps the request where the joined [SELECT]
    finds it. *)
Lemma select_data_request_joined_after_update (d : database) (status : Z)
      (notes : option string) (now : Z) (id id' : string) :
  select_data_request_joined d id <> [] ->
  select_data_request_joined
    (set_data_requests d (map (update_data_request status notes now id') (data_requests d))) id
    <> [].
Proof.
  intro H. destruct (select_data_request_joined d id) as [| x rest] eqn:Hsel;
    [contradiction H; reflexivity |].
  assert (Hx : In x (select_data_request_joined d id)) by (rewrite Hsel; left; reflexivity).
  apply in_select_data_request_joined_iff in Hx
    as (r & p & c & _ & Hr & Hid & Hp & Hpid & Hc & Hcid).
  set (r' := update_data_request status notes now id' r).
  assert (Hkeys : dr_request_id r' = dr_request_id r /\ dr_patient_id r' = dr_patient_id r /\
                  dr_company_id r' = dr_company_id r).
  { unfold r', update_data_request. destruct (String.eqb (dr_request_id r) id'); cbn; auto. }
  destruct Hkeys as (K1 & K2 & K3).
  assert (Hin : In (r', pt_name p, ic_company_name c)
                   (select_data_request_joined
                      (set_data_requests d
                         (map (update_data_request status notes now id') (data_requests d))) id)).
  { apply in_select_data_request_joined_iff. exists r', p, c.
    cbn [data_requests set_data_requests patients insurance_companies].
    split; [reflexivity |]. split; [apply in_map, Hr |].
    repeat split; congruence. }
  intro Hnil. rewrite Hnil in Hin. contradiction Hin.
Qed.

(** A review of a request that is in the store, at every point of its
    run: each awaited call leaves the request in the store, nothing is
    thrown, and the answer is 200. *)
Lemma review_preserves (mail_ok : string -> bool) (id : string) (status : Z)
      (action : string) (notes : option string) (u : user) :
  preserves (mysql mail_ok)
    (fun w => select_data_request_joined (db w) id <> [])
    (fun a => exists updated, a = Json 200 updated)
    (try_catch
       (updatedRequest <- DataRequestModel.updateDataRequestStatus id status notes ;;
        AuditService.logAudit (user_id u) action "data_request" (IdStr id)
                              [("notes", or_else notes EmptyString)] ;;;
        Ret (Json 200 updatedRequest))
       (fun error => Ret (Next error))).
Proof.
  apply preserves_try_catch.
  apply preserves_bind with (Q1 := fun _ => True).
  - unfold DataRequestModel.updateDataRequestStatus, DataRequestModel.getDataRequestById at 1,
      await.
    cbn [bind preserves mysql fst snd]. intros w Hw. split; [exact Hw |].
    destruct (select_data_request_joined (db w) id) as [| [[r pn] cn] rows];
      [contradiction Hw; reflexivity |].
    cbn [bind preserves mysql fst snd]. intros w1 Hw1.
    split; [apply select_data_request_joined_after_update, Hw1 |].
    apply preserves_bind with (Q1 := fun _ => True).
    + unfold DataRequestModel.getDataRequestById, await.
      cbn [bind preserves mysql fst snd]. intros w2 Hw2. split; [exact Hw2 |].
      destruct (select_data_request_joined (db w2) id) as [| [[r2 pn2] cn2] rows2];
        exact Logic.I.
    + intros updated _.
      apply preserves_bind with (Q1 := fun _ => True); [| intros; exact Logic.I].
      apply preserves_guarded_readonly.
      * intros w2 w2' Hdb Hw2. rewrite Hdb. exact Hw2.
      * apply readonly_bind; [apply readonly_getInsuranceById |].
        intros [c |]; [apply readonly_sendEmail | exact Logic.I].
  - intros updated _.
    unfold AuditService.logAudit, await.
    cbn [bind try_catch preserves mysql fst snd]. intros w Hw. split; [exact Hw |].
    eexists. reflexivity.
Qed.

(** X16.  Two administrators decide on the same stored request at the same
    time, one approving and one rejecting with a reason.  Whatever the
    order in which their awaited calls reach the store, both are answered
    200: neither decision is refused because of the other, and the request
    is still in the store afterwards. *)
Theorem concurrent_reviews_are_both_accepted :
  forall (mail_ok : string -> bool) (schedule : list bool) (w : world) (id : string)
         (notes reason : option string) (u1 u2 : user),
    select_data_request_joined (db w) id <> [] ->
    truthy reason = true ->
    exists updated1 updated2 w',
      interleave (mysql mail_ok) schedule
                 (AdminController.approveDataRequest id notes u1)
                 (AdminController.rejectDataRequest id reason u2) w
        = (Normal (Json 200 updated1), Normal (Json 200 updated2), w') /\
      select_data_request_joined (db w') id <> [].
Proof.
  intros mail_ok schedule w id notes reason u1 u2 Hw Hreason.
  destruct (@preserves_interleave _ (mysql mail_ok)
              (fun w => select_data_request_joined (db w) id <> [])
              (fun a => exists updated, a = Json 200 updated)
              (fun w l m H => H) schedule
              (AdminController.approveDataRequest id notes u1)
              (AdminController.rejectDataRequest id reason u2) w)
    as (a & b & w' & Hr & (r1 & ->) & (r2 & ->) & Hw').
  - apply review_preserves.
  - unfold AdminController.rejectDataRequest, DataRequestController.rejectDataRequest.
    rewrite Hreason. cbn [negb]. apply review_preserves.
  - exact Hw.
  - exists r1, r2, w'. split; [exact Hr | exact Hw'].
Qed.

Lemma concurrent_reviews_are_both_accepted_witness :
  exists updated1 updated2 w',
    interleave (mysql Sample.mail_up) [true; false; false; true; false; true]
               (AdminController.approveDataRequest "REQ000002" None Sample.admin)
               (AdminController.rejectDataRequest "REQ000002" (Some "no consent on file")
                                                  Sample.admin)
               Sample.sample_world
      = (Normal (Json 200 updated1), Normal (Json 200 updated2), w') /\
    select_data_request_joined (db w') "REQ000002" <> [].
Proof.
  apply (@concurrent_reviews_are_both_accepted Sample.mail_up
           [true; false; false; true; false; true] Sample.sample_world "REQ000002" None
           (Some "no consent on file") Sample.admin Sample.admin).
  - vm_compute. discriminate.
  - reflexivity.
Defined.
